(** * CardMath backend: the room registry and the round state machine

    A shallow embedding of [lib/roomManager.js] (class [RoomManager]) and of
    the socket handlers of [index.js], with the properties of the
    specification stated and settled against it.

    Conventions of the embedding.
    - A JavaScript [Map] keeps insertion order and [leaveRoomBySocket]
      iterates over it, so [rooms] and [players] are insertion-ordered
      association lists ([JsMap]).  Maps that are only looked up by key
      ([gameStates], [rematchRequests]) are [gmap]s, the timer table is a
      [gset] of room ids.
    - Objects are mutated in place in the source; here every method takes the
      manager and returns the new one.  [payload.data] in [index.js] aliases
      the stored game state, so the flag assignments made on the payload are
      applied to the stored state.
    - [Math.random] and [Date.now] are inputs: every random draw is an
      argument of the call that consumes it.
    - Numbers are integers ([Z]); [null] and [undefined] are [None].
    - What the server sends (acknowledgements, broadcasts, presence
      updates) and the read-only HTTP endpoints change no state and are left
      out; a handler is modelled by what it does to the tables. *)

From stdpp Require Import gmap strings list fin_maps pretty.
From Stdlib Require Import ZArith Lia.

Open Scope string_scope.
Open Scope list_scope.
Open Scope Z_scope.

(** ** JavaScript helpers *)

(** [x || y] on possibly-missing strings: the empty string is falsy, as is
    a missing field ([!roomId] in the handlers). *)
Definition truthy_str (x : option string) : option string :=
  match x with
  | Some s => if decide (s = EmptyString) then None else Some s
  | None => None
  end.

(** [x || y] on possibly-missing numbers: [0] is falsy. *)
Definition truthy_num (x : option Z) : option Z :=
  match x with
  | Some n => if decide (n = 0) then None else Some n
  | None => None
  end.

(** [Math.floor(Math.random() * m)]: the draw [r] is reduced to [0 .. m-1];
    every value of that range is the image of some draw. *)
Definition random_below (r m : nat) : nat := (r mod m)%nat.

(** An insertion-ordered [Map]. [set] on a present key replaces the value and
    keeps its position; on an absent key it appends. *)
Module JsMap.
Section ops.
Context {K V : Type} `{EqDecision K}.

Fixpoint get (k : K) (m : list (K * V)) : option V :=
  match m with
  | [] => None
  | (k', v) :: m' => if decide (k = k') then Some v else get k m'
  end.

Definition has (k : K) (m : list (K * V)) : bool :=
  match get k m with Some _ => true | None => false end.

Fixpoint set (k : K) (v : V) (m : list (K * V)) : list (K * V) :=
  match m with
  | [] => [(k, v)]
  | (k', v') :: m' =>
      if decide (k = k') then (k, v) :: m' else (k', v') :: set k v m'
  end.

Fixpoint del (k : K) (m : list (K * V)) : list (K * V) :=
  match m with
  | [] => []
  | (k', v) :: m' =>
      if decide (k = k') then del k m' else (k', v) :: del k m'
  end.

Definition size (m : list (K * V)) : nat := length m.
End ops.
End JsMap.

(** ** Data model *)

Module Card.
Record t := mk { id : string; value : Z; suit : string }.
End Card.

Module Player.
Record t := mk
  { playerId : string; playerNumber : Z; socketId : string; status : string }.
Definition set_status (v : string) (s : t) : t :=
  mk (playerId s) (playerNumber s) (socketId s) v.
End Player.

Module Room.
Record t := mk
  { roomId : string;
    name : string;
    players : list (string * Player.t);
    createdAt : Z;
    lastActivity : Z;
    lastEmptyAt : option Z;
    difficulty : option string;
    initialCards : option Z;
    options : option (option string * option Z);
    transitioning : bool }.
Definition set_players (v : list (string * Player.t)) (s : t) : t :=
  mk (roomId s) (name s) v (createdAt s) (lastActivity s) (lastEmptyAt s)
    (difficulty s) (initialCards s) (options s) (transitioning s).
Definition set_lastActivity (v : Z) (s : t) : t :=
  mk (roomId s) (name s) (players s) (createdAt s) v (lastEmptyAt s)
    (difficulty s) (initialCards s) (options s) (transitioning s).
Definition set_lastEmptyAt (v : option Z) (s : t) : t :=
  mk (roomId s) (name s) (players s) (createdAt s) (lastActivity s) v
    (difficulty s) (initialCards s) (options s) (transitioning s).
Definition set_difficulty (v : option string) (s : t) : t :=
  mk (roomId s) (name s) (players s) (createdAt s) (lastActivity s)
    (lastEmptyAt s) v (initialCards s) (options s) (transitioning s).
Definition set_initialCards (v : option Z) (s : t) : t :=
  mk (roomId s) (name s) (players s) (createdAt s) (lastActivity s)
    (lastEmptyAt s) (difficulty s) v (options s) (transitioning s).
Definition set_options (v : option (option string * option Z)) (s : t) : t :=
  mk (roomId s) (name s) (players s) (createdAt s) (lastActivity s)
    (lastEmptyAt s) (difficulty s) (initialCards s) v (transitioning s).
Definition set_transitioning (v : bool) (s : t) : t :=
  mk (roomId s) (name s) (players s) (createdAt s) (lastActivity s)
    (lastEmptyAt s) (difficulty s) (initialCards s) (options s) v.
End Room.

Module HistoryEntry.
Record t := mk
  { a : option Z; b : option Z; correctAnswer : Z;
    solvedBy : option Z; timestamp : Z }.
End HistoryEntry.

Module GameState.
Record t := mk
  { difficulty : string;
    initialCards : Z;
    player1Hand : list Card.t;
    player2Hand : list Card.t;
    player1SelectedCard : option Card.t;
    player2SelectedCard : option Card.t;
    submittedAnswers : gmap Z (option Z);
    player1Answered : bool;
    player2Answered : bool;
    player1Score : Z;
    player2Score : Z;
    currentProblem : option (Z * Z);
    answerOptions : list Z;
    correctAnswer : Z;
    gameOver : bool;
    winner : option string;
    problemSolved : bool;
    solvedBy : option Z;
    roundInProgress : bool;
    playersConnected : nat;
    revealEquation : bool;
    history : list HistoryEntry.t;
    dealComplete : bool;
    advanceClients : bool }.
Definition set_player1Hand (v : list Card.t) (s : t) : t :=
  mk (difficulty s) (initialCards s) v (player2Hand s)
    (player1SelectedCard s) (player2SelectedCard s) (submittedAnswers s)
    (player1Answered s) (player2Answered s) (player1Score s) (player2Score
    s) (currentProblem s) (answerOptions s) (correctAnswer s) (gameOver s)
    (winner s) (problemSolved s) (solvedBy s) (roundInProgress s)
    (playersConnected s) (revealEquation s) (history s) (dealComplete s)
    (advanceClients s).
Definition set_player2Hand (v : list Card.t) (s : t) : t :=
  mk (difficulty s) (initialCards s) (player1Hand s) v
    (player1SelectedCard s) (player2SelectedCard s) (submittedAnswers s)
    (player1Answered s) (player2Answered s) (player1Score s) (player2Score
    s) (currentProblem s) (answerOptions s) (correctAnswer s) (gameOver s)
    (winner s) (problemSolved s) (solvedBy s) (roundInProgress s)
    (playersConnected s) (revealEquation s) (history s) (dealComplete s)
    (advanceClients s).
Definition set_player1SelectedCard (v : option Card.t) (s : t) : t :=
  mk (difficulty s) (initialCards s) (player1Hand s) (player2Hand s) v
    (player2SelectedCard s) (submittedAnswers s) (player1Answered s)
    (player2Answered s) (player1Score s) (player2Score s) (currentProblem
    s) (answerOptions s) (correctAnswer s) (gameOver s) (winner s)
    (problemSolved s) (solvedBy s) (roundInProgress s) (playersConnected
    s) (revealEquation s) (history s) (dealComplete s) (advanceClients s).
Definition set_player2SelectedCard (v : option Card.t) (s : t) : t :=
  mk (difficulty s) (initialCards s) (player1Hand s) (player2Hand s)
    (player1SelectedCard s) v (submittedAnswers s) (player1Answered s)
    (player2Answered s) (player1Score s) (player2Score s) (currentProblem
    s) (answerOptions s) (correctAnswer s) (gameOver s) (winner s)
    (problemSolved s) (solvedBy s) (roundInProgress s) (playersConnected
    s) (revealEquation s) (history s) (dealComplete s) (advanceClients s).
Definition set_submittedAnswers (v : gmap Z (option Z)) (s : t) : t :=
  mk (difficulty s) (initialCards s) (player1Hand s) (player2Hand s)
    (player1SelectedCard s) (player2SelectedCard s) v (player1Answered s)
    (player2Answered s) (player1Score s) (player2Score s) (currentProblem
    s) (answerOptions s) (correctAnswer s) (gameOver s) (winner s)
    (problemSolved s) (solvedBy s) (roundInProgress s) (playersConnected
    s) (revealEquation s) (history s) (dealComplete s) (advanceClients s).
Definition set_player1Answered (v : bool) (s : t) : t :=
  mk (difficulty s) (initialCards s) (player1Hand s) (player2Hand s)
    (player1SelectedCard s) (player2SelectedCard s) (submittedAnswers s) v
    (player2Answered s) (player1Score s) (player2Score s) (currentProblem
    s) (answerOptions s) (correctAnswer s) (gameOver s) (winner s)
    (problemSolved s) (solvedBy s) (roundInProgress s) (playersConnected
    s) (revealEquation s) (history s) (dealComplete s) (advanceClients s).
Definition set_player2Answered (v : bool) (s : t) : t :=
  mk (difficulty s) (initialCards s) (player1Hand s) (player2Hand s)
    (player1SelectedCard s) (player2SelectedCard s) (submittedAnswers s)
    (player1Answered s) v (player1Score s) (player2Score s)
    (currentProblem s) (answerOptions s) (correctAnswer s) (gameOver s)
    (winner s) (problemSolved s) (solvedBy s) (roundInProgress s)
    (playersConnected s) (revealEquation s) (history s) (dealComplete s)
    (advanceClients s).
Definition set_player1Score (v : Z) (s : t) : t :=
  mk (difficulty s) (initialCards s) (player1Hand s) (player2Hand s)
    (player1SelectedCard s) (player2SelectedCard s) (submittedAnswers s)
    (player1Answered s) (player2Answered s) v (player2Score s)
    (currentProblem s) (answerOptions s) (correctAnswer s) (gameOver s)
    (winner s) (problemSolved s) (solvedBy s) (roundInProgress s)
    (playersConnected s) (revealEquation s) (history s) (dealComplete s)
    (advanceClients s).
Definition set_player2Score (v : Z) (s : t) : t :=
  mk (difficulty s) (initialCards s) (player1Hand s) (player2Hand s)
    (player1SelectedCard s) (player2SelectedCard s) (submittedAnswers s)
    (player1Answered s) (player2Answered s) (player1Score s) v
    (currentProblem s) (answerOptions s) (correctAnswer s) (gameOver s)
    (winner s) (problemSolved s) (solvedBy s) (roundInProgress s)
    (playersConnected s) (revealEquation s) (history s) (dealComplete s)
    (advanceClients s).
Definition set_currentProblem (v : option (Z * Z)) (s : t) : t :=
  mk (difficulty s) (initialCards s) (player1Hand s) (player2Hand s)
    (player1SelectedCard s) (player2SelectedCard s) (submittedAnswers s)
    (player1Answered s) (player2Answered s) (player1Score s) (player2Score
    s) v (answerOptions s) (correctAnswer s) (gameOver s) (winner s)
    (problemSolved s) (solvedBy s) (roundInProgress s) (playersConnected
    s) (revealEquation s) (history s) (dealComplete s) (advanceClients s).
Definition set_answerOptions (v : list Z) (s : t) : t :=
  mk (difficulty s) (initialCards s) (player1Hand s) (player2Hand s)
    (player1SelectedCard s) (player2SelectedCard s) (submittedAnswers s)
    (player1Answered s) (player2Answered s) (player1Score s) (player2Score
    s) (currentProblem s) v (correctAnswer s) (gameOver s) (winner s)
    (problemSolved s) (solvedBy s) (roundInProgress s) (playersConnected
    s) (revealEquation s) (history s) (dealComplete s) (advanceClients s).
Definition set_correctAnswer (v : Z) (s : t) : t :=
  mk (difficulty s) (initialCards s) (player1Hand s) (player2Hand s)
    (player1SelectedCard s) (player2SelectedCard s) (submittedAnswers s)
    (player1Answered s) (player2Answered s) (player1Score s) (player2Score
    s) (currentProblem s) (answerOptions s) v (gameOver s) (winner s)
    (problemSolved s) (solvedBy s) (roundInProgress s) (playersConnected
    s) (revealEquation s) (history s) (dealComplete s) (advanceClients s).
Definition set_gameOver (v : bool) (s : t) : t :=
  mk (difficulty s) (initialCards s) (player1Hand s) (player2Hand s)
    (player1SelectedCard s) (player2SelectedCard s) (submittedAnswers s)
    (player1Answered s) (player2Answered s) (player1Score s) (player2Score
    s) (currentProblem s) (answerOptions s) (correctAnswer s) v (winner s)
    (problemSolved s) (solvedBy s) (roundInProgress s) (playersConnected
    s) (revealEquation s) (history s) (dealComplete s) (advanceClients s).
Definition set_winner (v : option string) (s : t) : t :=
  mk (difficulty s) (initialCards s) (player1Hand s) (player2Hand s)
    (player1SelectedCard s) (player2SelectedCard s) (submittedAnswers s)
    (player1Answered s) (player2Answered s) (player1Score s) (player2Score
    s) (currentProblem s) (answerOptions s) (correctAnswer s) (gameOver s)
    v (problemSolved s) (solvedBy s) (roundInProgress s) (playersConnected
    s) (revealEquation s) (history s) (dealComplete s) (advanceClients s).
Definition set_problemSolved (v : bool) (s : t) : t :=
  mk (difficulty s) (initialCards s) (player1Hand s) (player2Hand s)
    (player1SelectedCard s) (player2SelectedCard s) (submittedAnswers s)
    (player1Answered s) (player2Answered s) (player1Score s) (player2Score
    s) (currentProblem s) (answerOptions s) (correctAnswer s) (gameOver s)
    (winner s) v (solvedBy s) (roundInProgress s) (playersConnected s)
    (revealEquation s) (history s) (dealComplete s) (advanceClients s).
Definition set_solvedBy (v : option Z) (s : t) : t :=
  mk (difficulty s) (initialCards s) (player1Hand s) (player2Hand s)
    (player1SelectedCard s) (player2SelectedCard s) (submittedAnswers s)
    (player1Answered s) (player2Answered s) (player1Score s) (player2Score
    s) (currentProblem s) (answerOptions s) (correctAnswer s) (gameOver s)
    (winner s) (problemSolved s) v (roundInProgress s) (playersConnected
    s) (revealEquation s) (history s) (dealComplete s) (advanceClients s).
Definition set_roundInProgress (v : bool) (s : t) : t :=
  mk (difficulty s) (initialCards s) (player1Hand s) (player2Hand s)
    (player1SelectedCard s) (player2SelectedCard s) (submittedAnswers s)
    (player1Answered s) (player2Answered s) (player1Score s) (player2Score
    s) (currentProblem s) (answerOptions s) (correctAnswer s) (gameOver s)
    (winner s) (problemSolved s) (solvedBy s) v (playersConnected s)
    (revealEquation s) (history s) (dealComplete s) (advanceClients s).
Definition set_playersConnected (v : nat) (s : t) : t :=
  mk (difficulty s) (initialCards s) (player1Hand s) (player2Hand s)
    (player1SelectedCard s) (player2SelectedCard s) (submittedAnswers s)
    (player1Answered s) (player2Answered s) (player1Score s) (player2Score
    s) (currentProblem s) (answerOptions s) (correctAnswer s) (gameOver s)
    (winner s) (problemSolved s) (solvedBy s) (roundInProgress s) v
    (revealEquation s) (history s) (dealComplete s) (advanceClients s).
Definition set_revealEquation (v : bool) (s : t) : t :=
  mk (difficulty s) (initialCards s) (player1Hand s) (player2Hand s)
    (player1SelectedCard s) (player2SelectedCard s) (submittedAnswers s)
    (player1Answered s) (player2Answered s) (player1Score s) (player2Score
    s) (currentProblem s) (answerOptions s) (correctAnswer s) (gameOver s)
    (winner s) (problemSolved s) (solvedBy s) (roundInProgress s)
    (playersConnected s) v (history s) (dealComplete s) (advanceClients
    s).
Definition set_history (v : list HistoryEntry.t) (s : t) : t :=
  mk (difficulty s) (initialCards s) (player1Hand s) (player2Hand s)
    (player1SelectedCard s) (player2SelectedCard s) (submittedAnswers s)
    (player1Answered s) (player2Answered s) (player1Score s) (player2Score
    s) (currentProblem s) (answerOptions s) (correctAnswer s) (gameOver s)
    (winner s) (problemSolved s) (solvedBy s) (roundInProgress s)
    (playersConnected s) (revealEquation s) v (dealComplete s)
    (advanceClients s).
Definition set_dealComplete (v : bool) (s : t) : t :=
  mk (difficulty s) (initialCards s) (player1Hand s) (player2Hand s)
    (player1SelectedCard s) (player2SelectedCard s) (submittedAnswers s)
    (player1Answered s) (player2Answered s) (player1Score s) (player2Score
    s) (currentProblem s) (answerOptions s) (correctAnswer s) (gameOver s)
    (winner s) (problemSolved s) (solvedBy s) (roundInProgress s)
    (playersConnected s) (revealEquation s) (history s) v (advanceClients
    s).
Definition set_advanceClients (v : bool) (s : t) : t :=
  mk (difficulty s) (initialCards s) (player1Hand s) (player2Hand s)
    (player1SelectedCard s) (player2SelectedCard s) (submittedAnswers s)
    (player1Answered s) (player2Answered s) (player1Score s) (player2Score
    s) (currentProblem s) (answerOptions s) (correctAnswer s) (gameOver s)
    (winner s) (problemSolved s) (solvedBy s) (roundInProgress s)
    (playersConnected s) (revealEquation s) (history s) (dealComplete s)
    v.
End GameState.

Record RoomManager := mkRoomManager
  { rooms : list (string * Room.t);
    gameStates : gmap string GameState.t;
    roomTTLMs : Z }.

Definition set_rooms (v : list (string * Room.t)) (rm : RoomManager) :=
  mkRoomManager v (gameStates rm) (roomTTLMs rm).
Definition set_gameStates (v : gmap string GameState.t) (rm : RoomManager) :=
  mkRoomManager (rooms rm) v (roomTTLMs rm).

(** [constructor()] *)
Definition newRoomManager : RoomManager :=
  mkRoomManager [] ∅ (10 * 60 * 1000).


(** ** RoomManager: membership *)

(** The acknowledgement sent back by [createRoom] and [joinRoom]. *)
Module Ack.
Record t := mk
  { roomId : string; roomName : string; playerId : string;
    playerNumber : Z; otherPlayerConnected : bool }.
End Ack.

(** [createRoom(socketId)].  [roomId], [playerId] and [roomName] are the
    values of [generateRoomId()], [generatePlayerId()] and
    [generateRoomName()]; [now] is [Date.now()]. *)
Definition createRoom (roomId playerId roomName : string) (now : Z)
    (socketId : string) (rm : RoomManager) : (Room.t * Ack.t) * RoomManager :=
  let player := Player.mk playerId 1 socketId "lobby" in
  let room :=
    Room.mk roomId roomName (JsMap.set socketId player []) now now
      None None None None false in
  ((room, Ack.mk roomId roomName playerId 1 false),
   set_rooms (JsMap.set roomId room (rooms rm)) rm).

Inductive JoinResult :=
| JoinError (error : string)
| JoinOk (room : Room.t) (response : Ack.t).

(** [joinRoom(roomId, socketId)] *)
Definition joinRoom (playerId : string) (now : Z) (roomId socketId : string)
    (rm : RoomManager) : JoinResult * RoomManager :=
  match JsMap.get roomId (rooms rm) with
  | None => (JoinError "Room not found", rm)
  | Some room =>
      if decide (2 ≤ JsMap.size (Room.players room))%nat
      then (JoinError "Room is full", rm)
      else
        let player := Player.mk playerId 2 socketId "lobby" in
        let room :=
          Room.set_players (JsMap.set socketId player (Room.players room)) room in
        let room := Room.set_lastActivity now room in
        (JoinOk room (Ack.mk roomId (Room.name room) playerId 2 true),
         set_rooms (JsMap.set roomId room (rooms rm)) rm)
  end.

(** [findRoomBySocket(socketId)]: the first room, in insertion order, whose
    player map has the socket. *)
Fixpoint findRoomBySocket_in (socketId : string) (rs : list (string * Room.t))
    : option (string * Room.t) :=
  match rs with
  | [] => None
  | (roomId, room) :: rs' =>
      if JsMap.has socketId (Room.players room) then Some (roomId, room)
      else findRoomBySocket_in socketId rs'
  end.

Definition findRoomBySocket (socketId : string) (rm : RoomManager) :=
  findRoomBySocket_in socketId (rooms rm).

Module Left.
Record t := mk { roomId : string; deleted : bool; remaining : nat }.
End Left.

(** [leaveRoomBySocket(socketId)] *)
Definition leaveRoomBySocket (socketId : string) (rm : RoomManager)
    : option Left.t * RoomManager :=
  match findRoomBySocket socketId rm with
  | None => (None, rm)
  | Some (roomId, room) =>
      let room :=
        Room.set_players (JsMap.del socketId (Room.players room)) room in
      let remaining := JsMap.size (Room.players room) in
      if decide (remaining = 0%nat) then
        (Some (Left.mk roomId true remaining),
         mkRoomManager (JsMap.del roomId (rooms rm))
           (delete roomId (gameStates rm)) (roomTTLMs rm))
      else
        let room :=
          match truthy_num (Room.lastEmptyAt room) with
          | Some _ => Room.set_lastEmptyAt None room
          | None => room
          end in
        (Some (Left.mk roomId false remaining),
         set_rooms (JsMap.set roomId room (rooms rm)) rm)
  end.

(** [setPlayerStatus(roomId, socketId, status)] *)
Definition setPlayerStatus (roomId socketId status : string) (rm : RoomManager)
    : bool * RoomManager :=
  match JsMap.get roomId (rooms rm) with
  | None => (false, rm)
  | Some room =>
      match JsMap.get socketId (Room.players room) with
      | None => (false, rm)
      | Some p =>
          let room :=
            Room.set_players
              (JsMap.set socketId (Player.set_status status p) (Room.players room))
              room in
          (true, set_rooms (JsMap.set roomId room (rooms rm)) rm)
      end
  end.

(** [getRoom(roomId)] *)
Definition getRoom (roomId : string) (rm : RoomManager) : option Room.t :=
  JsMap.get roomId (rooms rm).

(** [garbageCollectRooms()]: one pass over the entries of [rooms]; a room is
    removed when it has no player, carries a [lastEmptyAt] stamp and that
    stamp is older than [roomTTLMs]. *)
Definition gc_entry (now : Z) (acc : list string * RoomManager)
    (entry : string * Room.t) : list string * RoomManager :=
  let '(removed, rm) := acc in
  let '(roomId, room) := entry in
  match truthy_num (Room.lastEmptyAt room) with
  | Some lastEmptyAt =>
      if decide (JsMap.size (Room.players room) = 0%nat) then
        if decide (now - lastEmptyAt > roomTTLMs rm) then
          (removed ++ [roomId],
           mkRoomManager (JsMap.del roomId (rooms rm))
             (delete roomId (gameStates rm)) (roomTTLMs rm))
        else acc
      else acc
  | None => acc
  end.

Definition garbageCollectRooms (now : Z) (rm : RoomManager)
    : list string * RoomManager :=
  foldl (gc_entry now) ([], rm) (rooms rm).

(** ** RoomManager: dealing *)

Definition suits : list string := ["hearts"; "diamonds"; "clubs"; "spades"].

(** One [allCards.push({ id: `${suit}-${value}-${id}`, value, suit }); id++]. *)
Definition push_card (suit : string) (st : list Card.t * nat) (value : Z)
    : list Card.t * nat :=
  let '(allCards, id) := st in
  (allCards ++
     [Card.mk (suit +:+ "-" +:+ pretty value +:+ "-" +:+ pretty id) value suit],
   S id).

(** The deck before shuffling: for each suit, the values 2..12. *)
Definition buildDeck : list Card.t :=
  fst (foldl (fun st suit => foldl (push_card suit) st (seqZ 2 11))
         ([], 0%nat) suits).

(** [[a[i], a[j]] = [a[j], a[i]]] *)
Definition swap {A} (i j : nat) (l : list A) : list A :=
  match l !! i, l !! j with
  | Some x, Some y => <[j := x]> (<[i := y]> l)
  | _, _ => l
  end.

(** The Fisher-Yates loop [for (i = length - 1; i > 0; i--)]; [rand i] is the
    draw consumed at index [i]. *)
Fixpoint shuffle_from {A} (rand : nat → nat) (i : nat) (l : list A) : list A :=
  match i with
  | O => l
  | S i' => shuffle_from rand i' (swap i (random_below (rand i) (i + 1)) l)
  end.

Definition shuffle {A} (rand : nat → nat) (l : list A) : list A :=
  shuffle_from rand (length l - 1) l.

(** [arr.splice(0, n)]: the removed prefix and what is left of the array. A
    negative count removes nothing. *)
Definition splice0 {A} (n : Z) (l : list A) : list A * list A :=
  (take (Z.to_nat n) l, drop (Z.to_nat n) l).

Definition difficultyDefaults (difficulty : string) : option Z :=
  if decide (difficulty = "test") then Some 1
  else if decide (difficulty = "easy") then Some 6
  else if decide (difficulty = "medium") then Some 18
  else if decide (difficulty = "hard") then Some 24
  else None.

Module Options.
Record t := mk { difficulty : option string; initialCards : option Z }.
Definition empty : t := mk None None.
End Options.

Definition noAnswers : gmap Z (option Z) := {[ 1 := None; 2 := None ]}.

(** [initGameState(roomId, options)] *)
Definition initGameState (rand : nat → nat) (roomId : string)
    (options : Options.t) (rm : RoomManager)
    : option GameState.t * RoomManager :=
  match JsMap.get roomId (rooms rm) with
  | None => (None, rm)
  | Some room =>
      let difficulty :=
        default "easy"
          (truthy_str (Options.difficulty options)
             ∪ truthy_str (Room.difficulty room)) in
      let initialCards :=
        default 6
          (truthy_num (Options.initialCards options)
             ∪ truthy_num (Room.initialCards room)
             ∪ truthy_num (difficultyDefaults difficulty)) in
      let room := Room.set_difficulty (Some difficulty) room in
      let room := Room.set_initialCards (Some initialCards) room in
      let room := Room.set_options (Some (Some difficulty, Some initialCards)) room in
      let allCards := shuffle rand buildDeck in
      let '(player1Hand, allCards) := splice0 initialCards allCards in
      let '(player2Hand, allCards) := splice0 initialCards allCards in
      let state :=
        {| GameState.difficulty := difficulty;
           GameState.initialCards := initialCards;
           GameState.player1Hand := player1Hand;
           GameState.player2Hand := player2Hand;
           GameState.player1SelectedCard := None;
           GameState.player2SelectedCard := None;
           GameState.submittedAnswers := noAnswers;
           GameState.player1Answered := false;
           GameState.player2Answered := false;
           GameState.player1Score := 0;
           GameState.player2Score := 0;
           GameState.currentProblem := None;
           GameState.answerOptions := [];
           GameState.correctAnswer := 0;
           GameState.gameOver := false;
           GameState.winner := None;
           GameState.problemSolved := false;
           GameState.solvedBy := None;
           GameState.roundInProgress := false;
           GameState.playersConnected := JsMap.size (Room.players room);
           GameState.revealEquation := false;
           GameState.history := [];
           GameState.dealComplete := false;
           GameState.advanceClients := false |} in
      let room :=
        Room.set_players
          (prod_map id (Player.set_status "in-game") <$> Room.players room)
          room in
      (Some state,
       mkRoomManager (JsMap.set roomId room (rooms rm))
         (<[roomId := state]> (gameStates rm)) (roomTTLMs rm))
  end.

(** ** RoomManager: rounds *)

(** The game-state object is mutated in place: [store] writes the mutated
    object back under its room id. *)
Definition store (roomId : string) (state : GameState.t) (rm : RoomManager)
    : RoomManager :=
  set_gameStates (<[roomId := state]> (gameStates rm)) rm.

(** [room ? room.players.size : 0] *)
Definition connectedCount (roomId : string) (rm : RoomManager) : nat :=
  match JsMap.get roomId (rooms rm) with
  | Some room => JsMap.size (Room.players room)
  | None => 0%nat
  end.

(** [hand.find(c => c.id === card.id)] *)
Definition findCard (cardId : string) (hand : list Card.t) : option Card.t :=
  find (fun c => bool_decide (Card.id c = cardId)) hand.

(** [Set.prototype.add] on an insertion-ordered set. *)
Definition set_add (x : Z) (opts : list Z) : list Z :=
  if decide (x ∈ opts) then opts else opts ++ [x].

(** One wrong option: [offset = Math.floor(Math.random() * 20) + 1], then
    [correctAnswer + (Math.random() > 0.5 ? offset : -offset)], clamped by
    [Math.max(1, _)].  A draw is the pair of the two random numbers: the
    first as a natural number, the second as the outcome of [> 0.5]. *)
Definition wrongAnswer (correctAnswer : Z) (draw : nat * bool) : Z :=
  let offset := Z.of_nat (random_below (fst draw) 20) + 1 in
  let wrong := correctAnswer + (if snd draw then offset else - offset) in
  Z.max 1 wrong.

(** [while (opts.size < 4) opts.add(...)].  The loop runs as long as the
    draws repeat values already in the set; a finite list of draws that is
    used up before the set has four elements stands for a run that has not
    finished, and gives [None]. *)
Fixpoint fillOptions (draws : list (nat * bool)) (correctAnswer : Z)
    (opts : list Z) : option (list Z) :=
  if decide (length opts < 4)%nat then
    match draws with
    | [] => None
    | draw :: draws' =>
        fillOptions draws' correctAnswer
          (set_add (wrongAnswer correctAnswer draw) opts)
    end
  else Some opts.

(** [arr.sort(() => Math.random() - 0.5)]: with a comparator that answers at
    random the resulting order is implementation-defined; all that is fixed
    is that the result is a rearrangement of the array.  The rearrangement is
    chosen by [picks]: the next element of the result is the one at position
    [pick mod length] of what is left. *)
Fixpoint randomOrder {A} (picks : list nat) (l : list A) (n : nat) : list A :=
  match n with
  | O => []
  | S n' =>
      let k := random_below (hd 0%nat picks) (length l) in
      match l !! k with
      | Some x => x :: randomOrder (tl picks) (delete k l) n'
      | None => []
      end
  end.

Definition buildAnswerOptions (draws : list (nat * bool)) (picks : list nat)
    (correctAnswer : Z) : option (list Z) :=
  opts ← fillOptions draws correctAnswer (set_add correctAnswer []);
  Some (randomOrder picks opts (length opts)).

(** [playerSelectCard(roomId, playerNumber, card)].  The outer [option] is
    [None] when the option loop has not finished on the given draws; the
    inner one is the returned state or [null]. *)
Definition playerSelectCard (draws : list (nat * bool)) (picks : list nat)
    (roomId : string) (playerNumber : Z) (cardId : string) (rm : RoomManager)
    : option (option GameState.t * RoomManager) :=
  match gameStates rm !! roomId with
  | None => Some (None, rm)
  | Some state =>
      let room := JsMap.get roomId (rooms rm) in
      let state :=
        GameState.set_playersConnected (connectedCount roomId rm) state in
      if default false (Room.transitioning <$> room) then
        Some (Some state, store roomId state rm)
      else
        let state :=
          if decide (playerNumber = 1) then
            GameState.set_player1SelectedCard
              (findCard cardId (GameState.player1Hand state)) state
          else
            GameState.set_player2SelectedCard
              (findCard cardId (GameState.player2Hand state)) state in
        match GameState.player1SelectedCard state,
              GameState.player2SelectedCard state with
        | Some c1, Some c2 =>
            let a := Card.value c1 in
            let b := Card.value c2 in
            let correctAnswer := a * b in
            answerOptions ← buildAnswerOptions draws picks correctAnswer;
            let state := GameState.set_currentProblem (Some (a, b)) state in
            let state := GameState.set_correctAnswer correctAnswer state in
            let state := GameState.set_answerOptions answerOptions state in
            let state := GameState.set_roundInProgress true state in
            let state := GameState.set_problemSolved false state in
            let state := GameState.set_solvedBy None state in
            let state := GameState.set_player1Answered false state in
            let state := GameState.set_player2Answered false state in
            let state := GameState.set_submittedAnswers noAnswers state in
            let state := GameState.set_revealEquation true state in
            Some (Some state, store roomId state rm)
        | _, _ =>
            let state := GameState.set_revealEquation false state in
            Some (Some state, store roomId state rm)
        end
  end.

(** What [playerSubmitAnswer] returns: [null], the bare state when the guard
    rejects the submission, or [{ state, isCorrect }]. *)
Inductive SubmitResult :=
| SubmitNull
| SubmitRejected (state : GameState.t)
| SubmitAccepted (state : GameState.t) (isCorrect : bool).

(** The history entry pushed when a round is resolved. *)
Definition historyEntry (state : GameState.t) (solvedBy : option Z) (now : Z)
    : HistoryEntry.t :=
  HistoryEntry.mk (fst <$> GameState.currentProblem state)
    (snd <$> GameState.currentProblem state)
    (GameState.correctAnswer state) solvedBy now.

(** [playerSubmitAnswer(roomId, playerNumber, answer)]; [now] is the
    [Date.now()] of the history entry. *)
Definition playerSubmitAnswer (now : Z) (roomId : string) (playerNumber : Z)
    (answer : Z) (rm : RoomManager) : SubmitResult * RoomManager :=
  match gameStates rm !! roomId with
  | None => (SubmitNull, rm)
  | Some state =>
      let state :=
        GameState.set_playersConnected (connectedCount roomId rm) state in
      if negb (GameState.roundInProgress state) || GameState.problemSolved state
      then (SubmitRejected state, store roomId state rm)
      else
        let isCorrect := bool_decide (answer = GameState.correctAnswer state) in
        let state :=
          if decide (playerNumber = 1)
          then GameState.set_player1Answered true state
          else GameState.set_player2Answered true state in
        let state :=
          GameState.set_submittedAnswers
            (<[playerNumber := Some answer]> (GameState.submittedAnswers state))
            state in
        if isCorrect then
          let state :=
            if decide (playerNumber = 1)
            then GameState.set_player1Score (GameState.player1Score state + 1) state
            else GameState.set_player2Score (GameState.player2Score state + 1) state in
          let state := GameState.set_problemSolved true state in
          let state := GameState.set_solvedBy (Some playerNumber) state in
          let state :=
            GameState.set_history
              (GameState.history state
                 ++ [historyEntry state (Some playerNumber) now]) state in
          (SubmitAccepted state isCorrect, store roomId state rm)
        else
          let otherAnswered :=
            if decide (playerNumber = 1)
            then GameState.player2Answered state
            else GameState.player1Answered state in
          if otherAnswered then
            let state := GameState.set_problemSolved true state in
            let state := GameState.set_solvedBy None state in
            let state :=
              GameState.set_history
                (GameState.history state ++ [historyEntry state None now])
                state in
            (SubmitAccepted state isCorrect, store roomId state rm)
          else (SubmitAccepted state isCorrect, store roomId state rm)
  end.

(** [hand.filter(c => c.id !== selected.id)] when a card is selected. *)
Definition removeSelected (selected : option Card.t) (hand : list Card.t)
    : list Card.t :=
  match selected with
  | Some sel => filter (fun c => Card.id c ≠ Card.id sel) hand
  | None => hand
  end.

(** [nextRound(roomId)] *)
Definition nextRound (roomId : string) (rm : RoomManager)
    : option GameState.t * RoomManager :=
  match gameStates rm !! roomId with
  | None => (None, rm)
  | Some state =>
      let state :=
        GameState.set_player1Hand
          (removeSelected (GameState.player1SelectedCard state)
             (GameState.player1Hand state)) state in
      let state :=
        GameState.set_player2Hand
          (removeSelected (GameState.player2SelectedCard state)
             (GameState.player2Hand state)) state in
      let gameOver :=
        bool_decide (length (GameState.player1Hand state) = 0%nat)
        || bool_decide (length (GameState.player2Hand state) = 0%nat) in
      let state := GameState.set_gameOver gameOver state in
      let state :=
        if gameOver then
          if decide (GameState.player1Score state > GameState.player2Score state)
          then GameState.set_winner (Some "player1") state
          else if decide (GameState.player2Score state > GameState.player1Score state)
          then GameState.set_winner (Some "player2") state
          else GameState.set_winner None state
        else state in
      let state := GameState.set_player1SelectedCard None state in
      let state := GameState.set_player2SelectedCard None state in
      let state := GameState.set_player1Answered false state in
      let state := GameState.set_player2Answered false state in
      let state := GameState.set_submittedAnswers noAnswers state in
      let state := GameState.set_currentProblem None state in
      let state := GameState.set_answerOptions [] state in
      let state := GameState.set_correctAnswer 0 state in
      let state := GameState.set_problemSolved false state in
      let state := GameState.set_solvedBy None state in
      let state := GameState.set_roundInProgress false state in
      let state := GameState.set_revealEquation false state in
      let state := GameState.set_dealComplete true state in
      let state := GameState.set_advanceClients true state in
      let state :=
        GameState.set_playersConnected (connectedCount roomId rm) state in
      (Some state, store roomId state rm)
  end.

(** [resetGameState(roomId)] *)
Definition resetGameState (rand : nat → nat) (roomId : string)
    (rm : RoomManager) : option GameState.t * RoomManager :=
  let rm := set_gameStates (delete roomId (gameStates rm)) rm in
  match initGameState rand roomId Options.empty rm with
  | (Some s, rm) =>
      let s := GameState.set_dealComplete false s in
      let s := GameState.set_advanceClients false s in
      (Some s, store roomId s rm)
  | (None, rm) => (None, rm)
  end.

(** ** The socket server ([index.js]) *)

(** The module-level tables of [index.js] next to the manager:
    [rematchRequests] and [nextRoundTimers] (a pending timer is the
    membership of its room id).  [roomStates] is never populated and
    [presenceTimers] only delays a broadcast; both are left out. *)
Record Server := mkServer
  { roomManager : RoomManager;
    rematchRequests : gmap string (gset Z);
    nextRoundTimers : gset string }.

Definition set_roomManager (v : RoomManager) (srv : Server) : Server :=
  mkServer v (rematchRequests srv) (nextRoundTimers srv).
Definition set_rematchRequests (v : gmap string (gset Z)) (srv : Server)
    : Server :=
  mkServer (roomManager srv) v (nextRoundTimers srv).
Definition set_nextRoundTimers (v : gset string) (srv : Server) : Server :=
  mkServer (roomManager srv) (rematchRequests srv) v.

Definition newServer : Server := mkServer newRoomManager ∅ ∅.

(** The players who asked for a rematch in a room; a room without an entry
    has no pending request. *)
Definition pendingRematch (roomId : string) (srv : Server) : gset Z :=
  default ∅ (rematchRequests srv !! roomId).

(** [const r = roomManager.getRoom(roomId); if (r) r.transitioning = v] *)
Definition setTransitioning (v : bool) (roomId : string) (rm : RoomManager)
    : RoomManager :=
  match getRoom roomId rm with
  | Some r => set_rooms (JsMap.set roomId (Room.set_transitioning v r) (rooms rm)) rm
  | None => rm
  end.

(** An assignment through [payload.data], which is the stored state. *)
Definition onState (f : GameState.t → GameState.t) (roomId : string)
    (rm : RoomManager) : RoomManager :=
  match gameStates rm !! roomId with
  | Some state => store roomId (f state) rm
  | None => rm
  end.

(** [scheduleAutoNextRound(roomId, delay)] *)
Definition scheduleAutoNextRound (roomId : string) (srv : Server) : Server :=
  if decide (roomId ∈ nextRoundTimers srv) then srv
  else
    mkServer (setTransitioning true roomId (roomManager srv))
      (rematchRequests srv) ({[roomId]} ∪ nextRoundTimers srv).

(** [clearAutoNextRound(roomId)] *)
Definition clearAutoNextRound (roomId : string) (srv : Server) : Server :=
  if decide (roomId ∈ nextRoundTimers srv) then
    mkServer (setTransitioning false roomId (roomManager srv))
      (rematchRequests srv) (nextRoundTimers srv ∖ {[roomId]})
  else srv.

(** The body of the timer set by [scheduleAutoNextRound], run when the timer
    fires; the [finally] block clears the flag and forgets the timer. *)
Definition autoNextRound (roomId : string) (srv : Server) : Server :=
  let rm := roomManager srv in
  let rm :=
    match getRoom roomId rm with
    | None => rm
    | Some _ =>
        match nextRound roomId rm with
        | (Some _, rm) => onState (GameState.set_advanceClients true) roomId rm
        | (None, rm) => rm
        end
    end in
  mkServer (setTransitioning false roomId rm) (rematchRequests srv)
    (nextRoundTimers srv ∖ {[roomId]}).

(** The option fields of a [startGame] or [setRoomOptions] payload:
    [payload.difficulty], [payload.options?.difficulty] and the fourteen
    synonyms of the hand size in the order [pickNumber] receives them. *)
Module Payload.
Record t := mk
  { difficulty : option string;
    optionsDifficulty : option string;
    counts : list (option Z) }.
End Payload.

(** [pickNumber(...vals)]: the first finite number greater than zero. *)
Fixpoint pickNumber (vals : list (option Z)) : option Z :=
  match vals with
  | [] => None
  | Some v :: vals' => if decide (v > 0) then Some v else pickNumber vals'
  | None :: vals' => pickNumber vals'
  end.

(** ['createRoom'] *)
Definition onCreateRoom (socket roomId playerId roomName : string) (now : Z)
    (srv : Server) : Server :=
  set_roomManager
    (snd (createRoom roomId playerId roomName now socket (roomManager srv))) srv.

(** ['joinRoom'] *)
Definition onJoinRoom (socket roomId playerId : string) (now : Z)
    (srv : Server) : Server :=
  if decide (roomId = EmptyString) then srv
  else
    match joinRoom playerId now roomId socket (roomManager srv) with
    | (JoinError _, _) => srv
    | (JoinOk room _, rm) =>
        let rm :=
          match truthy_num (Room.lastEmptyAt room) with
          | Some _ =>
              set_rooms
                (JsMap.set roomId (Room.set_lastEmptyAt None room) (rooms rm)) rm
          | None => rm
          end in
        set_roomManager rm srv
    end.

(** ['gameSync'] with [type === 'cardSelected'] *)
Definition onCardSelected (draws : list (nat * bool)) (picks : list nat)
    (roomId : string) (playerNumber : Z) (cardId : string) (srv : Server)
    : option Server :=
  if decide (roomId = EmptyString) then Some srv
  else
    match getRoom roomId (roomManager srv) with
    | None => Some srv
    | Some _ =>
        r ← playerSelectCard draws picks roomId playerNumber cardId
              (roomManager srv);
        Some (set_roomManager (snd r) srv)
    end.

(** ['gameSync'] with [type === 'answerSubmitted'].  On a rejected
    submission [res] is the bare state, [res.state] is undefined and the
    handler ends in its [catch]. *)
Definition onAnswerSubmitted (now : Z) (roomId : string) (playerNumber : Z)
    (answer : Z) (srv : Server) : Server :=
  if decide (roomId = EmptyString) then srv
  else
    match getRoom roomId (roomManager srv) with
    | None => srv
    | Some _ =>
        match playerSubmitAnswer now roomId playerNumber answer
                (roomManager srv) with
        | (SubmitAccepted state _, rm) =>
            if GameState.problemSolved state then
              let rm := onState (GameState.set_advanceClients false) roomId rm in
              scheduleAutoNextRound roomId (set_roomManager rm srv)
            else set_roomManager rm srv
        | (_, rm) => set_roomManager rm srv
        end
    end.

(** ['gameSync'] with [type === 'nextRound'] *)
Definition onNextRound (roomId : string) (srv : Server) : Server :=
  if decide (roomId = EmptyString) then srv
  else
    match getRoom roomId (roomManager srv) with
    | None => srv
    | Some _ =>
        let srv := clearAutoNextRound roomId srv in
        match nextRound roomId (roomManager srv) with
        | (Some _, rm) =>
            set_roomManager
              (onState (GameState.set_advanceClients true) roomId rm) srv
        | (None, rm) => set_roomManager rm srv
        end
    end.

(** ['gameSync'] with [type === 'resetGame'] *)
Definition onResetGame (rand : nat → nat) (roomId : string) (srv : Server)
    : Server :=
  if decide (roomId = EmptyString) then srv
  else
    match getRoom roomId (roomManager srv) with
    | None => srv
    | Some _ =>
        match resetGameState rand roomId (roomManager srv) with
        | (Some _, rm) =>
            mkServer rm (delete roomId (rematchRequests srv))
              (nextRoundTimers srv)
        | (None, rm) => set_roomManager rm srv
        end
    end.

(** ['requestRematch'] *)
Definition onRequestRematch (rand : nat → nat) (roomId : string)
    (playerNumber : Z) (srv : Server) : Server :=
  if decide (roomId = EmptyString ∨ playerNumber = 0) then srv
  else
    match getRoom roomId (roomManager srv) with
    | None => srv
    | Some room =>
        let requests := {[playerNumber]} ∪ pendingRematch roomId srv in
        let srv :=
          set_rematchRequests (<[roomId := requests]> (rematchRequests srv)) srv in
        if decide (2 ≤ size requests)%nat then
          let difficulty := default "easy" (truthy_str (Room.difficulty room)) in
          let initialCards := default 6 (truthy_num (Room.initialCards room)) in
          match initGameState rand roomId
                  (Options.mk (Some difficulty) (Some initialCards))
                  (roomManager srv) with
          | (Some _, rm) =>
              let rm := onState (GameState.set_advanceClients false) roomId rm in
              let rm := onState (GameState.set_dealComplete false) roomId rm in
              mkServer rm (delete roomId (rematchRequests srv))
                (nextRoundTimers srv)
          | (None, rm) => set_roomManager rm srv
          end
        else srv
    end.

(** ['setPresence'] *)
Definition onSetPresence (socket roomId status : string) (srv : Server)
    : Server :=
  if decide (roomId = EmptyString ∨ status = EmptyString) then srv
  else if decide (status = "left") then
    set_roomManager (snd (leaveRoomBySocket socket (roomManager srv))) srv
  else
    set_roomManager (snd (setPlayerStatus roomId socket status (roomManager srv)))
      srv.

(** ['setRoomOptions'] *)
Definition onSetRoomOptions (socket roomId : string) (payload : Payload.t)
    (srv : Server) : Server :=
  if decide (roomId = EmptyString) then srv
  else
    let rm := roomManager srv in
    match getRoom roomId rm with
    | None => srv
    | Some room =>
        match JsMap.get socket (Room.players room) with
        | None => srv
        | Some _ =>
            let difficulty :=
              truthy_str (Payload.difficulty payload)
                ∪ truthy_str (Payload.optionsDifficulty payload) in
            let initialCards := pickNumber (Payload.counts payload) in
            let room :=
              match difficulty with
              | Some d => Room.set_difficulty (Some d) room
              | None => room
              end in
            let room :=
              match initialCards with
              | Some n => Room.set_initialCards (Some n) room
              | None => room
              end in
            let room :=
              Room.set_options
                (Some (Room.difficulty room, Room.initialCards room)) room in
            set_roomManager (set_rooms (JsMap.set roomId room (rooms rm)) rm) srv
        end
    end.

(** ['startGame'] *)
Definition onStartGame (rand : nat → nat) (socket roomId : string)
    (payload : Payload.t) (srv : Server) : Server :=
  if decide (roomId = EmptyString) then srv
  else
    let rm := roomManager srv in
    match getRoom roomId rm with
    | None => srv
    | Some room =>
        match JsMap.get socket (Room.players room) with
        | None => srv
        | Some player =>
            if decide (Player.playerNumber player ≠ 1) then srv
            else
              let difficulty :=
                default "easy"
                  (truthy_str (Payload.difficulty payload)
                     ∪ truthy_str (Payload.optionsDifficulty payload)
                     ∪ truthy_str (Room.difficulty room)) in
              let initialCards :=
                pickNumber (Payload.counts payload)
                  ∪ truthy_num (Room.initialCards room) in
              if decide (JsMap.size (Room.players room) < 2)%nat then srv
              else
                match initGameState rand roomId
                        (Options.mk (Some difficulty) initialCards) rm with
                | (Some _, rm) =>
                    let rm :=
                      onState (GameState.set_advanceClients false) roomId rm in
                    let rm :=
                      onState (GameState.set_dealComplete false) roomId rm in
                    set_roomManager rm srv
                | (None, rm) => set_roomManager rm srv
                end
        end
    end.

(** ['leaveRoom'] *)
Definition onLeaveRoom (socket : string) (srv : Server) : Server :=
  set_roomManager (snd (leaveRoomBySocket socket (roomManager srv))) srv.

(** ['disconnect']: every branch taken after a successful leave ends in
    [clearAutoNextRound(left.roomId)]. *)
Definition onDisconnect (socket : string) (srv : Server) : Server :=
  match leaveRoomBySocket socket (roomManager srv) with
  | (Some res, rm) =>
      clearAutoNextRound (Left.roomId res) (set_roomManager rm srv)
  | (None, rm) => set_roomManager rm srv
  end.

(** The [setInterval] sweep. *)
Definition onGarbageCollect (now : Z) (srv : Server) : Server :=
  let '(removed, rm) := garbageCollectRooms now (roomManager srv) in
  foldl (fun srv rid => clearAutoNextRound rid srv) (set_roomManager rm srv)
    removed.

(** Everything that makes the server run: the socket events with their
    payloads and random draws, the firing of a pending auto-advance timer,
    and the sweep. *)
Inductive Event :=
| EvCreateRoom (socket roomId playerId roomName : string) (now : Z)
| EvJoinRoom (socket roomId playerId : string) (now : Z)
| EvCardSelected (draws : list (nat * bool)) (picks : list nat)
    (roomId : string) (playerNumber : Z) (cardId : string)
| EvAnswerSubmitted (now : Z) (roomId : string) (playerNumber : Z) (answer : Z)
| EvNextRound (roomId : string)
| EvResetGame (rand : nat → nat) (roomId : string)
| EvRequestRematch (rand : nat → nat) (roomId : string) (playerNumber : Z)
| EvSetPresence (socket roomId status : string)
| EvSetRoomOptions (socket roomId : string) (payload : Payload.t)
| EvStartGame (rand : nat → nat) (socket roomId : string) (payload : Payload.t)
| EvLeaveRoom (socket : string)
| EvDisconnect (socket : string)
| EvTimer (roomId : string)
| EvGarbageCollect (now : Z).

(** One event, run to completion.  A timer that is not pending (never set,
    fired, or cancelled) does nothing.  [None] only when the option loop of a
    card selection has not finished on its draws. *)
Definition handle (ev : Event) (srv : Server) : option Server :=
  match ev with
  | EvCreateRoom socket roomId playerId roomName now =>
      Some (onCreateRoom socket roomId playerId roomName now srv)
  | EvJoinRoom socket roomId playerId now =>
      Some (onJoinRoom socket roomId playerId now srv)
  | EvCardSelected draws picks roomId playerNumber cardId =>
      onCardSelected draws picks roomId playerNumber cardId srv
  | EvAnswerSubmitted now roomId playerNumber answer =>
      Some (onAnswerSubmitted now roomId playerNumber answer srv)
  | EvNextRound roomId => Some (onNextRound roomId srv)
  | EvResetGame rand roomId => Some (onResetGame rand roomId srv)
  | EvRequestRematch rand roomId playerNumber =>
      Some (onRequestRematch rand roomId playerNumber srv)
  | EvSetPresence socket roomId status =>
      Some (onSetPresence socket roomId status srv)
  | EvSetRoomOptions socket roomId payload =>
      Some (onSetRoomOptions socket roomId payload srv)
  | EvStartGame rand socket roomId payload =>
      Some (onStartGame rand socket roomId payload srv)
  | EvLeaveRoom socket => Some (onLeaveRoom socket srv)
  | EvDisconnect socket => Some (onDisconnect socket srv)
  | EvTimer roomId =>
      if decide (roomId ∈ nextRoundTimers srv)
      then Some (autoNextRound roomId srv) else Some srv
  | EvGarbageCollect now => Some (onGarbageCollect now srv)
  end.

(** A run of events from a server state. *)
Fixpoint run (evs : list Event) (srv : Server) : option Server :=
  match evs with
  | [] => Some srv
  | ev :: evs' => srv' ← handle ev srv; run evs' srv'
  end.

(** The states the server can be in. *)
Inductive reachable : Server → Prop :=
| reachable_new : reachable newServer
| reachable_step ev srv srv' :
    reachable srv → handle ev srv = Some srv' → reachable srv'.

(** * Invariants *)

(** What holds of every room the registry keeps: it has one or two members,
    it carries no [lastEmptyAt] stamp, and every member's number is 1 or 2. *)
Definition room_ok (room : Room.t) : Prop :=
  (1 ≤ JsMap.size (Room.players room) ≤ 2)%nat
  ∧ Room.lastEmptyAt room = None
  ∧ Forall (λ e, Player.playerNumber e.2 = 1 ∨ Player.playerNumber e.2 = 2)
      (Room.players room).

(** The room table: every room it keeps is as above. *)
Definition rooms_ok (rs : list (string * Room.t)) : Prop :=
  Forall (λ e, room_ok e.2) rs.

(** The part of a game state the round machine relies on: card ids are
    unique over both hands, every value is between 2 and 12, and a selected
    card is a card of the selecting player's hand. *)
Definition state_ok (st : GameState.t) : Prop :=
  NoDup (Card.id <$> (GameState.player1Hand st ++ GameState.player2Hand st))
  ∧ Forall (λ c : Card.t, (2 ≤ Card.value c ≤ 12)%Z)
      (GameState.player1Hand st ++ GameState.player2Hand st)
  ∧ (∀ c, GameState.player1SelectedCard st = Some c →
          c ∈ GameState.player1Hand st)
  ∧ (∀ c, GameState.player2SelectedCard st = Some c →
          c ∈ GameState.player2Hand st).

(** The table of game states: every state it keeps is as above. *)
Definition states_ok (m : gmap string GameState.t) : Prop :=
  map_Forall (λ _ st, state_ok st) m.

(** [state_ok] reads four fields only. *)
Definition cardFields (st : GameState.t) :=
  (GameState.player1Hand st, GameState.player2Hand st,
   GameState.player1SelectedCard st, GameState.player2SelectedCard st).

(** The invariant of the manager and of the server. *)
Definition rm_ok (rm : RoomManager) : Prop :=
  rooms_ok (rooms rm) ∧ states_ok (gameStates rm).

Definition srv_ok (srv : Server) : Prop := rm_ok (roomManager srv).

(** * Conditions used in the statements *)

(** The draws bring enough values: with the correct answer, the wrong answers
    they make are at least four distinct numbers. *)
Definition enoughDraws (c : Z) (draws : list (nat * bool)) : Prop :=
  (4 ≤ size (list_to_set (c :: (wrongAnswer c <$> draws)) : gset Z))%nat.

(** The selections a call [playerSelectCard(roomId, p, {id: cardId})] leaves
    in the state: the caller's is looked up in the caller's hand, the other
    one is kept. *)
Definition selectionsAfter (p : Z) (cardId : string) (st : GameState.t)
    : option Card.t * option Card.t :=
  if decide (p = 1)
  then (findCard cardId (GameState.player1Hand st),
        GameState.player2SelectedCard st)
  else (GameState.player1SelectedCard st,
        findCard cardId (GameState.player2Hand st)).

(** * Scenarios *)

(** A game with one card per hand, up to the point where the round is solved
    and the automatic advance is pending: create, join, start on the [test]
    difficulty, both selections, player 2 answers 12. *)
Definition solvedRoundEvents : list Event :=
  [ EvCreateRoom "s1" "R" "p1" "happy-fox" 0;
    EvJoinRoom "s2" "R" "p2" 1;
    EvStartGame (λ _, 0%nat) "s1" "R" (Payload.mk (Some "test") None []);
    EvCardSelected [] [] "R" 1 "hearts-3-1";
    EvCardSelected [(0, true); (1, true); (2, false)]%nat [2; 0; 1]%nat
      "R" 2 "hearts-4-2";
    EvAnswerSubmitted 5 "R" 2 12 ].

(** The server after those events. *)
Definition solvedRound : Server :=
  default newServer (run solvedRoundEvents newServer).

(** The same game before the answer. *)
Definition openRound : Server :=
  default newServer (run (take 5 solvedRoundEvents) newServer).

(** Player 2 then leaves through ['leaveRoom'], which does not touch the
    timer: the room is still transitioning, with one member. *)
Definition solvedRoundAfterLeave : Server :=
  default newServer
    (run (solvedRoundEvents ++ [EvLeaveRoom "s2"]) newServer).

(** The same game with the two players still in the lobby, and with only
    the selection of player 1 made. *)
Definition lobby : Server :=
  default newServer (run (take 2 solvedRoundEvents) newServer).

Definition oneSelected : Server :=
  default newServer (run (take 4 solvedRoundEvents) newServer).

(** The creator leaves a room of two and a third connection joins. *)
Definition creatorLeftEvents : list Event :=
  [ EvCreateRoom "s1" "R" "p1" "happy-fox" 0;
    EvJoinRoom "s2" "R" "p2" 1;
    EvLeaveRoom "s1";
    EvJoinRoom "s3" "R" "p3" 2 ].

(** Player 1 asks for a rematch and then starts a game instead. *)
Definition staleRematchEvents : list Event :=
  [ EvCreateRoom "s1" "R" "p1" "happy-fox" 0;
    EvJoinRoom "s2" "R" "p2" 1;
    EvStartGame (λ _, 0%nat) "s1" "R" (Payload.mk (Some "test") None []);
    EvRequestRematch (λ _, 0%nat) "R" 1;
    EvStartGame (λ _, 1%nat) "s1" "R" (Payload.mk (Some "easy") None [Some 3]) ].

(** The state and the room of [R] in a scenario; the blank ones stand in
    when there is none. *)
Definition blankState : GameState.t :=
  GameState.mk EmptyString 0 [] [] None None ∅ false false 0 0 None [] 0 false None
    false None false 0%nat false [] false false.

Definition blankRoom : Room.t :=
  Room.mk EmptyString EmptyString [] 0 0 None None None None false.

Definition stateOf (srv : Server) : GameState.t :=
  default blankState (gameStates (roomManager srv) !! "R").

Definition roomOf (srv : Server) : Room.t :=
  default blankRoom (getRoom "R" (roomManager srv)).

(** * More of the manager *)

(** [getGameState(roomId)] *)
Definition getGameState (roomId : string) (rm : RoomManager)
    : option GameState.t :=
  gameStates rm !! roomId.

(** ** [generateRoomName()] *)

Definition adjectives : list string :=
  ["happy"; "tiny"; "quick"; "brave"; "silly"; "bright"; "bouncy"; "jolly";
   "clever"; "merry"; "gentle"; "neon"; "sparkly"; "lucky"; "mighty"].
Definition animals : list string :=
  ["bunny"; "fox"; "panda"; "otter"; "koala"; "puppy"; "kitten"; "owl";
   "dolphin"; "penguin"].
Definition nature : list string :=
  ["star"; "pond"; "cloud"; "meadow"; "river"; "mountain"; "valley";
   "garden"; "grove"; "tree"].
Definition space : list string :=
  ["rocket"; "comet"; "orbit"; "cosmo"; "galaxy"; "meteor"; "asteroid";
   "nebula"; "luna"; "sol"].
Definition fruits : list string :=
  ["apple"; "berry"; "peach"; "mango"; "melon"; "kiwi"; "pear"; "plum";
   "grape"; "cherry"].
Definition pools : list (list string) := [animals; nature; space; fruits].

(** The random numbers of one attempt, in the order the loop body draws
    them; [pool2] and [noun2] are drawn only when [multi] holds, which is the
    outcome of [Math.random() < 0.3]. *)
Module NameDraw.
Record t := mk
  { adj : nat; pool : nat; noun : nat; multi : bool; pool2 : nat; noun2 : nat }.
End NameDraw.

(** [arr[Math.floor(Math.random() * arr.length)]] *)
Definition pickFrom {A} (d : A) (r : nat) (arr : list A) : A :=
  default d (arr !! random_below r (length arr)).

(** The name one attempt proposes. *)
Definition candidateName (d : NameDraw.t) : string :=
  let adj := pickFrom EmptyString (NameDraw.adj d) adjectives in
  let pool := pickFrom [] (NameDraw.pool d) pools in
  let n1 := pickFrom EmptyString (NameDraw.noun d) pool in
  if NameDraw.multi d then
    let pool2 := pickFrom [] (NameDraw.pool2 d) pools in
    let n2 := pickFrom EmptyString (NameDraw.noun2 d) pool2 in
    adj +:+ " " +:+ n1 +:+ "-" +:+ n2
  else adj +:+ "-" +:+ n1.

(** [for (const [, r] of this.rooms.entries()) if (r.name === name) ...] *)
Definition nameCollides (name : string) (rm : RoomManager) : bool :=
  bool_decide (Exists (λ e, Room.name e.2 = name) (rooms rm)).

(** The loop [for (let i = 0; i < 12; i++)], entered at [i] with [n]
    iterations left; [draws i] are the random numbers of iteration [i] and
    [fallback] is the name returned after the loop. *)
Fixpoint tryNames (draws : nat → NameDraw.t) (fallback : string)
    (rm : RoomManager) (n i : nat) : string :=
  match n with
  | O => fallback
  | S n' =>
      let name := candidateName (draws i) in
      if nameCollides name rm then tryNames draws fallback rm n' (S i)
      else name
  end.

(** [generateRoomName()]; [suffix] is the value of
    [Math.random().toString(36).substring(2,5)]. *)
Definition generateRoomName (draws : nat → NameDraw.t) (suffix : string)
    (rm : RoomManager) : string :=
  tryNames draws ("fun-" +:+ suffix) rm 12 0.

(** ** [listRooms()] *)

Module RoomSummary.
Record t := mk
  { roomId : string;
    name : option string;
    players : nat;
    playersPresent : list Z;
    playersStatus : list (Z * string);
    lastEmptyAt : option Z;
    difficulty : string;
    initialCards : option Z;
    options : option string * option Z }.
End RoomSummary.

(** One [out.push({ ... })]. *)
Definition summarize (entry : string * Room.t) : RoomSummary.t :=
  let '(roomId, room) := entry in
  let present :=
    omap (λ e, if decide (Player.playerNumber e.2 = 0) then None
               else Some (Player.playerNumber e.2)) (Room.players room) in
  let statuses :=
    (λ e, (Player.playerNumber e.2,
           default "lobby" (truthy_str (Some (Player.status e.2)))))
      <$> Room.players room in
  let difficulty := default "easy" (truthy_str (Room.difficulty room)) in
  let initialCards := truthy_num (Room.initialCards room) in
  RoomSummary.mk roomId (truthy_str (Some (Room.name room)))
    (JsMap.size (Room.players room)) present statuses
    (truthy_num (Room.lastEmptyAt room)) difficulty initialCards
    (default (Some difficulty, initialCards) (Room.options room)).

Definition listRooms (rm : RoomManager) : list RoomSummary.t :=
  summarize <$> rooms rm.

(** The admin endpoint's [emptyRooms]: the summaries whose
    [playersPresent] is empty. *)
Definition emptyRooms (rm : RoomManager) : nat :=
  length (filter (λ s, length (RoomSummary.playersPresent s) = 0%nat)
            (listRooms rm)).

(** * Further invariants and conditions *)

(** The scores are the tallies of the history: player 1 has one point per
    entry solved by 1, player 2 one point per entry solved by any other
    number. *)
Definition tally_ok (st : GameState.t) : Prop :=
  GameState.player1Score st
    = Z.of_nat (length (filter (λ e, HistoryEntry.solvedBy e = Some 1)
                          (GameState.history st)))
  ∧ GameState.player2Score st
    = Z.of_nat (length (filter (λ e, is_Some (HistoryEntry.solvedBy e)
                                     ∧ HistoryEntry.solvedBy e ≠ Some 1)
                          (GameState.history st))).

(** A round in progress has a problem whose operands are card values, the
    stored answer is their product, and the options are four distinct
    positive numbers with the answer among them; a solved round is a round
    in progress. *)
Definition round_ok (st : GameState.t) : Prop :=
  (GameState.problemSolved st = true → GameState.roundInProgress st = true)
  ∧ (GameState.roundInProgress st = true →
     ∃ a b, GameState.currentProblem st = Some (a, b)
            ∧ 2 ≤ a ≤ 12 ∧ 2 ≤ b ≤ 12
            ∧ GameState.correctAnswer st = a * b
            ∧ length (GameState.answerOptions st) = 4%nat
            ∧ NoDup (GameState.answerOptions st)
            ∧ GameState.correctAnswer st ∈ GameState.answerOptions st
            ∧ Forall (λ w, 1 ≤ w) (GameState.answerOptions st)).

(** Every history entry records both operands and their product. *)
Definition history_ok (st : GameState.t) : Prop :=
  Forall (λ e, ∃ a b, HistoryEntry.a e = Some a ∧ HistoryEntry.b e = Some b
                      ∧ HistoryEntry.correctAnswer e = a * b)
    (GameState.history st).

(** A hand is empty and no round is open. *)
Definition gameEnded (st : GameState.t) : Prop :=
  (GameState.player1Hand st = [] ∨ GameState.player2Hand st = [])
  ∧ GameState.roundInProgress st = false.

(** The winner the scores decide. *)
Definition winnerByScore (st : GameState.t) : option string :=
  if decide (GameState.player1Score st > GameState.player2Score st)
  then Some "player1"
  else if decide (GameState.player2Score st > GameState.player1Score st)
  then Some "player2"
  else None.

(** A game marked over has ended and its winner is the one the scores
    decide; a game not marked over has no winner. *)
Definition over_ok (st : GameState.t) : Prop :=
  (GameState.gameOver st = true →
   gameEnded st ∧ GameState.winner st = winnerByScore st)
  ∧ (GameState.gameOver st = false → GameState.winner st = None).

Definition play_ok (st : GameState.t) : Prop :=
  state_ok st ∧ tally_ok st ∧ round_ok st ∧ history_ok st ∧ over_ok st.

(** A room that is transitioning has its timer pending. *)
Definition locked_has_timer (srv : Server) : Prop :=
  ∀ rid room,
    getRoom rid (roomManager srv) = Some room →
    Room.transitioning room = true → rid ∈ nextRoundTimers srv.

(** The condition of the sweep on one room. *)
Definition expired (now ttl : Z) (room : Room.t) : bool :=
  bool_decide (JsMap.size (Room.players room) = 0%nat)
  && match truthy_num (Room.lastEmptyAt room) with
     | Some lastEmptyAt => bool_decide (now - lastEmptyAt > ttl)
     | None => false
     end.

(** The fields [play_ok] reads. *)
Definition playFields (st : GameState.t) :=
  (cardFields st, GameState.player1Score st, GameState.player2Score st,
   GameState.history st, GameState.problemSolved st,
   GameState.roundInProgress st, GameState.currentProblem st,
   GameState.correctAnswer st, GameState.answerOptions st,
   GameState.gameOver st, GameState.winner st).

(** The table of game states: every state it keeps satisfies [play_ok]. *)
Definition plays_ok (m : gmap string GameState.t) : Prop :=
  map_Forall (λ _ st, play_ok st) m.

(** How a method may change the room table: the keys stay distinct, and a
    room that is transitioning afterwards was so before. *)
Definition rooms_kept (rs rs' : list (string * Room.t)) : Prop :=
  NoDup rs.*1 →
  NoDup rs'.*1
  ∧ ∀ rid room',
      JsMap.get rid rs' = Some room' → Room.transitioning room' = true →
      ∃ room, JsMap.get rid rs = Some room ∧ Room.transitioning room = true.

(** The keys of the room table are distinct, and a room that is
    transitioning has its timer pending. *)
Definition locks_ok (srv : Server) : Prop :=
  NoDup (rooms (roomManager srv)).*1 ∧ locked_has_timer srv.

(** A noun of one of the four pools. *)
Definition isNoun (n : string) : Prop := ∃ pool, pool ∈ pools ∧ n ∈ pool.

(** The game of [solvedRoundEvents] after the advance: each player had one
    card, so both hands are empty. *)
Definition finishedGame : Server :=
  default newServer (run (solvedRoundEvents ++ [EvNextRound "R"]) newServer).

(** A registry as the sweep expects to find it: one room without members
    whose [lastEmptyAt] stamp is old, one whose stamp is recent, and one
    with a member. *)
Definition staleRegistry : RoomManager :=
  mkRoomManager
    [ ("OLD", Room.mk "OLD" "tiny-owl" [] 0 0 (Some 5) None None None false);
      ("NEW", Room.mk "NEW" "neon-fox" [] 0 0 (Some 650000) None None None
                false);
      ("R", Room.mk "R" "happy-fox" [("s1", Player.mk "p1" 1 "s1" "lobby")]
              0 0 None None None None false) ]
    ∅ 600000.

(** * What the model leaves out of JavaScript *)

(** The own property names of [Object.prototype], which every object
    literal inherits: a lookup [difficultyDefaults[name]] of one of them in
    the source finds the inherited function or object, not [undefined].
    [difficultyDefaults] above is the table on every other name. *)
Definition Object_prototype_keys : list string :=
  ["constructor"; "__defineGetter__"; "__defineSetter__"; "hasOwnProperty";
   "__lookupGetter__"; "__lookupSetter__"; "isPrototypeOf";
   "propertyIsEnumerable"; "toString"; "valueOf"; "__proto__";
   "toLocaleString"].

(** The correct answers for which the sums [c ± offset], offset up to 20,
    are exact in double precision: every integer from [c - 20] to [c + 20]
    lies within [± 2^53].  On these [wrongAnswer] is what the source
    computes. *)
Definition exactAnswer (c : Z) : Prop := - 2 ^ 53 ≤ c - 20 ∧ c + 20 ≤ 2 ^ 53.

(** [pickNumber] on arbitrary arguments.  An argument is a finite number, an
    infinity, [NaN], or a value whose [typeof] is not ['number'] ([undefined]
    for a missing payload field, [null], a string, an object). *)
Module Js.
Inductive value :=
| number (x : Qcanon.Qc)
| infinity (positive : bool)
| nan
| other.

(** [typeof v === 'number' && Number.isFinite(v) && v > 0] picks [v]. *)
Fixpoint pickNumber (vals : list value) : option Qcanon.Qc :=
  match vals with
  | [] => None
  | number x :: vals' =>
      if decide (Qcanon.Qclt (Qc_of_Z 0) x) then Some x else pickNumber vals'
  | _ :: vals' => pickNumber vals'
  end.

(** A payload field that is missing or holds an integer. *)
Definition of_count (o : option Z) : value :=
  match o with
  | Some z => number (Qc_of_Z z)
  | None => other
  end.
End Js.

(** * A late request *)

(** A game with two cards per hand, up to the point where its first round is
    solved and the automatic advance is pending. *)
Definition twoCardRoundEvents : list Event :=
  [ EvCreateRoom "s1" "R" "p1" "happy-fox" 0;
    EvJoinRoom "s2" "R" "p2" 1;
    EvStartGame (λ _, 0%nat) "s1" "R" (Payload.mk (Some "easy") None [Some 2]);
    EvCardSelected [] [] "R" 1 "hearts-3-1";
    EvCardSelected [(0, true); (1, true); (2, false)]%nat [2; 0; 1]%nat
      "R" 2 "hearts-5-3";
    EvAnswerSubmitted 5 "R" 2 15 ].

Definition twoCardRound : Server :=
  default newServer (run twoCardRoundEvents newServer).

(** The timer fires, player 2 selects the card it has left, and only then
    the request for the next round, sent for the round already advanced,
    arrives. *)
Definition lateRequestEvents : list Event :=
  [ EvTimer "R"; EvCardSelected [] [] "R" 2 "hearts-6-4"; EvNextRound "R" ].

(** * Between the two triggers *)

(** The event is a card selection for the room. *)
Definition selectsIn (roomId : string) (ev : Event) : Prop :=
  match ev with
  | EvCardSelected _ _ r _ _ => r = roomId
  | _ => False
  end.

(** The two hands of the room's game, if it has one. *)
Definition handsOf (roomId : string) (srv : Server)
    : option (list Card.t * list Card.t) :=
  (λ st, (GameState.player1Hand st, GameState.player2Hand st))
    <$> gameStates (roomManager srv) !! roomId.

(** No card is selected and no round is open. *)
Definition calm (st : GameState.t) : Prop :=
  GameState.player1SelectedCard st = None
  ∧ GameState.player2SelectedCard st = None
  ∧ GameState.roundInProgress st = false.

(** The room has no timer pending and its game, if it has one, is calm. *)
Definition settled (roomId : string) (srv : Server) : Prop :=
  (roomId ∉ nextRoundTimers srv)
  ∧ ∀ st, gameStates (roomManager srv) !! roomId = Some st → calm st.

(** * Proof automation *)

(** Evaluates chains of field assignments, innermost first. *)
Ltac gs_norm :=
  cbv beta iota delta
    [GameState.difficulty GameState.initialCards GameState.player1Hand
     GameState.player2Hand GameState.player1SelectedCard
     GameState.player2SelectedCard GameState.submittedAnswers
     GameState.player1Answered GameState.player2Answered
     GameState.player1Score GameState.player2Score GameState.currentProblem
     GameState.answerOptions GameState.correctAnswer GameState.gameOver
     GameState.winner GameState.problemSolved GameState.solvedBy
     GameState.roundInProgress GameState.playersConnected
     GameState.revealEquation GameState.history GameState.dealComplete
     GameState.advanceClients GameState.set_player1Hand
     GameState.set_player2Hand GameState.set_player1SelectedCard
     GameState.set_player2SelectedCard GameState.set_submittedAnswers
     GameState.set_player1Answered GameState.set_player2Answered
     GameState.set_player1Score GameState.set_player2Score
     GameState.set_currentProblem GameState.set_answerOptions
     GameState.set_correctAnswer GameState.set_gameOver GameState.set_winner
     GameState.set_problemSolved GameState.set_solvedBy
     GameState.set_roundInProgress GameState.set_playersConnected
     GameState.set_revealEquation GameState.set_history
     GameState.set_dealComplete GameState.set_advanceClients].

(** * Properties *)

(** ** Answer submission *)

Section submit.
Variables (rm : RoomManager) (roomId : string) (st : GameState.t).
Hypothesis Hstate : gameStates rm !! roomId = Some st.

Lemma store_lookup (s : GameState.t) :
  gameStates (store roomId s rm) !! roomId = Some s.
Proof. unfold store. simpl. apply lookup_insert_eq. Qed.

Lemma store_connectedCount (s : GameState.t) :
  connectedCount roomId (store roomId s rm) = connectedCount roomId rm.
Proof. reflexivity. Qed.

(** The guard: a submission is turned away exactly when no round is in
    progress or the round is already solved, whoever submits; the only field
    it touches then is [playersConnected]. *)
Lemma submit_guard (now p answer : Z) :
  GameState.roundInProgress st = false ∨ GameState.problemSolved st = true →
  playerSubmitAnswer now roomId p answer rm =
    (SubmitRejected
       (GameState.set_playersConnected (connectedCount roomId rm) st),
     store roomId
       (GameState.set_playersConnected (connectedCount roomId rm) st) rm).
Proof.
  intros Hg. unfold playerSubmitAnswer. rewrite Hstate. simpl.
  destruct Hg as [-> | ->]; [reflexivity|].
  by rewrite orb_true_r.
Qed.

Lemma submit_accepts (now p answer : Z) :
  GameState.roundInProgress st = true →
  GameState.problemSolved st = false →
  ∃ st', playerSubmitAnswer now roomId p answer rm =
           (SubmitAccepted st' (bool_decide (answer = GameState.correctAnswer st)),
            store roomId st' rm)
         ∧ GameState.submittedAnswers st' =
             <[p := Some answer]> (GameState.submittedAnswers st).
Proof.
  intros Hr Hs. unfold playerSubmitAnswer. rewrite Hstate. simpl.
  rewrite Hr, Hs. simpl.
  repeat (case_bool_decide || case_decide || case_match); simpl;
    eexists; split; try reflexivity; simpl; reflexivity.
Qed.

(** A correct answer: the point, the solver, the history entry. *)
Lemma submit_correct (now p : Z) :
  GameState.roundInProgress st = true →
  GameState.problemSolved st = false →
  p = 1 ∨ p = 2 →
  ∃ st',
    playerSubmitAnswer now roomId p (GameState.correctAnswer st) rm
      = (SubmitAccepted st' true, store roomId st' rm)
    ∧ GameState.player1Score st'
        = GameState.player1Score st + (if decide (p = 1) then 1 else 0)
    ∧ GameState.player2Score st'
        = GameState.player2Score st + (if decide (p = 2) then 1 else 0)
    ∧ GameState.problemSolved st' = true
    ∧ GameState.solvedBy st' = Some p
    ∧ GameState.history st'
        = GameState.history st
            ++ [HistoryEntry.mk (fst <$> GameState.currentProblem st)
                  (snd <$> GameState.currentProblem st)
                  (GameState.correctAnswer st) (Some p) now].
Proof.
  intros Hr Hs Hp.
  unfold playerSubmitAnswer. rewrite Hstate. simpl. rewrite Hr, Hs. simpl.
  rewrite bool_decide_eq_true_2 by reflexivity.
  destruct Hp as [-> | ->]; simpl; eexists; (split; [reflexivity|]); simpl;
    repeat split; lia.
Qed.

(** A wrong answer while the other player has not answered: the round stays
    open and only the answered flag and the recorded answer change. *)
Lemma submit_wrong_waits (now p x : Z) :
  GameState.roundInProgress st = true →
  GameState.problemSolved st = false →
  p = 1 ∨ p = 2 →
  x ≠ GameState.correctAnswer st →
  (if decide (p = 1) then GameState.player2Answered st
   else GameState.player1Answered st) = false →
  ∃ st1,
    playerSubmitAnswer now roomId p x rm
      = (SubmitAccepted st1 false, store roomId st1 rm)
    ∧ GameState.roundInProgress st1 = true
    ∧ GameState.problemSolved st1 = false
    ∧ GameState.correctAnswer st1 = GameState.correctAnswer st
    ∧ GameState.player1Score st1 = GameState.player1Score st
    ∧ GameState.player2Score st1 = GameState.player2Score st
    ∧ GameState.submittedAnswers st1 !! p = Some (Some x)
    ∧ (if decide (p = 1) then GameState.player1Answered st1
       else GameState.player2Answered st1) = true.
Proof.
  intros Hr Hs Hp Hx Ho.
  unfold playerSubmitAnswer. rewrite Hstate. simpl. rewrite Hr, Hs. simpl.
  rewrite (bool_decide_eq_false_2 _ Hx).
  destruct Hp as [-> | ->]; simpl in *; rewrite Ho;
    eexists; (split; [reflexivity|]); simpl;
    repeat split; try done; apply lookup_insert_eq.
Qed.
End submit.

(** C1. In a room whose round is in progress and unsolved, player [p]
    submitting the stored correct answer gains exactly one point (the other
    score is unchanged), the round becomes solved with [p] as solver and one
    history entry is appended.  If instead the two players both submit wrong
    answers, in either order, the round ends solved with a null solver and
    both scores are what they were. *)
Theorem submit_correct_awards_point_both_wrong_no_solver
    (rm : RoomManager) (roomId : string) (st : GameState.t) (p now : Z) :
  gameStates rm !! roomId = Some st →
  GameState.roundInProgress st = true →
  GameState.problemSolved st = false →
  p = 1 ∨ p = 2 →
  (∃ st',
      playerSubmitAnswer now roomId p (GameState.correctAnswer st) rm
        = (SubmitAccepted st' true, store roomId st' rm)
      ∧ GameState.player1Score st'
          = GameState.player1Score st + (if decide (p = 1) then 1 else 0)
      ∧ GameState.player2Score st'
          = GameState.player2Score st + (if decide (p = 2) then 1 else 0)
      ∧ GameState.problemSolved st' = true
      ∧ GameState.solvedBy st' = Some p
      ∧ GameState.history st'
          = GameState.history st
              ++ [HistoryEntry.mk (fst <$> GameState.currentProblem st)
                    (snd <$> GameState.currentProblem st)
                    (GameState.correctAnswer st) (Some p) now])
  ∧ (∀ x y now',
        x ≠ GameState.correctAnswer st →
        y ≠ GameState.correctAnswer st →
        let rm1 := snd (playerSubmitAnswer now roomId p x rm) in
        let rm2 := snd (playerSubmitAnswer now' roomId (3 - p) y rm1) in
        ∃ st2 t,
          gameStates rm2 !! roomId = Some st2
          ∧ GameState.problemSolved st2 = true
          ∧ GameState.solvedBy st2 = None
          ∧ GameState.player1Score st2 = GameState.player1Score st
          ∧ GameState.player2Score st2 = GameState.player2Score st
          ∧ GameState.history st2
              = GameState.history st
                  ++ [HistoryEntry.mk (fst <$> GameState.currentProblem st)
                        (snd <$> GameState.currentProblem st)
                        (GameState.correctAnswer st) None t]).
Proof.
  intros Hst Hr Hs Hp. split.
  - exact (submit_correct rm roomId st Hst now p Hr Hs Hp).
  - intros x y now' Hx Hy rm1 rm2. subst rm1 rm2.
    unfold playerSubmitAnswer at 2. rewrite Hst. simpl. rewrite Hr, Hs. simpl.
    rewrite (bool_decide_eq_false_2 _ Hx).
    destruct Hp as [-> | ->]; simpl.
    + destruct (GameState.player2Answered st) eqn:Ho; simpl.
      * unfold playerSubmitAnswer. simpl. rewrite lookup_insert_eq. simpl.
        rewrite orb_true_r. simpl. rewrite lookup_insert_eq.
        eexists _, now. repeat split.
      * unfold playerSubmitAnswer. simpl. rewrite lookup_insert_eq. simpl.
        rewrite Hr, Hs. simpl. rewrite (bool_decide_eq_false_2 _ Hy). simpl.
        rewrite lookup_insert_eq. eexists _, now'. repeat split.
    + destruct (GameState.player1Answered st) eqn:Ho; simpl.
      * unfold playerSubmitAnswer. simpl. rewrite lookup_insert_eq. simpl.
        rewrite orb_true_r. simpl. rewrite lookup_insert_eq.
        eexists _, now. repeat split.
      * unfold playerSubmitAnswer. simpl. rewrite lookup_insert_eq. simpl.
        rewrite Hr, Hs. simpl. rewrite (bool_decide_eq_false_2 _ Hy). simpl.
        rewrite lookup_insert_eq. eexists _, now'. repeat split.
Qed.

(** C10. A player who has already submitted a wrong answer in a round that
    is still open is not locked out: the same player's next submission is
    accepted and replaces the recorded answer, and when it is the correct
    answer it earns the point and makes that player the solver.  The guard
    itself turns a submission away exactly when no round is in progress or
    the round is solved, for whatever player number. *)
Theorem resubmission_is_accepted
    (rm : RoomManager) (roomId : string) (st : GameState.t)
    (p x y now now' : Z) :
  gameStates rm !! roomId = Some st →
  GameState.roundInProgress st = true →
  GameState.problemSolved st = false →
  p = 1 ∨ p = 2 →
  x ≠ GameState.correctAnswer st →
  (if decide (p = 1) then GameState.player2Answered st
   else GameState.player1Answered st) = false →
  let rm1 := snd (playerSubmitAnswer now roomId p x rm) in
  (∃ st1 st2,
      gameStates rm1 !! roomId = Some st1
      ∧ GameState.submittedAnswers st1 !! p = Some (Some x)
      ∧ (if decide (p = 1) then GameState.player1Answered st1
         else GameState.player2Answered st1) = true
      ∧ playerSubmitAnswer now' roomId p y rm1
          = (SubmitAccepted st2 (bool_decide (y = GameState.correctAnswer st)),
             store roomId st2 rm1)
      ∧ GameState.submittedAnswers st2 !! p = Some (Some y)
      ∧ (y = GameState.correctAnswer st →
         GameState.player1Score st2
           = GameState.player1Score st + (if decide (p = 1) then 1 else 0)
         ∧ GameState.player2Score st2
           = GameState.player2Score st + (if decide (p = 2) then 1 else 0)
         ∧ GameState.problemSolved st2 = true
         ∧ GameState.solvedBy st2 = Some p))
  ∧ (∀ q a t,
        (∃ s, fst (playerSubmitAnswer t roomId q a rm) = SubmitRejected s)
        ↔ GameState.roundInProgress st = false
          ∨ GameState.problemSolved st = true).
Proof.
  intros Hst Hr Hs Hp Hx Ho rm1. split.
  - destruct (submit_wrong_waits rm roomId st Hst now p x Hr Hs Hp Hx Ho)
      as (st1 & Heq1 & Hr1 & Hs1 & Hc1 & Hp1 & Hp2 & Hsub1 & Hans1).
    subst rm1. rewrite Heq1. simpl.
    pose proof (store_lookup rm roomId st1) as Hst1.
    destruct (submit_accepts _ roomId st1 Hst1 now' p y Hr1 Hs1)
      as (st2 & Heq2 & Hsub2).
    exists st1, st2. rewrite <- Hc1.
    repeat (split; [done|]).
    split; [rewrite Hsub2; apply lookup_insert_eq|].
    intros Hy.
    destruct (submit_correct _ roomId st1 Hst1 now' p Hr1 Hs1 Hp)
      as (st2' & Heq2' & H1 & H2 & H3 & H4 & _).
    rewrite <- Hy, Heq2 in Heq2'. injection Heq2' as -> _.
    rewrite <- Hp1, <- Hp2. done.
  - intros q a t. split.
    + intros [s Hrej]. destruct (GameState.roundInProgress st) eqn:E1;
        [|by left]. destruct (GameState.problemSolved st) eqn:E2; [by right|].
      destruct (submit_accepts rm roomId st Hst t q a E1 E2) as (st' & Heq & _).
      rewrite Heq in Hrej. discriminate.
    + intros Hg. rewrite (submit_guard rm roomId st Hst t q a Hg). eauto.
Qed.

(** ** Facts about the ordered map *)

Section jsmap_facts.
Context {K V : Type} `{EqDecision K}.
Implicit Types (m : list (K * V)) (k : K) (v : V).

Lemma jsmap_get_elem k v m : JsMap.get k m = Some v → (k, v) ∈ m.
Proof.
  induction m as [|[k' v'] m IH]; simpl; [done|].
  case_decide as E.
  - intros [= ->]. subst. apply list_elem_of_here.
  - intros Hg. apply list_elem_of_further. auto.
Qed.

Lemma jsmap_get_set_eq k v m : JsMap.get k (JsMap.set k v m) = Some v.
Proof.
  induction m as [|[k' v'] m IH]; simpl.
  - by rewrite decide_True.
  - case_decide; simpl;
      first [by rewrite decide_True | by rewrite decide_False].
Qed.

Lemma jsmap_get_set_ne k k' v m :
  k ≠ k' → JsMap.get k' (JsMap.set k v m) = JsMap.get k' m.
Proof.
  intros Hne. induction m as [|[k0 v0] m IH]; simpl.
  - by rewrite decide_False.
  - destruct (decide (k = k0)) as [->|]; simpl.
    + by rewrite !decide_False by done.
    + by rewrite IH.
Qed.

Lemma jsmap_get_del_eq k m : JsMap.get k (JsMap.del k m) = None.
Proof.
  induction m as [|[k' v'] m IH]; simpl; [done|].
  case_decide; simpl; [done|]. by rewrite decide_False.
Qed.

Lemma jsmap_set_Forall (P : K * V → Prop) k v m :
  Forall P m → P (k, v) → Forall P (JsMap.set k v m).
Proof.
  intros Hm Hv. induction Hm as [|[k' v'] m Hx Hm IH]; simpl.
  - by constructor.
  - case_decide; constructor; auto.
Qed.

Lemma jsmap_del_Forall (P : K * V → Prop) k m :
  Forall P m → Forall P (JsMap.del k m).
Proof.
  induction 1 as [|[k' v'] m Hx Hm IH]; simpl; [constructor|].
  case_decide; [done|]. by constructor.
Qed.

Lemma jsmap_size_set k v m :
  (1 ≤ JsMap.size (JsMap.set k v m) ≤ S (JsMap.size m))%nat.
Proof.
  unfold JsMap.size. induction m as [|[k' v'] m IH]; simpl; [lia|].
  case_decide; simpl; lia.
Qed.

Lemma jsmap_size_set_has k v m :
  is_Some (JsMap.get k m) → JsMap.size (JsMap.set k v m) = JsMap.size m.
Proof.
  unfold JsMap.size. induction m as [|[k' v'] m IH]; simpl.
  - by intros [? ?].
  - case_decide; simpl; [done|]. intros Hs. by rewrite IH.
Qed.

Lemma jsmap_size_del k m : (JsMap.size (JsMap.del k m) ≤ JsMap.size m)%nat.
Proof.
  unfold JsMap.size. induction m as [|[k' v'] m IH]; simpl; [lia|].
  case_decide; simpl; lia.
Qed.
End jsmap_facts.

Lemma findRoomBySocket_in_elem socketId rs roomId room :
  findRoomBySocket_in socketId rs = Some (roomId, room) →
  (roomId, room) ∈ rs ∧ JsMap.has socketId (Room.players room) = true.
Proof.
  induction rs as [|[rid r] rs IH]; simpl; [done|].
  destruct (JsMap.has socketId (Room.players r)) eqn:E.
  - intros [= -> ->]. split; [apply list_elem_of_here | done].
  - intros Hf. destruct (IH Hf). split; [by apply list_elem_of_further|done].
Qed.

(** ** The invariant of the room table *)

Lemma rooms_ok_get rs roomId room :
  rooms_ok rs → JsMap.get roomId rs = Some room → room_ok room.
Proof.
  intros Hok Hg. apply jsmap_get_elem in Hg.
  unfold rooms_ok in Hok. rewrite Forall_forall in Hok. exact (Hok _ Hg).
Qed.

Lemma rooms_ok_set rs roomId room :
  rooms_ok rs → room_ok room → rooms_ok (JsMap.set roomId room rs).
Proof. intros. by apply jsmap_set_Forall. Qed.

Lemma rooms_ok_del rs roomId : rooms_ok rs → rooms_ok (JsMap.del roomId rs).
Proof. apply jsmap_del_Forall. Qed.

Lemma createRoom_rooms_ok roomId playerId roomName now socketId rm :
  rooms_ok (rooms rm) →
  rooms_ok (rooms (snd (createRoom roomId playerId roomName now socketId rm))).
Proof.
  intros Hok. simpl. apply rooms_ok_set; [done|].
  split; [simpl; lia|]. split; [done|]. simpl.
  constructor; [by left | constructor].
Qed.

Lemma joinRoom_rooms_ok playerId now roomId socketId rm :
  rooms_ok (rooms rm) →
  rooms_ok (rooms (snd (joinRoom playerId now roomId socketId rm))).
Proof.
  intros Hok. unfold joinRoom.
  destruct (JsMap.get roomId (rooms rm)) as [room|] eqn:Hg; [|done].
  case_decide as Hfull; [done|]. simpl.
  destruct (rooms_ok_get _ _ _ Hok Hg) as (Hsz & Hle & Hpn).
  apply rooms_ok_set; [done|]. repeat split; simpl.
  - apply jsmap_size_set.
  - pose proof (jsmap_size_set socketId
      (Player.mk playerId 2 socketId "lobby") (Room.players room)). lia.
  - done.
  - apply jsmap_set_Forall; [done|]. simpl. by right.
Qed.

Lemma leaveRoomBySocket_rooms_ok socketId rm :
  rooms_ok (rooms rm) →
  rooms_ok (rooms (snd (leaveRoomBySocket socketId rm))).
Proof.
  intros Hok. unfold leaveRoomBySocket, findRoomBySocket.
  destruct (findRoomBySocket_in socketId (rooms rm)) as [[roomId room]|] eqn:Hf;
    [|done].
  apply findRoomBySocket_in_elem in Hf as [Hin _].
  unfold rooms_ok in Hok. rewrite Forall_forall in Hok.
  destruct (Hok _ Hin) as (Hsz & Hle & Hpn). simpl in *.
  case_decide as Hrem; simpl.
  - apply rooms_ok_del. by apply Forall_forall.
  - apply rooms_ok_set; [by apply Forall_forall|].
    rewrite Hle. simpl. repeat split; simpl; try done.
    + lia.
    + pose proof (jsmap_size_del socketId (Room.players room)). lia.
    + by apply jsmap_del_Forall.
Qed.

Lemma setPlayerStatus_rooms_ok roomId socketId status rm :
  rooms_ok (rooms rm) →
  rooms_ok (rooms (snd (setPlayerStatus roomId socketId status rm))).
Proof.
  intros Hok. unfold setPlayerStatus.
  destruct (JsMap.get roomId (rooms rm)) as [room|] eqn:Hg; [|done].
  destruct (JsMap.get socketId (Room.players room)) as [p|] eqn:Hp; [|done].
  simpl. destruct (rooms_ok_get _ _ _ Hok Hg) as (Hsz & Hle & Hpn).
  apply rooms_ok_set; [done|]. repeat split; simpl; try done.
  - apply jsmap_size_set.
  - rewrite jsmap_size_set_has by eauto. lia.
  - apply jsmap_set_Forall; [done|]. simpl.
    apply jsmap_get_elem in Hp. rewrite Forall_forall in Hpn.
    exact (Hpn _ Hp).
Qed.

Lemma setTransitioning_rooms_ok v roomId rm :
  rooms_ok (rooms rm) → rooms_ok (rooms (setTransitioning v roomId rm)).
Proof.
  intros Hok. unfold setTransitioning, getRoom.
  destruct (JsMap.get roomId (rooms rm)) as [room|] eqn:Hg; [|done].
  simpl. apply rooms_ok_set; [done|]. exact (rooms_ok_get _ _ _ Hok Hg).
Qed.

Lemma initGameState_rooms_ok rand roomId options rm :
  rooms_ok (rooms rm) →
  rooms_ok (rooms (snd (initGameState rand roomId options rm))).
Proof.
  intros Hok. unfold initGameState.
  destruct (JsMap.get roomId (rooms rm)) as [room|] eqn:Hg; [|done].
  simpl. destruct (rooms_ok_get _ _ _ Hok Hg) as (Hsz & Hle & Hpn).
  apply rooms_ok_set; [done|]. repeat split; simpl; try done.
  - unfold JsMap.size in *. rewrite length_fmap. lia.
  - unfold JsMap.size in *. rewrite length_fmap. lia.
  - rewrite Forall_fmap. eapply Forall_impl; [exact Hpn|].
    intros [k p]. simpl. done.
Qed.

(** ** The deck and the shuffle *)

Lemma swap_Permutation {A} (i j : nat) (l : list A) : swap i j l ≡ₚ l.
Proof.
  unfold swap.
  destruct (l !! i) as [x|] eqn:Hi; [|done].
  destruct (l !! j) as [y|] eqn:Hj; [|done].
  apply Permutation_inj. split; [by rewrite !length_insert|].
  exists (λ k, if decide (k = i) then j else if decide (k = j) then i else k).
  split.
  - intros a b. repeat case_decide; lia.
  - intros k. rewrite !list_lookup_insert, !length_insert.
    pose proof (lookup_lt_Some _ _ _ Hi). pose proof (lookup_lt_Some _ _ _ Hj).
    repeat case_decide; destruct_and?; subst; try lia; congruence.
Qed.

Lemma shuffle_from_Permutation {A} rand (i : nat) (l : list A) :
  shuffle_from rand i l ≡ₚ l.
Proof.
  revert l. induction i as [|i IH]; intros l; simpl; [done|].
  rewrite IH. apply swap_Permutation.
Qed.

Lemma shuffle_Permutation {A} rand (l : list A) : shuffle rand l ≡ₚ l.
Proof. apply shuffle_from_Permutation. Qed.

(** The deck has 44 cards: every pair of one of the four suits and one of the
    values 2..12, each once, suit by suit. *)
Lemma buildDeck_combinations :
  (λ c, (Card.suit c, Card.value c)) <$> buildDeck
  = s ← suits; (λ v, (s, v)) <$> seqZ 2 11.
Proof. reflexivity. Qed.

Lemma buildDeck_length : length buildDeck = 44%nat.
Proof. reflexivity. Qed.

Lemma buildDeck_combinations_NoDup :
  NoDup ((λ c, (Card.suit c, Card.value c)) <$> buildDeck).
Proof. refine (bool_decide_unpack _ _). vm_compute. exact I. Qed.

Lemma buildDeck_ids_NoDup : NoDup (Card.id <$> buildDeck).
Proof. refine (bool_decide_unpack _ _). vm_compute. exact I. Qed.

Lemma buildDeck_values : Forall (λ c : Card.t, (2 ≤ Card.value c ≤ 12)%Z) buildDeck.
Proof. refine (bool_decide_unpack _ _). vm_compute. exact I. Qed.

(** ** The invariant of the game states *)

Lemma state_ok_cardFields st st' :
  cardFields st' = cardFields st → state_ok st → state_ok st'.
Proof.
  unfold cardFields, state_ok. intros [= -> -> -> ->]. done.
Qed.

Lemma states_ok_store roomId st rm :
  states_ok (gameStates rm) → state_ok st →
  states_ok (gameStates (store roomId st rm)).
Proof. intros Hm Hs. simpl. by apply map_Forall_insert_2. Qed.

Lemma states_ok_delete roomId (m : gmap string GameState.t) :
  states_ok m → states_ok (delete roomId m).
Proof. apply map_Forall_delete. Qed.

Lemma findCard_elem cardId hand c :
  findCard cardId hand = Some c → c ∈ hand ∧ Card.id c = cardId.
Proof.
  unfold findCard. intros Hf. apply find_some in Hf as [Hin Hid].
  split; [by apply list_elem_of_In|]. by apply bool_decide_eq_true in Hid.
Qed.

Lemma dealt_state_ok (n : Z) (deck h1 h2 rest rest' : list Card.t) :
  deck ≡ₚ buildDeck →
  splice0 n deck = (h1, rest) →
  splice0 n rest = (h2, rest') →
  NoDup (Card.id <$> (h1 ++ h2))
  ∧ Forall (λ c : Card.t, (2 ≤ Card.value c ≤ 12)%Z) (h1 ++ h2).
Proof.
  unfold splice0. intros Hperm [= <- <-] [= <- <-].
  rewrite take_take_drop.
  set (k := (Z.to_nat n + Z.to_nat n)%nat).
  pose proof buildDeck_ids_NoDup as Hnd. pose proof buildDeck_values as Hv.
  rewrite <- Hperm, <- (take_drop k deck) in Hnd, Hv.
  rewrite fmap_app in Hnd. apply NoDup_app in Hnd as [Hnd _].
  apply Forall_app in Hv as [Hv _]. done.
Qed.

Lemma initGameState_states_ok rand roomId options rm :
  states_ok (gameStates rm) →
  states_ok (gameStates (snd (initGameState rand roomId options rm))).
Proof.
  intros Hok. unfold initGameState.
  destruct (JsMap.get roomId (rooms rm)) as [room|]; [|done].
  simpl. apply map_Forall_insert_2; [|done].
  edestruct (dealt_state_ok) as [Hnd Hv];
    [apply (shuffle_Permutation rand) | reflexivity | reflexivity |].
  split; [exact Hnd|]. split; [exact Hv|]. split; intros c; simpl; done.
Qed.

Lemma playerSelectCard_states_ok draws picks roomId p cardId rm r :
  states_ok (gameStates rm) →
  playerSelectCard draws picks roomId p cardId rm = Some r →
  states_ok (gameStates (snd r)).
Proof.
  intros Hok. unfold playerSelectCard.
  destruct (gameStates rm !! roomId) as [st|] eqn:Hst; [|by intros [= <-]].
  destruct (Hok _ _ Hst) as (Hnd & Hv & H1 & H2).
  destruct (default false _).
  { intros [= <-]. by apply states_ok_store. }
  case_decide as Hp; simpl.
  - destruct (findCard cardId (GameState.player1Hand st)) as [c1|] eqn:Hf;
      [apply findCard_elem in Hf as [Hin _]|];
      [destruct (GameState.player2SelectedCard st) as [c2|] eqn:Hc2|];
      [destruct (buildAnswerOptions _ _ _); simpl| |];
      intros [= <-]; apply states_ok_store; try done;
      (split; [done|]; split; [done|]; simpl; split; intros c; rewrite ?Hc2;
       naive_solver).
  - destruct (findCard cardId (GameState.player2Hand st)) as [c2|] eqn:Hf;
      [apply findCard_elem in Hf as [Hin _]|];
      (destruct (GameState.player1SelectedCard st) as [c1|] eqn:Hc1);
      try (destruct (buildAnswerOptions _ _ _); simpl);
      intros [= <-]; apply states_ok_store; try done;
      (split; [done|]; split; [done|]; simpl; split; intros c; rewrite ?Hc1;
       naive_solver).
Qed.

Lemma playerSubmitAnswer_states_ok now roomId p answer rm :
  states_ok (gameStates rm) →
  states_ok (gameStates (snd (playerSubmitAnswer now roomId p answer rm))).
Proof.
  intros Hok. unfold playerSubmitAnswer.
  destruct (gameStates rm !! roomId) as [st|] eqn:Hst; [|done].
  pose proof (Hok _ _ Hst) as Hs.
  repeat first [case_match | case_decide]; simpl;
    (apply map_Forall_insert_2; [|done]);
    (eapply state_ok_cardFields; [|exact Hs]); reflexivity.
Qed.

Lemma removeSelected_sublist sel hand : removeSelected sel hand ⊆ hand.
Proof.
  destruct sel as [c|]; simpl; [|done].
  intros x Hx. by apply list_elem_of_filter in Hx as [_ ?].
Qed.

Lemma removeSelected_sublist_of sel hand :
  removeSelected sel hand `sublist_of` hand.
Proof. destruct sel as [c|]; simpl; [apply sublist_filter | done]. Qed.

Lemma removeSelected_ok sel1 sel2 (h1 h2 : list Card.t) :
  NoDup (Card.id <$> (h1 ++ h2)) →
  Forall (λ c : Card.t, (2 ≤ Card.value c ≤ 12)%Z) (h1 ++ h2) →
  NoDup (Card.id <$> (removeSelected sel1 h1 ++ removeSelected sel2 h2))
  ∧ Forall (λ c : Card.t, (2 ≤ Card.value c ≤ 12)%Z)
      (removeSelected sel1 h1 ++ removeSelected sel2 h2).
Proof.
  intros Hnd Hv. split.
  - eapply sublist_NoDup; [exact Hnd|].
    apply fmap_sublist, sublist_app; apply removeSelected_sublist_of.
  - rewrite Forall_app in *. destruct Hv as [Hv1 Hv2].
    rewrite !Forall_forall in *.
    split; intros x Hx; [apply Hv1 | apply Hv2];
      by eapply removeSelected_sublist.
Qed.

Lemma nextRound_states_ok roomId rm :
  states_ok (gameStates rm) →
  states_ok (gameStates (snd (nextRound roomId rm))).
Proof.
  intros Hok. unfold nextRound.
  destruct (gameStates rm !! roomId) as [st|] eqn:Hst; [|done].
  destruct (Hok _ _ Hst) as (Hnd & Hv & _ & _).
  destruct (removeSelected_ok (GameState.player1SelectedCard st)
              (GameState.player2SelectedCard st) _ _ Hnd Hv) as [Hnd' Hv'].
  simpl. apply map_Forall_insert_2; [|done].
  repeat first [case_match | case_decide]; simpl;
    (split; [exact Hnd'|]; split; [exact Hv'|]; split; intros c; simpl; done).
Qed.

(** ** The invariant of the manager, method by method *)

Lemma newRoomManager_ok : rm_ok newRoomManager.
Proof. split; [constructor | apply map_Forall_empty]. Qed.

Lemma createRoom_ok roomId playerId roomName now socketId rm :
  rm_ok rm → rm_ok (snd (createRoom roomId playerId roomName now socketId rm)).
Proof. intros [Hr Hs]. split; [by apply createRoom_rooms_ok | done]. Qed.

Lemma joinRoom_ok playerId now roomId socketId rm :
  rm_ok rm → rm_ok (snd (joinRoom playerId now roomId socketId rm)).
Proof.
  intros [Hr Hs]. split; [by apply joinRoom_rooms_ok|].
  unfold joinRoom. repeat case_match; done.
Qed.

Lemma leaveRoomBySocket_ok socketId rm :
  rm_ok rm → rm_ok (snd (leaveRoomBySocket socketId rm)).
Proof.
  intros [Hr Hs]. split; [by apply leaveRoomBySocket_rooms_ok|].
  unfold leaveRoomBySocket. repeat case_match; simpl; try done.
  by apply states_ok_delete.
Qed.

Lemma setPlayerStatus_ok roomId socketId status rm :
  rm_ok rm → rm_ok (snd (setPlayerStatus roomId socketId status rm)).
Proof.
  intros [Hr Hs]. split; [by apply setPlayerStatus_rooms_ok|].
  unfold setPlayerStatus. repeat case_match; done.
Qed.

Lemma setTransitioning_ok v roomId rm :
  rm_ok rm → rm_ok (setTransitioning v roomId rm).
Proof.
  intros [Hr Hs]. split; [by apply setTransitioning_rooms_ok|].
  unfold setTransitioning. case_match; done.
Qed.

Lemma initGameState_ok rand roomId options rm :
  rm_ok rm → rm_ok (snd (initGameState rand roomId options rm)).
Proof.
  intros [Hr Hs].
  split; [by apply initGameState_rooms_ok | by apply initGameState_states_ok].
Qed.

Lemma playerSelectCard_ok draws picks roomId p cardId rm r :
  rm_ok rm →
  playerSelectCard draws picks roomId p cardId rm = Some r → rm_ok (snd r).
Proof.
  intros [Hr Hs] Hsel. split; [|by eapply playerSelectCard_states_ok].
  revert Hsel. unfold playerSelectCard.
  repeat first [case_match | case_decide]; simpl; intros Hsel;
    try (destruct (buildAnswerOptions _ _ _); simpl in Hsel);
    simplify_eq; done.
Qed.

Lemma playerSubmitAnswer_ok now roomId p answer rm :
  rm_ok rm → rm_ok (snd (playerSubmitAnswer now roomId p answer rm)).
Proof.
  intros [Hr Hs]. split; [|by apply playerSubmitAnswer_states_ok].
  unfold playerSubmitAnswer. repeat first [case_match | case_decide]; done.
Qed.

Lemma nextRound_ok roomId rm : rm_ok rm → rm_ok (snd (nextRound roomId rm)).
Proof.
  intros [Hr Hs]. split; [|by apply nextRound_states_ok].
  unfold nextRound. case_match; done.
Qed.

Lemma onState_ok f roomId rm :
  (∀ st, cardFields (f st) = cardFields st) →
  rm_ok rm → rm_ok (onState f roomId rm).
Proof.
  intros Hf [Hr Hs]. unfold onState.
  destruct (gameStates rm !! roomId) as [st|] eqn:Hst; [|done].
  split; [done|]. apply states_ok_store; [done|].
  eapply state_ok_cardFields; [apply Hf|]. exact (Hs _ _ Hst).
Qed.

Lemma resetGameState_ok rand roomId rm :
  rm_ok rm → rm_ok (snd (resetGameState rand roomId rm)).
Proof.
  intros [Hr Hs]. unfold resetGameState.
  set (rm0 := set_gameStates (delete roomId (gameStates rm)) rm).
  assert (H0 : rm_ok rm0) by (split; [done | by apply states_ok_delete]).
  pose proof (initGameState_ok rand roomId Options.empty rm0 H0) as Hi.
  unfold initGameState in *.
  destruct (JsMap.get roomId (rooms rm0)) as [room|]; [|done].
  simpl in *. destruct Hi as [Hr' Hs']. split; [done|].
  apply map_Forall_insert_2; [|done].
  eapply state_ok_cardFields; [|eapply (Hs' roomId), lookup_insert_eq].
  reflexivity.
Qed.

(** With no [lastEmptyAt] stamp on any room the sweep finds nothing. *)
Lemma gc_entries_noop now acc (l : list (string * Room.t)) :
  Forall (λ e, Room.lastEmptyAt e.2 = None) l →
  foldl (gc_entry now) acc l = acc.
Proof.
  intros Hl. revert acc.
  induction Hl as [|[roomId room] l Hx Hl IH]; intros [removed rm]; simpl;
    [done|].
  simpl in Hx. rewrite Hx. simpl. apply IH.
Qed.

Lemma garbageCollectRooms_noop now rm :
  rooms_ok (rooms rm) → garbageCollectRooms now rm = ([], rm).
Proof.
  intros Hok. apply gc_entries_noop.
  eapply Forall_impl; [exact Hok|]. by intros [? ?] (_ & ? & _).
Qed.

(** ** The invariant of the server *)

Lemma scheduleAutoNextRound_ok roomId srv :
  srv_ok srv → srv_ok (scheduleAutoNextRound roomId srv).
Proof.
  unfold srv_ok, scheduleAutoNextRound. intros H.
  case_decide; [done|]. by apply setTransitioning_ok.
Qed.

Lemma clearAutoNextRound_ok roomId srv :
  srv_ok srv → srv_ok (clearAutoNextRound roomId srv).
Proof.
  unfold srv_ok, clearAutoNextRound. intros H.
  case_decide; [|done]. by apply setTransitioning_ok.
Qed.

Lemma handle_ok ev srv srv' :
  srv_ok srv → handle ev srv = Some srv' → srv_ok srv'.
Proof.
  intros Hok. unfold srv_ok in *.
  destruct ev; simpl.
  - intros [= <-]. by apply createRoom_ok.
  - intros [= <-]. unfold onJoinRoom. case_decide; [done|].
    pose proof (joinRoom_ok playerId now roomId socket _ Hok) as Hj.
    destruct (joinRoom _ _ _ _ _) as [[e|room response] rm] eqn:Hjoin; [done|].
    simpl in *. destruct (truthy_num _); [|done].
    unfold joinRoom in Hjoin.
    destruct (JsMap.get roomId _) as [room0|] eqn:Hg; [|done].
    case_decide; [done|]. injection Hjoin as <- _ <-.
    destruct Hj as [Hr Hs]. split; [|done]. simpl.
    apply rooms_ok_set; [done|].
    eapply rooms_ok_get in Hr; [|apply jsmap_get_set_eq].
    destruct Hr as (? & ? & ?). done.
  - unfold onCardSelected. case_decide; [by intros [= <-]|].
    destruct (getRoom _ _); [|by intros [= <-]].
    destruct (playerSelectCard _ _ _ _ _ _) as [r|] eqn:Hsel; [|done].
    simpl. intros [= <-]. by eapply playerSelectCard_ok.
  - intros [= <-]. unfold onAnswerSubmitted. case_decide; [done|].
    destruct (getRoom _ _); [|done].
    pose proof (playerSubmitAnswer_ok now roomId playerNumber answer _ Hok) as Hs.
    destruct (playerSubmitAnswer _ _ _ _ _) as [[|st|st ic] rm]; simpl in *;
      try done.
    destruct (GameState.problemSolved st); [|done].
    apply scheduleAutoNextRound_ok. unfold srv_ok. simpl.
    by apply onState_ok.
  - intros [= <-]. unfold onNextRound. case_decide; [done|].
    destruct (getRoom _ _); [|done].
    pose proof (clearAutoNextRound_ok roomId srv Hok) as Hc.
    pose proof (nextRound_ok roomId _ Hc) as Hn.
    destruct (nextRound _ _) as [[st|] rm]; simpl in *; [|done].
    by apply onState_ok.
  - intros [= <-]. unfold onResetGame. case_decide; [done|].
    destruct (getRoom _ _); [|done].
    pose proof (resetGameState_ok rand roomId _ Hok) as Hn.
    destruct (resetGameState _ _ _) as [[st|] rm]; done.
  - intros [= <-]. unfold onRequestRematch. case_decide; [done|].
    destruct (getRoom _ _) as [room|]; [|done].
    case_decide; [|done]. simpl.
    match goal with |- context [initGameState ?r ?i ?o ?m] =>
      pose proof (initGameState_ok r i o m Hok) as Hn;
      destruct (initGameState r i o m) as [[st|] rm] end; simpl in *; [|done].
    by repeat apply onState_ok.
  - intros [= <-]. unfold onSetPresence. case_decide; [done|].
    case_decide; simpl; [by apply leaveRoomBySocket_ok|].
    by apply setPlayerStatus_ok.
  - intros [= <-]. unfold onSetRoomOptions. case_decide; [done|].
    destruct (getRoom _ _) as [room|] eqn:Hg; [|done].
    destruct (JsMap.get socket _); [|done]. simpl.
    destruct Hok as [Hr Hs]. split; [|done]. simpl.
    apply rooms_ok_set; [done|].
    destruct (rooms_ok_get _ _ _ Hr Hg) as (? & ? & ?).
    repeat case_match; done.
  - intros [= <-]. unfold onStartGame. case_decide; [done|].
    destruct (getRoom _ _) as [room|]; [|done].
    destruct (JsMap.get socket _); [|done].
    case_decide; [done|]. case_decide; [done|].
    match goal with |- context [initGameState ?r ?i ?o ?m] =>
      pose proof (initGameState_ok r i o m Hok) as Hn;
      destruct (initGameState r i o m) as [[st|] rm] end; simpl in *; [|done].
    by repeat apply onState_ok.
  - intros [= <-]. by apply leaveRoomBySocket_ok.
  - intros [= <-]. unfold onDisconnect.
    pose proof (leaveRoomBySocket_ok socket _ Hok) as Hl.
    destruct (leaveRoomBySocket _ _) as [[res|] rm]; simpl in *; [|done].
    by apply clearAutoNextRound_ok.
  - case_decide; intros [= <-]; [|done]. unfold autoNextRound. simpl.
    apply setTransitioning_ok.
    destruct (getRoom _ _); [|done].
    pose proof (nextRound_ok roomId _ Hok) as Hn.
    destruct (nextRound _ _) as [[st|] rm]; simpl in *; [|done].
    by apply onState_ok.
  - intros [= <-]. unfold onGarbageCollect.
    rewrite garbageCollectRooms_noop by apply Hok. done.
Qed.

Lemma reachable_ok srv : reachable srv → srv_ok srv.
Proof.
  induction 1 as [|ev srv srv' _ IH Hstep].
  - apply newRoomManager_ok.
  - by eapply handle_ok.
Qed.

Lemma run_reachable evs srv srv' :
  reachable srv → run evs srv = Some srv' → reachable srv'.
Proof.
  revert srv. induction evs as [|ev evs IH]; intros srv Hr; simpl.
  - by intros [= <-].
  - destruct (handle ev srv) as [srv1|] eqn:Hh; [|done]. simpl.
    apply IH. by eapply reachable_step.
Qed.

(** ** Round advance *)

Lemma filter_all {A} (P : A → Prop) `{∀ x, Decision (P x)} (l : list A) :
  Forall P l → filter P l = l.
Proof.
  induction 1 as [|x l Hx Hl IH]; [done|].
  rewrite filter_cons, decide_True by done. by rewrite IH.
Qed.

(** In a hand whose ids are unique, filtering on the id of one of its cards
    takes out that card and leaves the others in place. *)
Lemma removeSelected_unique (c : Card.t) (hand : list Card.t) :
  NoDup (Card.id <$> hand) → c ∈ hand →
  ∃ l1 l2, hand = l1 ++ c :: l2
           ∧ removeSelected (Some c) hand = l1 ++ l2
           ∧ Card.id c ∉ Card.id <$> (l1 ++ l2).
Proof.
  intros Hnd (l1 & l2 & ->)%list_elem_of_split. exists l1, l2.
  rewrite fmap_app, fmap_cons in Hnd.
  apply NoDup_app in Hnd as (_ & Hd & [Hc _]%NoDup_cons).
  assert (H1 : Forall (λ c', Card.id c' ≠ Card.id c) l1).
  { apply Forall_forall. intros x Hx Heq. apply (Hd (Card.id x)).
    - by apply list_elem_of_fmap_2.
    - rewrite Heq. apply list_elem_of_here. }
  assert (H2 : Forall (λ c', Card.id c' ≠ Card.id c) l2).
  { apply Forall_forall. intros x Hx Heq. apply Hc. rewrite <- Heq.
    by apply list_elem_of_fmap_2. }
  split; [done|]. split.
  - simpl. rewrite filter_app, filter_cons, decide_False by (intros ?; done).
    by rewrite !filter_all.
  - rewrite fmap_app, elem_of_app.
    intros [(x & Heq & Hx)%list_elem_of_fmap | (x & Heq & Hx)%list_elem_of_fmap].
    + rewrite Forall_forall in H1. by apply (H1 x).
    + rewrite Forall_forall in H2. by apply (H2 x).
Qed.

(** C2. In every state the server can reach, advancing the round takes out
    of each hand exactly the card its player had selected: the hand before
    is [l1 ++ c :: l2], the hand after is [l1 ++ l2], and no card with the
    id of [c] is left; a hand without a selection is untouched.  [gameOver]
    is set exactly when one of the two hands is then empty, and in that case
    the winner is the player with the strictly higher score, or nobody when
    the scores are equal. *)
Theorem nextRound_removes_selected_cards_and_settles_winner
    (srv : Server) (roomId : string) (st : GameState.t) :
  reachable srv →
  gameStates (roomManager srv) !! roomId = Some st →
  ∃ st',
    nextRound roomId (roomManager srv)
      = (Some st', store roomId st' (roomManager srv))
    ∧ match GameState.player1SelectedCard st with
      | Some c => ∃ l1 l2, GameState.player1Hand st = l1 ++ c :: l2
                           ∧ GameState.player1Hand st' = l1 ++ l2
                           ∧ Card.id c ∉ Card.id <$> GameState.player1Hand st'
      | None => GameState.player1Hand st' = GameState.player1Hand st
      end
    ∧ match GameState.player2SelectedCard st with
      | Some c => ∃ l1 l2, GameState.player2Hand st = l1 ++ c :: l2
                           ∧ GameState.player2Hand st' = l1 ++ l2
                           ∧ Card.id c ∉ Card.id <$> GameState.player2Hand st'
      | None => GameState.player2Hand st' = GameState.player2Hand st
      end
    ∧ (GameState.gameOver st' = true
       ↔ GameState.player1Hand st' = [] ∨ GameState.player2Hand st' = [])
    ∧ GameState.player1Score st' = GameState.player1Score st
    ∧ GameState.player2Score st' = GameState.player2Score st
    ∧ (GameState.gameOver st' = true →
       (GameState.player1Score st > GameState.player2Score st →
        GameState.winner st' = Some "player1")
       ∧ (GameState.player2Score st > GameState.player1Score st →
          GameState.winner st' = Some "player2")
       ∧ (GameState.player1Score st = GameState.player2Score st →
          GameState.winner st' = None)).
Proof.
  intros Hreach Hst.
  destruct (reachable_ok _ Hreach) as [_ Hs].
  destruct (Hs _ _ Hst) as (Hnd & _ & Hsel1 & Hsel2).
  rewrite fmap_app in Hnd. apply NoDup_app in Hnd as (Hnd1 & _ & Hnd2).
  unfold nextRound. rewrite Hst. eexists. split; [reflexivity|]. simpl.
  set (h1 := removeSelected (GameState.player1SelectedCard st)
               (GameState.player1Hand st)).
  set (h2 := removeSelected (GameState.player2SelectedCard st)
               (GameState.player2Hand st)).
  assert (Hover : bool_decide (length h1 = 0%nat) || bool_decide (length h2 = 0%nat)
                  = true ↔ h1 = [] ∨ h2 = []).
  { rewrite orb_true_iff, !bool_decide_eq_true, !length_zero_iff_nil. done. }
  split; [|split; [|split; [|split; [|split]]]].
  - subst h1 h2. destruct (GameState.player1SelectedCard st) as [c|]; simpl.
    + destruct (removeSelected_unique c _ Hnd1 (Hsel1 c eq_refl))
        as (l1 & l2 & E1 & E2 & E3).
      exists l1, l2. simpl in E2. rewrite E2.
      destruct (_ || _); repeat case_decide; simpl; rewrite ?E2; done.
    + destruct (_ || _); repeat case_decide; done.
  - subst h1 h2. destruct (GameState.player2SelectedCard st) as [c|]; simpl.
    + destruct (removeSelected_unique c _ Hnd2 (Hsel2 c eq_refl))
        as (l1 & l2 & E1 & E2 & E3).
      exists l1, l2. simpl in E2. rewrite E2.
      destruct (_ || _); repeat case_decide; simpl; rewrite ?E2; done.
    + destruct (_ || _); repeat case_decide; done.
  - revert Hover. destruct (_ || _); intros Hover;
      repeat case_decide; simpl; exact Hover.
  - simpl. destruct (_ || _); repeat case_decide; done.
  - simpl. destruct (_ || _); repeat case_decide; done.
  - simpl. fold h1 h2.
    destruct (_ || _); simpl; [|done]. intros _.
    repeat case_decide; simpl; repeat split; intros; first [done | lia].
Qed.

(** ** Dealing *)

(** C4, as stated, fails at [n = 0], which satisfies [2n ≤ 44]: a hand size
    of 0 in the options counts as missing, and in a room that remembers no
    size the easy default is dealt, six cards a hand. *)
Lemma initGameState_hand_size_zero_deals_the_default :
  JsMap.get "R" (rooms (roomManager lobby)) = Some (roomOf lobby)
  ∧ 2 * 0 ≤ 44
  ∧ ∃ st,
      fst (initGameState (λ i, (7 * i)%nat) "R" (Options.mk None (Some 0))
             (roomManager lobby)) = Some st
      ∧ GameState.initialCards st = 6
      ∧ length (GameState.player1Hand st) = 6%nat
      ∧ length (GameState.player2Hand st) = 6%nat
      ∧ Z.of_nat (length (GameState.player1Hand st)) ≠ 0
      ∧ Z.of_nat (length (GameState.player2Hand st)) ≠ 0.
Proof.
  split; [vm_compute; reflexivity|]. split; [lia|].
  eexists. split; [vm_compute; reflexivity|].
  split; [vm_compute; reflexivity|].
  split; [vm_compute; reflexivity|].
  split; [vm_compute; reflexivity|].
  split; vm_compute; discriminate.
Qed.

(** C4, amended. For a room that exists, [initGameState] deals from the 44-card deck
    (the four suits times the values 2..12, every combination once): with a
    hand size [n], [1 ≤ n] and [2n ≤ 44], given in the options, the new
    state records [n], each hand has exactly [n] cards, all of them cards of
    the deck with a value from 2 to 12, and no card id occurs twice, so none
    occurs in both hands. *)
Theorem initGameState_deals_two_disjoint_hands
    (rand : nat → nat) (roomId : string) (room : Room.t)
    (options : Options.t) (rm : RoomManager) (n : Z) :
  JsMap.get roomId (rooms rm) = Some room →
  Options.initialCards options = Some n →
  1 ≤ n → 2 * n ≤ 44 →
  length buildDeck = 44%nat
  ∧ (λ c, (Card.suit c, Card.value c)) <$> buildDeck
      = (s ← suits; (λ v, (s, v)) <$> seqZ 2 11)
  ∧ NoDup ((λ c, (Card.suit c, Card.value c)) <$> buildDeck)
  ∧ ∃ st,
      fst (initGameState rand roomId options rm) = Some st
      ∧ gameStates (snd (initGameState rand roomId options rm)) !! roomId
          = Some st
      ∧ GameState.initialCards st = n
      ∧ Z.of_nat (length (GameState.player1Hand st)) = n
      ∧ Z.of_nat (length (GameState.player2Hand st)) = n
      ∧ (∀ c, c ∈ GameState.player1Hand st ++ GameState.player2Hand st →
              c ∈ buildDeck ∧ 2 ≤ Card.value c ≤ 12)
      ∧ NoDup (Card.id <$>
                 (GameState.player1Hand st ++ GameState.player2Hand st))
      ∧ (∀ c1 c2, c1 ∈ GameState.player1Hand st →
                  c2 ∈ GameState.player2Hand st → Card.id c1 ≠ Card.id c2).
Proof.
  intros Hroom Hopt Hn1 Hn2.
  split; [apply buildDeck_length|].
  split; [apply buildDeck_combinations|].
  split; [apply buildDeck_combinations_NoDup|].
  unfold initGameState. rewrite Hroom, Hopt. simpl.
  rewrite decide_False by lia.
  set (ic := default 6 _).
  assert (Hic : ic = n).
  { subst ic. by destruct (truthy_num (Room.initialCards room)),
      (truthy_num (difficultyDefaults _)). }
  clearbody ic. subst ic. simpl.
  eexists. split; [reflexivity|]. split; [apply lookup_insert_eq|]. simpl.
  pose proof (shuffle_Permutation rand buildDeck) as Hperm.
  pose proof (Permutation_length Hperm) as Hlen. rewrite buildDeck_length in Hlen.
  set (deck := shuffle rand buildDeck) in *.
  edestruct (dealt_state_ok n deck) as [Hnd Hv]; [exact Hperm|done|done|].
  split; [done|].
  split; [rewrite length_take; lia|].
  split; [rewrite length_take, length_drop; lia|].
  split; [|split; [exact Hnd|]].
  - intros c Hc. split.
    + rewrite <- Hperm, <- (take_drop (Z.to_nat n) deck).
      rewrite elem_of_app in *. destruct Hc as [Hc|Hc]; [by left|right].
      eapply elem_of_sublist; [exact Hc | apply sublist_take].
    + rewrite Forall_forall in Hv. by apply Hv.
  - intros c1 c2 H1 H2 Heq.
    rewrite fmap_app in Hnd. apply NoDup_app in Hnd as (_ & Hd & _).
    apply (Hd (Card.id c1)); [by apply list_elem_of_fmap_2|].
    rewrite Heq. by apply list_elem_of_fmap_2.
Qed.

(** ** Problem generation *)

Lemma set_add_elem (x y : Z) (opts : list Z) :
  y ∈ set_add x opts ↔ y = x ∨ y ∈ opts.
Proof.
  unfold set_add. case_decide as Hin.
  - split; [by right|]. intros [->|]; done.
  - rewrite elem_of_app, list_elem_of_singleton. tauto.
Qed.

Lemma set_add_NoDup (x : Z) (opts : list Z) :
  NoDup opts → NoDup (set_add x opts).
Proof.
  intros Hnd. unfold set_add. case_decide as Hin; [done|].
  apply NoDup_app. split; [done|]. split; [|apply NoDup_singleton].
  intros y Hy ->%list_elem_of_singleton. done.
Qed.

Lemma set_add_prefix (x : Z) (opts : list Z) : opts `prefix_of` set_add x opts.
Proof. unfold set_add. case_decide; [done|]. by apply prefix_app_r. Qed.

(** What the option loop returns when it returns: four distinct values, the
    initial ones first, every other one a wrong answer made from a draw. *)
Lemma fillOptions_spec draws c opts opts' :
  NoDup opts → (length opts ≤ 4)%nat →
  fillOptions draws c opts = Some opts' →
  NoDup opts' ∧ length opts' = 4%nat ∧ opts `prefix_of` opts'
  ∧ ∀ w, w ∈ opts' → w ∈ opts ∨ ∃ d, d ∈ draws ∧ w = wrongAnswer c d.
Proof.
  revert opts. induction draws as [|d draws IH]; intros opts Hnd Hlen; simpl.
  - case_decide; [done|]. intros [= <-]. repeat split; try done; [lia|auto].
  - case_decide as Hlt.
    + intros Hfill. apply IH in Hfill as (H1 & H2 & H3 & H4).
      * repeat split; try done.
        { etrans; [apply set_add_prefix | exact H3]. }
        intros w Hw. destruct (H4 w Hw) as [Hin | (d' & Hd' & ->)].
        -- apply set_add_elem in Hin as [-> | Hin]; [|by left].
           right. exists d. split; [apply list_elem_of_here | done].
        -- right. exists d'. split; [by apply list_elem_of_further | done].
      * by apply set_add_NoDup.
      * unfold set_add. case_decide; [lia|]. rewrite length_app. simpl. lia.
    + intros [= <-]. repeat split; try done; [lia|auto].
Qed.

(** The loop ends as soon as the values drawn, with the ones already in the
    set, make four distinct values. *)
Lemma fillOptions_total draws c opts :
  NoDup opts →
  (4 ≤ size (list_to_set (opts ++ (wrongAnswer c <$> draws)) : gset Z))%nat →
  is_Some (fillOptions draws c opts).
Proof.
  revert opts. induction draws as [|d draws IH]; intros opts Hnd Hsz; simpl.
  - case_decide as Hlt; [|eauto]. exfalso.
    rewrite app_nil_r, size_list_to_set in Hsz by done. lia.
  - case_decide as Hlt; [|eauto]. apply IH; [by apply set_add_NoDup|].
    erewrite (leibniz_equiv (list_to_set _)); [exact Hsz|].
    intros w. rewrite !elem_of_list_to_set, !elem_of_app, set_add_elem.
    rewrite fmap_cons, elem_of_cons. tauto.
Qed.

Lemma randomOrder_Permutation {A} picks (l : list A) :
  randomOrder picks l (length l) ≡ₚ l.
Proof.
  remember (length l) as n eqn:Hn. revert picks l Hn.
  induction n as [|n IH]; intros picks l Hn; simpl.
  - symmetry in Hn. by apply length_zero_iff_nil in Hn as ->.
  - unfold random_below.
    destruct (l !! (hd 0%nat picks mod length l)%nat) as [x|] eqn:Hk.
    + etrans; [|symmetry; exact (delete_Permutation _ _ _ Hk)].
      constructor. apply IH. rewrite length_delete by eauto. lia.
    + apply lookup_ge_None in Hk.
      pose proof (Nat.mod_upper_bound (hd 0%nat picks) (length l)). lia.
Qed.

Lemma wrongAnswer_form (c : Z) (d : nat * bool) :
  ∃ offset, 1 ≤ offset ≤ 20
            ∧ (wrongAnswer c d = Z.max 1 (c + offset)
               ∨ wrongAnswer c d = Z.max 1 (c - offset)).
Proof.
  exists (Z.of_nat (random_below d.1 20) + 1). split.
  - unfold random_below. pose proof (Nat.mod_upper_bound d.1 20). lia.
  - unfold wrongAnswer. destruct d.2; [by left | by right].
Qed.

(** What [buildAnswerOptions] returns when it returns. *)
Lemma buildAnswerOptions_spec draws picks c answerOptions :
  buildAnswerOptions draws picks c = Some answerOptions →
  length answerOptions = 4%nat ∧ NoDup answerOptions ∧ c ∈ answerOptions
  ∧ ∀ w, w ∈ answerOptions →
      w = c ∨ ∃ offset, 1 ≤ offset ≤ 20
                        ∧ (w = Z.max 1 (c + offset) ∨ w = Z.max 1 (c - offset)).
Proof.
  unfold buildAnswerOptions.
  destruct (fillOptions draws c (set_add c [])) as [opts|] eqn:Hfill; [|done].
  simpl. intros [= <-].
  apply fillOptions_spec in Hfill as (Hnd & Hlen & Hpre & Hw);
    [|apply NoDup_singleton | simpl; lia].
  pose proof (randomOrder_Permutation picks opts) as Hperm.
  split; [by rewrite Hperm|]. split; [by rewrite Hperm|]. split.
  - rewrite Hperm. destruct Hpre as [k ->]. apply list_elem_of_here.
  - intros w. rewrite Hperm. intros Hin.
    destruct (Hw w Hin) as [->%list_elem_of_singleton | (d & _ & ->)];
      [by left|right]. apply wrongAnswer_form.
Qed.

Lemma buildAnswerOptions_total draws picks c :
  enoughDraws c draws →
  is_Some (buildAnswerOptions draws picks c).
Proof.
  intros Hsz. unfold buildAnswerOptions.
  destruct (fillOptions_total draws c (set_add c [])) as [opts ->];
    [apply NoDup_singleton | exact Hsz | by eexists].
Qed.

(** Where the correct answer ends up depends on the picks of the sort: with
    no pick it stays in front, with a first pick of 1 it does not. *)
Lemma buildAnswerOptions_position draws c :
  enoughDraws c draws →
  ∃ o1 o2, buildAnswerOptions draws [] c = Some o1
           ∧ buildAnswerOptions draws [1%nat] c = Some o2
           ∧ head o1 = Some c ∧ head o2 ≠ Some c.
Proof.
  intros Hsz. unfold buildAnswerOptions.
  destruct (fillOptions_total draws c (set_add c [])) as [opts Hfill];
    [apply NoDup_singleton | exact Hsz |].
  rewrite Hfill. simpl.
  apply fillOptions_spec in Hfill as (Hnd & Hlen & [k ->] & _);
    [|apply NoDup_singleton | simpl; lia].
  destruct k as [|w1 [|w2 [|w3 [|? ?]]]]; try done.
  eexists _, _. split; [reflexivity|]. split; [reflexivity|].
  split; [done|]. simpl. intros [= ->].
  apply NoDup_cons in Hnd as [Hc _]. apply Hc, list_elem_of_here.
Qed.

Lemma playerSelectCard_both draws picks roomId p cardId rm st c1 c2 :
  gameStates rm !! roomId = Some st →
  default false (Room.transitioning <$> JsMap.get roomId (rooms rm)) = false →
  selectionsAfter p cardId st = (Some c1, Some c2) →
  ∃ st0,
    GameState.player1SelectedCard st0 = Some c1
    ∧ GameState.player2SelectedCard st0 = Some c2
    ∧ playerSelectCard draws picks roomId p cardId rm
      = (answerOptions ←
           buildAnswerOptions draws picks (Card.value c1 * Card.value c2);
         let st' :=
           GameState.set_revealEquation true
             (GameState.set_submittedAnswers noAnswers
                (GameState.set_player2Answered false
                   (GameState.set_player1Answered false
                      (GameState.set_solvedBy None
                         (GameState.set_problemSolved false
                            (GameState.set_roundInProgress true
                               (GameState.set_answerOptions answerOptions
                                  (GameState.set_correctAnswer
                                     (Card.value c1 * Card.value c2)
                                     (GameState.set_currentProblem
                                        (Some (Card.value c1, Card.value c2))
                                        st0))))))))) in
         Some (Some st', store roomId st' rm)).
Proof.
  intros Hst Htr Hsel. unfold playerSelectCard. rewrite Hst, Htr.
  unfold selectionsAfter in Hsel.
  case_decide; simpl in *; injection Hsel as Hs1 Hs2; rewrite Hs1, Hs2;
    eexists; (split; [|split; [|reflexivity]]); simpl; done.
Qed.

(** C3. In a reachable state, when a selection leaves both players with a
    card of their hand, of values [a] and [b], the problem generated is
    [a * b]: whenever the call returns, the state has the operands [(a, b)],
    [correctAnswer = a * b], and four pairwise distinct answer options, the
    correct answer among them, every other one being the correct answer
    moved by an offset in 1..20, up or down, and clamped below by 1.  The
    call returns as soon as the draws bring three new values, which some
    draws do.  The place of the correct answer in the list depends on the
    sort: some picks leave it first, others do not. *)
Theorem selecting_both_cards_generates_product_and_four_options
    (srv : Server) (roomId : string) (st : GameState.t) (p : Z)
    (cardId : string) (c1 c2 : Card.t) :
  reachable srv →
  gameStates (roomManager srv) !! roomId = Some st →
  default false
    (Room.transitioning <$> JsMap.get roomId (rooms (roomManager srv))) = false →
  selectionsAfter p cardId st = (Some c1, Some c2) →
  let a := Card.value c1 in
  let b := Card.value c2 in
  let enough := enoughDraws (a * b) in
  (∀ draws picks r,
      playerSelectCard draws picks roomId p cardId (roomManager srv) = Some r →
      ∃ st', r = (Some st', store roomId st' (roomManager srv))
             ∧ GameState.player1SelectedCard st' = Some c1
             ∧ GameState.player2SelectedCard st' = Some c2
             ∧ GameState.currentProblem st' = Some (a, b)
             ∧ GameState.correctAnswer st' = a * b
             ∧ GameState.roundInProgress st' = true
             ∧ length (GameState.answerOptions st') = 4%nat
             ∧ NoDup (GameState.answerOptions st')
             ∧ a * b ∈ GameState.answerOptions st'
             ∧ ∀ w, w ∈ GameState.answerOptions st' →
                 w = a * b
                 ∨ ∃ offset, 1 ≤ offset ≤ 20
                             ∧ (w = Z.max 1 (a * b + offset)
                                ∨ w = Z.max 1 (a * b - offset)))
  ∧ (∀ draws picks,
        enough draws →
        is_Some (playerSelectCard draws picks roomId p cardId (roomManager srv)))
  ∧ enough [(0, true); (1, true); (2, true)]%nat
  ∧ (∀ draws,
        enough draws →
        ∃ r1 st1 r2 st2,
          playerSelectCard draws [] roomId p cardId (roomManager srv)
            = Some (Some st1, r1)
          ∧ playerSelectCard draws [1%nat] roomId p cardId (roomManager srv)
            = Some (Some st2, r2)
          ∧ head (GameState.answerOptions st1) = Some (a * b)
          ∧ head (GameState.answerOptions st2) ≠ Some (a * b)).
Proof.
  intros Hreach Hst Htr Hsel a b enough.
  assert (Hval : 2 ≤ a ≤ 12 ∧ 2 ≤ b ≤ 12).
  { destruct (reachable_ok _ Hreach) as [_ Hs].
    destruct (Hs _ _ Hst) as (_ & Hv & Hs1 & Hs2).
    rewrite Forall_app, !Forall_forall in Hv. destruct Hv as [Hv1 Hv2].
    unfold selectionsAfter in Hsel. subst a b.
    case_decide; injection Hsel as H1 H2.
    - apply findCard_elem in H1 as [H1 _]. split; [apply Hv1|apply Hv2]; auto.
    - apply findCard_elem in H2 as [H2 _]. split; [apply Hv1|apply Hv2]; auto. }
  split; [|split; [|split]].
  - intros draws picks r.
    destruct (playerSelectCard_both draws picks roomId p cardId _ st c1 c2
                Hst Htr Hsel) as (st0 & Hs1 & Hs2 & ->).
    fold a b.
    destruct (buildAnswerOptions draws picks (a * b)) as [opts|] eqn:Hopts;
      [|done].
    simpl. intros [= <-].
    apply buildAnswerOptions_spec in Hopts as (H1 & H2 & H3 & H4).
    eexists. split; [reflexivity|]. simpl. done.
  - intros draws picks Hen.
    destruct (playerSelectCard_both draws picks roomId p cardId _ st c1 c2
                Hst Htr Hsel) as (st0 & _ & _ & ->).
    fold a b.
    destruct (buildAnswerOptions_total draws picks (a * b) Hen) as [opts ->].
    simpl. eauto.
  - subst enough. unfold enoughDraws.
    assert (Hc : 4 ≤ a * b) by nia. revert Hc. generalize (a * b). intros c Hc.
    replace (c :: (wrongAnswer c <$> [(0, true); (1, true); (2, true)]%nat))
      with [c; c + 1; c + 2; c + 3]
      by (unfold wrongAnswer, random_below; simpl; repeat f_equal; lia).
    rewrite size_list_to_set; [simpl; lia|].
    repeat (apply NoDup_cons; split;
            [rewrite ?elem_of_cons, elem_of_nil; lia|]).
    apply NoDup_nil_2.
  - intros draws Hen.
    destruct (buildAnswerOptions_position draws (a * b) Hen)
      as (o1 & o2 & E1 & E2 & Hh1 & Hh2).
    destruct (playerSelectCard_both draws [] roomId p cardId _ st c1 c2
                Hst Htr Hsel) as (st0 & _ & _ & ->).
    destruct (playerSelectCard_both draws [1%nat] roomId p cardId _ st c1 c2
                Hst Htr Hsel) as (st0' & _ & _ & ->).
    fold a b. rewrite E1, E2. simpl.
    eexists _, _, _, _. split; [reflexivity|]. split; [reflexivity|]. done.
Qed.

(** ** Scenarios *)

Lemma solvedRound_run : run solvedRoundEvents newServer = Some solvedRound.
Proof. vm_compute. reflexivity. Qed.

Lemma openRound_run :
  run (take 5 solvedRoundEvents) newServer = Some openRound.
Proof. vm_compute. reflexivity. Qed.

Lemma solvedRoundAfterLeave_run :
  run (solvedRoundEvents ++ [EvLeaveRoom "s2"]) newServer
  = Some solvedRoundAfterLeave.
Proof. vm_compute. reflexivity. Qed.

Lemma solvedRound_reachable : reachable solvedRound.
Proof. exact (run_reachable _ _ _ reachable_new solvedRound_run). Qed.

Lemma openRound_reachable : reachable openRound.
Proof. exact (run_reachable _ _ _ reachable_new openRound_run). Qed.

Lemma solvedRoundAfterLeave_reachable : reachable solvedRoundAfterLeave.
Proof. exact (run_reachable _ _ _ reachable_new solvedRoundAfterLeave_run). Qed.

(** ** Selection while an automatic advance is pending *)

Lemma GameState_eta (st : GameState.t) (n : nat) :
  GameState.playersConnected st = n →
  GameState.set_playersConnected n st = st.
Proof. intros <-. by destruct st. Qed.

(** C7, as stated, fails: after the round of [solvedRound] is solved the room
    is transitioning; player 2 leaves, and the stored state still counts two
    connected players.  A selection is then ignored, but the state it returns
    and stores has [playersConnected = 1]. *)
Lemma select_while_transitioning_changes_playersConnected :
  reachable solvedRoundAfterLeave
  ∧ Room.transitioning <$> getRoom "R" (roomManager solvedRoundAfterLeave)
      = Some true
  ∧ ∃ st st' rm',
      gameStates (roomManager solvedRoundAfterLeave) !! "R" = Some st
      ∧ playerSelectCard [] [] "R" 1 "hearts-3-1"
          (roomManager solvedRoundAfterLeave) = Some (Some st', rm')
      ∧ gameStates rm' !! "R" = Some st'
      ∧ GameState.playersConnected st = 2%nat
      ∧ GameState.playersConnected st' = 1%nat
      ∧ st' ≠ st.
Proof.
  split; [apply solvedRoundAfterLeave_reachable|].
  split; [vm_compute; reflexivity|].
  eexists _, _, _.
  split; [vm_compute; reflexivity|].
  split; [vm_compute; reflexivity|].
  split; [vm_compute; reflexivity|].
  split; [vm_compute; reflexivity|].
  split; [vm_compute; reflexivity|].
  intros Heq. apply (f_equal GameState.playersConnected) in Heq.
  vm_compute in Heq. discriminate.
Qed.

(** C7, amended. While the room is transitioning a selection records
    nothing and generates no problem: the state returned, which is also the
    state stored, is the state before the call with [playersConnected] set
    to the number of members the room has now, every other field as it was
    (it is the very same state when the count was already right), and the
    room table is untouched. *)
Theorem select_while_transitioning_only_refreshes_playersConnected
    (draws : list (nat * bool)) (picks : list nat) (rm : RoomManager)
    (roomId : string) (room : Room.t) (st : GameState.t) (p : Z)
    (cardId : string) :
  JsMap.get roomId (rooms rm) = Some room →
  Room.transitioning room = true →
  gameStates rm !! roomId = Some st →
  let st' :=
    GameState.set_playersConnected (JsMap.size (Room.players room)) st in
  playerSelectCard draws picks roomId p cardId rm
    = Some (Some st', store roomId st' rm)
  ∧ rooms (store roomId st' rm) = rooms rm
  ∧ GameState.player1SelectedCard st' = GameState.player1SelectedCard st
  ∧ GameState.player2SelectedCard st' = GameState.player2SelectedCard st
  ∧ GameState.currentProblem st' = GameState.currentProblem st
  ∧ GameState.answerOptions st' = GameState.answerOptions st
  ∧ GameState.correctAnswer st' = GameState.correctAnswer st
  ∧ GameState.roundInProgress st' = GameState.roundInProgress st
  ∧ GameState.revealEquation st' = GameState.revealEquation st
  ∧ (GameState.playersConnected st = JsMap.size (Room.players room) →
     st' = st).
Proof.
  intros Hroom Htr Hst st'. split.
  - unfold playerSelectCard, connectedCount. rewrite Hst, Hroom. simpl.
    by rewrite Htr.
  - repeat split. apply GameState_eta.
Qed.

(** ** Manual advance against the timer *)

Lemma setTransitioning_gameStates v roomId rm :
  gameStates (setTransitioning v roomId rm) = gameStates rm.
Proof. unfold setTransitioning. by destruct (getRoom roomId rm). Qed.

Lemma setTransitioning_connectedCount v roomId rm rid :
  connectedCount rid (setTransitioning v roomId rm) = connectedCount rid rm.
Proof.
  unfold setTransitioning, getRoom, connectedCount.
  destruct (JsMap.get roomId (rooms rm)) as [r|] eqn:Hg; [|done]. simpl.
  destruct (decide (roomId = rid)) as [->|Hne].
  - by rewrite jsmap_get_set_eq, Hg.
  - by rewrite jsmap_get_set_ne.
Qed.

Lemma setTransitioning_getRoom v roomId rm r :
  getRoom roomId rm = Some r →
  getRoom roomId (setTransitioning v roomId rm)
  = Some (Room.set_transitioning v r).
Proof.
  unfold setTransitioning. intros Hg. rewrite Hg. unfold getRoom in *. simpl.
  apply jsmap_get_set_eq.
Qed.

(** What one advance leaves, and what a second advance does to it: on any
    manager that holds the advanced state for the room, with the same member
    count, [nextRound] finds no selection and returns that state again. *)
Lemma nextRound_then_again roomId rm st1 rm1 :
  nextRound roomId rm = (Some st1, rm1) →
  rm1 = store roomId st1 rm
  ∧ GameState.set_advanceClients true st1 = st1
  ∧ ∀ rm',
      gameStates rm' !! roomId = Some st1 →
      connectedCount roomId rm' = connectedCount roomId rm →
      nextRound roomId rm' = (Some st1, store roomId st1 rm').
Proof.
  unfold nextRound at 1.
  destruct (gameStates rm !! roomId) as [st|] eqn:Hst; [|done].
  simpl.
  destruct (bool_decide _ || bool_decide _) eqn:E;
    repeat case_decide; intros [= <- <-];
    (split; [reflexivity|]); (split; [gs_norm; reflexivity|]);
    intros rm' Hst' Hcc; unfold nextRound; rewrite Hst', Hcc; simpl;
    rewrite ?E; simpl; repeat case_decide; try lia;
    gs_norm;
    first [ reflexivity
          | exfalso; apply orb_true_iff in E as [E|E];
            apply bool_decide_eq_true in E; done
          | exfalso; apply orb_false_iff in E as [E1 E2];
            apply bool_decide_eq_false in E1, E2; done ].
Qed.

(** [nextRound] reads the room's state and its member count only. *)
Lemma nextRound_same_inputs roomId rm rm' st1 :
  nextRound roomId rm = (Some st1, store roomId st1 rm) →
  gameStates rm' !! roomId = gameStates rm !! roomId →
  connectedCount roomId rm' = connectedCount roomId rm →
  nextRound roomId rm' = (Some st1, store roomId st1 rm').
Proof.
  unfold nextRound. intros Hn -> ->.
  destruct (gameStates rm !! roomId) as [st|]; [|done].
  apply (f_equal fst) in Hn. simpl in *. injection Hn as Hn.
  by rewrite Hn.
Qed.

Lemma store_store roomId st rm :
  store roomId st (store roomId st rm) = store roomId st rm.
Proof. unfold store, set_gameStates. simpl. by rewrite insert_insert_eq. Qed.

Lemma setTransitioning_store v roomId rid st rm :
  setTransitioning v roomId (store rid st rm)
  = store rid st (setTransitioning v roomId rm).
Proof.
  unfold setTransitioning, getRoom. simpl.
  by destruct (JsMap.get roomId (rooms rm)).
Qed.

Lemma onState_store f roomId st rm :
  f st = st → onState f roomId (store roomId st rm) = store roomId st rm.
Proof.
  intros Hf. unfold onState. rewrite store_lookup, Hf. apply store_store.
Qed.

(** A room with a game state and a pending auto-advance timer receives
    both a ['nextRound'] request and the firing of the timer, one right
    after the other.  In either order the server ends in the same state: the
    room's game state is the state of a single [nextRound], the timer is gone
    and the room is no longer transitioning.  When the request comes first
    it cancels the timer, so that the timer event does nothing; when the
    timer fires first the request's own [nextRound] changes nothing. *)
Lemma request_and_timer_commute
    (srv : Server) (roomId : string) (room : Room.t) (st : GameState.t) :
  roomId ≠ EmptyString →
  getRoom roomId (roomManager srv) = Some room →
  gameStates (roomManager srv) !! roomId = Some st →
  roomId ∈ nextRoundTimers srv →
  ∃ st1 final,
    fst (nextRound roomId (roomManager srv)) = Some st1
    ∧ run [EvNextRound roomId; EvTimer roomId] srv = Some final
    ∧ run [EvTimer roomId; EvNextRound roomId] srv = Some final
    ∧ gameStates (roomManager final) !! roomId = Some st1
    ∧ GameState.player1Hand st1
        = removeSelected (GameState.player1SelectedCard st)
            (GameState.player1Hand st)
    ∧ GameState.player2Hand st1
        = removeSelected (GameState.player2SelectedCard st)
            (GameState.player2Hand st)
    ∧ (roomId ∉ nextRoundTimers (onNextRound roomId srv))
    ∧ handle (EvTimer roomId) (onNextRound roomId srv)
        = Some (onNextRound roomId srv)
    ∧ onNextRound roomId (autoNextRound roomId srv) = autoNextRound roomId srv
    ∧ (roomId ∉ nextRoundTimers final)
    ∧ Room.transitioning <$> getRoom roomId (roomManager final) = Some false.
Proof.
  intros Hne Hroom Hst Htimer.
  destruct (nextRound roomId (roomManager srv)) as [o rm1] eqn:Hnext.
  assert (∃ st1, o = Some st1) as [st1 ->].
  { revert Hnext. unfold nextRound. rewrite Hst. intros [= <- _]. eauto. }
  destruct (nextRound_then_again _ _ _ _ Hnext) as (-> & Hadv & Hagain).
  assert (Hhands :
    GameState.player1Hand st1
      = removeSelected (GameState.player1SelectedCard st)
          (GameState.player1Hand st)
    ∧ GameState.player2Hand st1
      = removeSelected (GameState.player2SelectedCard st)
          (GameState.player2Hand st)).
  { pose proof (f_equal fst Hnext) as Hf. revert Hf. clear - Hst.
    unfold nextRound. rewrite Hst. simpl.
    destruct (bool_decide _ || bool_decide _); repeat case_decide;
      intros [= <-]; split; reflexivity. }
  set (rmF := store roomId st1 (setTransitioning false roomId (roomManager srv))).
  set (final := mkServer rmF (rematchRequests srv)
                  (nextRoundTimers srv ∖ {[roomId]})).
  assert (HA : onNextRound roomId srv = final).
  { unfold onNextRound. rewrite decide_False by done. rewrite Hroom.
    unfold clearAutoNextRound. rewrite decide_True by done. simpl.
    rewrite (nextRound_same_inputs _ _
               (setTransitioning false roomId (roomManager srv)) _ Hnext);
      [|by rewrite setTransitioning_gameStates
        |by apply setTransitioning_connectedCount].
    unfold set_roomManager. simpl. by rewrite onState_store. }
  assert (HB : autoNextRound roomId srv = final).
  { unfold autoNextRound. rewrite Hroom, Hnext.
    rewrite onState_store by done. by rewrite setTransitioning_store. }
  assert (Hgone : roomId ∉ nextRoundTimers final).
  { subst final. simpl. intros [_ Hn]%elem_of_difference.
    by apply Hn, elem_of_singleton. }
  assert (HroomF : getRoom roomId rmF = Some (Room.set_transitioning false room)).
  { subst rmF. unfold getRoom. simpl. by apply setTransitioning_getRoom. }
  assert (HBA : onNextRound roomId final = final).
  { unfold onNextRound. rewrite decide_False by done.
    change (roomManager final) with rmF. rewrite HroomF.
    unfold clearAutoNextRound. rewrite decide_False by done.
    change (roomManager final) with rmF.
    rewrite (Hagain rmF);
      [|by apply store_lookup
        |by subst rmF; rewrite store_connectedCount;
            apply setTransitioning_connectedCount].
    unfold set_roomManager. subst final. simpl. f_equal.
    rewrite onState_store by done. subst rmF. apply store_store. }
  exists st1, final. rewrite HA, HB.
  split; [done|]. split.
  { simpl. rewrite HA. simpl. by rewrite decide_False. }
  split.
  { simpl. rewrite decide_True by done. simpl. rewrite HB. simpl.
    by rewrite HBA. }
  split; [by apply store_lookup|].
  split; [apply Hhands|]. split; [apply Hhands|].
  split; [done|]. split; [simpl; by rewrite decide_False|].
  split; [done|]. split; [done|].
  change (roomManager final) with rmF. by rewrite HroomF.
Qed.

Lemma twoCardRound_reachable : reachable twoCardRound.
Proof.
  apply (run_reachable twoCardRoundEvents newServer);
    [apply reachable_new | vm_compute; reflexivity].
Qed.

(** C6, as stated, fails: in [twoCardRound] the round is solved and the timer
    is pending, player 2 holding two cards.  The timer fires and advances
    the round, which takes the played card out of the hand; player 2 then
    selects the card it has left, and the request for the next round arrives
    late.  Both triggers have run, and the request advances a second time:
    it removes the card just selected, which was never played, so that
    player 2 has lost two cards, has none left, and the game is over. *)
Lemma late_next_round_request_removes_a_second_card :
  reachable twoCardRound
  ∧ "R" ∈ nextRoundTimers twoCardRound
  ∧ GameState.problemSolved (stateOf twoCardRound) = true
  ∧ Card.id <$> GameState.player2Hand (stateOf twoCardRound)
    = ["hearts-5-3"; "hearts-6-4"]
  ∧ Card.id <$> GameState.player2SelectedCard (stateOf twoCardRound)
    = Some "hearts-5-3"
  ∧ ∃ once final,
      run [EvTimer "R"] twoCardRound = Some once
      ∧ Card.id <$> GameState.player2Hand (stateOf once) = ["hearts-6-4"]
      ∧ run lateRequestEvents twoCardRound = Some final
      ∧ GameState.player2Hand (stateOf final) = []
      ∧ GameState.gameOver (stateOf final) = true
      ∧ GameState.history (stateOf final)
        = GameState.history (stateOf twoCardRound).
Proof.
  split; [apply twoCardRound_reachable|].
  split; [refine (bool_decide_unpack _ _); vm_compute; exact I|].
  split; [vm_compute; reflexivity|].
  split; [vm_compute; reflexivity|].
  split; [vm_compute; reflexivity|].
  eexists _, _.
  split; [vm_compute; reflexivity|].
  split; [vm_compute; reflexivity|].
  split; [vm_compute; reflexivity|].
  split; [vm_compute; reflexivity|].
  split; vm_compute; reflexivity.
Qed.

(** ** The idle-room sweep *)

(** A leave that empties a room removes the room and its game state on the
    spot. *)
Lemma leaveRoomBySocket_last_member socketId rm res rm' :
  leaveRoomBySocket socketId rm = (Some res, rm') →
  Left.remaining res = 0%nat →
  Left.deleted res = true
  ∧ getRoom (Left.roomId res) rm' = None
  ∧ gameStates rm' !! Left.roomId res = None.
Proof.
  unfold leaveRoomBySocket.
  destruct (findRoomBySocket socketId rm) as [[roomId room]|]; [|done].
  simpl. case_decide as Hrem; intros [= <- <-]; simpl; [|done].
  intros _. split; [done|]. split.
  - apply jsmap_get_del_eq.
  - apply lookup_delete_eq.
Qed.

(** C9. In every state the server can reach no room carries a
    [lastEmptyAt] stamp and no room is without members, so the condition of
    the sweep holds of no room: [garbageCollectRooms] returns the empty list
    and leaves the manager as it is, and the periodic sweep leaves the
    server as it is.  Rooms never stay empty because a leave that brings the
    member count to zero deletes the room and its game state at once. *)
Theorem garbageCollectRooms_removes_nothing (srv : Server) (now : Z) :
  reachable srv →
  garbageCollectRooms now (roomManager srv) = ([], roomManager srv)
  ∧ handle (EvGarbageCollect now) srv = Some srv
  ∧ (∀ roomId room,
        (roomId, room) ∈ rooms (roomManager srv) →
        Room.lastEmptyAt room = None
        ∧ JsMap.size (Room.players room) ≠ 0%nat)
  ∧ (∀ socketId res rm',
        leaveRoomBySocket socketId (roomManager srv) = (Some res, rm') →
        Left.remaining res = 0%nat →
        Left.deleted res = true
        ∧ getRoom (Left.roomId res) rm' = None
        ∧ gameStates rm' !! Left.roomId res = None).
Proof.
  intros Hreach. destruct (reachable_ok _ Hreach) as [Hrooms _].
  pose proof (garbageCollectRooms_noop now _ Hrooms) as Hgc.
  split; [exact Hgc|]. split.
  { simpl. unfold onGarbageCollect. rewrite Hgc. simpl. by destruct srv. }
  split.
  - intros roomId room Hin. unfold rooms_ok in Hrooms.
    rewrite Forall_forall in Hrooms.
    destruct (Hrooms _ Hin) as (Hsz & Hle & _). simpl in *. split; [done|lia].
  - intros socketId res rm'. apply leaveRoomBySocket_last_member.
Qed.

(** ** Player numbers *)

(** What does hold of the members of a room in every reachable state: there
    are one or two of them and each holds the number 1 or 2. *)
Lemma reachable_membership (srv : Server) (roomId : string) (room : Room.t) :
  reachable srv →
  (roomId, room) ∈ rooms (roomManager srv) →
  (1 ≤ JsMap.size (Room.players room) ≤ 2)%nat
  ∧ ∀ socketId player,
      (socketId, player) ∈ Room.players room →
      Player.playerNumber player = 1 ∨ Player.playerNumber player = 2.
Proof.
  intros Hreach Hin. destruct (reachable_ok _ Hreach) as [Hrooms _].
  unfold rooms_ok in Hrooms. rewrite Forall_forall in Hrooms.
  destruct (Hrooms _ Hin) as (Hsz & _ & Hpn). simpl in *. split; [done|].
  intros socketId player Hp. rewrite Forall_forall in Hpn.
  exact (Hpn _ Hp).
Qed.

(** C5, where the code departs from it. [joinRoom] gives every joiner the
    number 2: after the creator of room [R] has left, the next joiner shares
    the number 2 with the member who stayed, and nobody holds the number 1. *)
Theorem join_after_creator_left_repeats_player_number :
  ∃ srv room,
    run creatorLeftEvents newServer = Some srv
    ∧ getRoom "R" (roomManager srv) = Some room
    ∧ (λ e, (e.1, Player.playerNumber e.2)) <$> Room.players room
      = [("s2", 2); ("s3", 2)].
Proof. eexists _, _. repeat split; vm_compute; reflexivity. Qed.

(** ** Rematch requests *)

Lemma initGameState_some rand roomId options rm room :
  JsMap.get roomId (rooms rm) = Some room →
  ∃ st rm', initGameState rand roomId options rm = (Some st, rm').
Proof. intros Hg. unfold initGameState. rewrite Hg. simpl. eauto. Qed.

(** An explicit reset of an existing room leaves no pending request. *)
Lemma onResetGame_clears_pending rand roomId srv room :
  roomId ≠ EmptyString →
  getRoom roomId (roomManager srv) = Some room →
  pendingRematch roomId (onResetGame rand roomId srv) = ∅.
Proof.
  intros Hne Hroom. unfold onResetGame. rewrite decide_False by done.
  rewrite Hroom. unfold resetGameState.
  edestruct (initGameState_some rand roomId Options.empty) as (st & rm' & ->);
    [exact Hroom|].
  unfold pendingRematch. simpl. by rewrite lookup_delete_eq.
Qed.

(** The request that completes the pair resets the game and leaves no
    pending request. *)
Lemma onRequestRematch_clears_pending rand roomId playerNumber srv room :
  roomId ≠ EmptyString → playerNumber ≠ 0 →
  getRoom roomId (roomManager srv) = Some room →
  (2 ≤ size ({[playerNumber]} ∪ pendingRematch roomId srv))%nat →
  pendingRematch roomId (onRequestRematch rand roomId playerNumber srv) = ∅.
Proof.
  intros Hne Hp Hroom Hsz. unfold onRequestRematch.
  rewrite decide_False by tauto. rewrite Hroom.
  rewrite decide_True by done. simpl.
  match goal with |- context [initGameState ?r ?i ?o ?m] =>
    destruct (initGameState_some r i o m room Hroom) as (st & rm' & ->) end.
  unfold pendingRematch. simpl. by rewrite lookup_delete_eq.
Qed.

(** C8, where the code departs from it.  The rematch reset and the explicit
    reset delete the room's request set, ['startGame'] does not: the game
    started last is fresh (three cards a hand, no round, no history) and the
    request of player 1 made before it is still pending; one more request,
    by player 2, then resets that game at once. *)
Theorem startGame_keeps_pending_rematch :
  ∃ srv st srv2 st2,
    run staleRematchEvents newServer = Some srv
    ∧ gameStates (roomManager srv) !! "R" = Some st
    ∧ length (GameState.player1Hand st) = 3%nat
    ∧ GameState.roundInProgress st = false
    ∧ GameState.history st = []
    ∧ pendingRematch "R" srv = {[1]}
    ∧ run [EvCardSelected [] [] "R" 1 "hearts-2-0";
           EvRequestRematch (λ _, 0%nat) "R" 2] srv = Some srv2
    ∧ gameStates (roomManager srv2) !! "R" = Some st2
    ∧ GameState.player1SelectedCard st2 = None
    ∧ GameState.player1Hand st2 ≠ GameState.player1Hand st.
Proof.
  eexists _, _, _, _.
  repeat (split; [vm_compute; reflexivity|]).
  vm_compute. discriminate.
Qed.

(** ** The theorems at work on the scenarios *)

Lemma oneSelected_reachable : reachable oneSelected.
Proof.
  apply (run_reachable (take 4 solvedRoundEvents) newServer);
    [apply reachable_new | vm_compute; reflexivity].
Qed.

Lemma submit_correct_awards_point_witness :
  gameStates (roomManager openRound) !! "R" = Some (stateOf openRound)
  ∧ GameState.roundInProgress (stateOf openRound) = true
  ∧ GameState.problemSolved (stateOf openRound) = false
  ∧ ∃ st',
      playerSubmitAnswer 5 "R" 2 (GameState.correctAnswer (stateOf openRound))
        (roomManager openRound)
        = (SubmitAccepted st' true, store "R" st' (roomManager openRound))
      ∧ GameState.problemSolved st' = true
      ∧ GameState.solvedBy st' = Some 2.
Proof.
  assert (H1 : gameStates (roomManager openRound) !! "R"
               = Some (stateOf openRound)) by (vm_compute; reflexivity).
  assert (H2 : GameState.roundInProgress (stateOf openRound) = true)
    by (vm_compute; reflexivity).
  assert (H3 : GameState.problemSolved (stateOf openRound) = false)
    by (vm_compute; reflexivity).
  destruct (submit_correct_awards_point_both_wrong_no_solver
              (roomManager openRound) "R" (stateOf openRound) 2 5
              H1 H2 H3 (or_intror eq_refl))
    as [(st' & E & _ & _ & S3 & S4 & _) _].
  exact (conj H1 (conj H2 (conj H3
           (ex_intro _ st' (conj E (conj S3 S4)))))).
Defined.

Lemma resubmission_is_accepted_witness :
  gameStates (roomManager openRound) !! "R" = Some (stateOf openRound)
  ∧ GameState.roundInProgress (stateOf openRound) = true
  ∧ GameState.problemSolved (stateOf openRound) = false
  ∧ 10 ≠ GameState.correctAnswer (stateOf openRound)
  ∧ GameState.player2Answered (stateOf openRound) = false
  ∧ ∃ st1 st2,
      gameStates (snd (playerSubmitAnswer 5 "R" 1 10 (roomManager openRound)))
        !! "R" = Some st1
      ∧ GameState.submittedAnswers st1 !! 1 = Some (Some 10)
      ∧ GameState.submittedAnswers st2 !! 1 = Some (Some 12).
Proof.
  assert (H1 : gameStates (roomManager openRound) !! "R"
               = Some (stateOf openRound)) by (vm_compute; reflexivity).
  assert (H2 : GameState.roundInProgress (stateOf openRound) = true)
    by (vm_compute; reflexivity).
  assert (H3 : GameState.problemSolved (stateOf openRound) = false)
    by (vm_compute; reflexivity).
  assert (H4 : 10 ≠ GameState.correctAnswer (stateOf openRound))
    by (vm_compute; discriminate).
  assert (H5 : GameState.player2Answered (stateOf openRound) = false)
    by (vm_compute; reflexivity).
  destruct (resubmission_is_accepted (roomManager openRound) "R"
              (stateOf openRound) 1 10 12 5 6 H1 H2 H3 (or_introl eq_refl) H4 H5)
    as [(st1 & st2 & E1 & E2 & _ & _ & E5 & _) _].
  exact (conj H1 (conj H2 (conj H3 (conj H4 (conj H5
           (ex_intro _ st1 (ex_intro _ st2 (conj E1 (conj E2 E5))))))))).
Defined.

Lemma nextRound_removes_selected_cards_witness :
  reachable solvedRound
  ∧ gameStates (roomManager solvedRound) !! "R" = Some (stateOf solvedRound)
  ∧ ∃ st',
      nextRound "R" (roomManager solvedRound)
        = (Some st', store "R" st' (roomManager solvedRound))
      ∧ (GameState.gameOver st' = true
         ↔ GameState.player1Hand st' = [] ∨ GameState.player2Hand st' = []).
Proof.
  assert (H1 : gameStates (roomManager solvedRound) !! "R"
               = Some (stateOf solvedRound)) by (vm_compute; reflexivity).
  destruct (nextRound_removes_selected_cards_and_settles_winner
              solvedRound "R" (stateOf solvedRound) solvedRound_reachable H1)
    as (st' & E & _ & _ & G & _).
  exact (conj solvedRound_reachable (conj H1 (ex_intro _ st' (conj E G)))).
Defined.

Lemma selecting_both_cards_witness :
  reachable oneSelected
  ∧ gameStates (roomManager oneSelected) !! "R" = Some (stateOf oneSelected)
  ∧ default false
      (Room.transitioning <$> JsMap.get "R" (rooms (roomManager oneSelected)))
    = false
  ∧ selectionsAfter 2 "hearts-4-2" (stateOf oneSelected)
    = (Some (Card.mk "hearts-3-1" 3 "hearts"),
       Some (Card.mk "hearts-4-2" 4 "hearts"))
  ∧ enoughDraws (3 * 4) [(0, true); (1, true); (2, true)]%nat
  ∧ is_Some (playerSelectCard [(0, true); (1, true); (2, true)]%nat [] "R" 2
               "hearts-4-2" (roomManager oneSelected)).
Proof.
  assert (H1 : gameStates (roomManager oneSelected) !! "R"
               = Some (stateOf oneSelected)) by (vm_compute; reflexivity).
  assert (H2 : default false
                 (Room.transitioning
                    <$> JsMap.get "R" (rooms (roomManager oneSelected)))
               = false) by (vm_compute; reflexivity).
  assert (H3 : selectionsAfter 2 "hearts-4-2" (stateOf oneSelected)
               = (Some (Card.mk "hearts-3-1" 3 "hearts"),
                  Some (Card.mk "hearts-4-2" 4 "hearts")))
    by (vm_compute; reflexivity).
  destruct (selecting_both_cards_generates_product_and_four_options
              oneSelected "R" (stateOf oneSelected) 2 "hearts-4-2"
              (Card.mk "hearts-3-1" 3 "hearts") (Card.mk "hearts-4-2" 4 "hearts")
              oneSelected_reachable H1 H2 H3)
    as (_ & Htotal & Henough & _).
  exact (conj oneSelected_reachable (conj H1 (conj H2 (conj H3
           (conj Henough (Htotal _ [] Henough)))))).
Defined.

Lemma initGameState_deals_witness :
  JsMap.get "R" (rooms (roomManager lobby)) = Some (roomOf lobby)
  ∧ 1 ≤ 5 ∧ 2 * 5 ≤ 44
  ∧ ∃ st,
      fst (initGameState (λ i, (7 * i)%nat) "R" (Options.mk (Some "easy") (Some 5))
             (roomManager lobby)) = Some st
      ∧ Z.of_nat (length (GameState.player1Hand st)) = 5
      ∧ Z.of_nat (length (GameState.player2Hand st)) = 5
      ∧ NoDup (Card.id <$>
                 (GameState.player1Hand st ++ GameState.player2Hand st)).
Proof.
  assert (H1 : JsMap.get "R" (rooms (roomManager lobby)) = Some (roomOf lobby))
    by (vm_compute; reflexivity).
  assert (H2 : 1 ≤ 5) by lia. assert (H3 : 2 * 5 ≤ 44) by lia.
  destruct (initGameState_deals_two_disjoint_hands (λ i, (7 * i)%nat) "R"
              (roomOf lobby) (Options.mk (Some "easy") (Some 5))
              (roomManager lobby) 5 H1 eq_refl H2 H3)
    as (_ & _ & _ & st & E & _ & _ & L1 & L2 & _ & N & _).
  exact (conj H1 (conj H2 (conj H3
           (ex_intro _ st (conj E (conj L1 (conj L2 N))))))).
Defined.


Lemma select_while_transitioning_witness :
  JsMap.get "R" (rooms (roomManager solvedRoundAfterLeave))
    = Some (roomOf solvedRoundAfterLeave)
  ∧ Room.transitioning (roomOf solvedRoundAfterLeave) = true
  ∧ gameStates (roomManager solvedRoundAfterLeave) !! "R"
    = Some (stateOf solvedRoundAfterLeave)
  ∧ GameState.currentProblem
      (GameState.set_playersConnected
         (JsMap.size (Room.players (roomOf solvedRoundAfterLeave)))
         (stateOf solvedRoundAfterLeave))
    = GameState.currentProblem (stateOf solvedRoundAfterLeave).
Proof.
  assert (H1 : JsMap.get "R" (rooms (roomManager solvedRoundAfterLeave))
               = Some (roomOf solvedRoundAfterLeave))
    by (vm_compute; reflexivity).
  assert (H2 : Room.transitioning (roomOf solvedRoundAfterLeave) = true)
    by (vm_compute; reflexivity).
  assert (H3 : gameStates (roomManager solvedRoundAfterLeave) !! "R"
               = Some (stateOf solvedRoundAfterLeave))
    by (vm_compute; reflexivity).
  destruct (select_while_transitioning_only_refreshes_playersConnected
              [] [] (roomManager solvedRoundAfterLeave) "R"
              (roomOf solvedRoundAfterLeave)
              (stateOf solvedRoundAfterLeave) 1 "hearts-3-1" H1 H2 H3)
    as (_ & _ & _ & _ & E & _).
  exact (conj H1 (conj H2 (conj H3 E))).
Defined.

Lemma garbageCollectRooms_removes_nothing_witness :
  reachable solvedRound
  ∧ garbageCollectRooms 1000000000 (roomManager solvedRound)
    = ([], roomManager solvedRound).
Proof.
  exact (conj solvedRound_reachable
           (proj1 (garbageCollectRooms_removes_nothing solvedRound 1000000000
                     solvedRound_reachable))).
Defined.

(** * More properties of the manager *)

(** ** Joining, leaving, status *)

Lemma jsmap_get_del_ne {K V} `{EqDecision K} (k k' : K) (m : list (K * V)) :
  k ≠ k' → JsMap.get k' (JsMap.del k m) = JsMap.get k' m.
Proof.
  intros Hne. induction m as [|[k0 v0] m IH]; simpl; [done|].
  destruct (decide (k = k0)) as [->|].
  - by rewrite IH, (decide_False (P := k' = k0)) by done.
  - simpl. by rewrite IH.
Qed.

Lemma jsmap_has_get {K V} `{EqDecision K} (k : K) (m : list (K * V)) :
  JsMap.has k m = true ↔ is_Some (JsMap.get k m).
Proof.
  unfold JsMap.has.
  destruct (JsMap.get k m); split;
    first [done | by eexists | by intros [? ?]].
Qed.

(** X1. [joinRoom] fails in exactly two cases, an unknown room id and a room
    that already has two members, and a failed join changes nothing.  A
    successful join records the joiner under its socket as player 2 in the
    lobby, leaves the other members, the other rooms and the game states as
    they were, and acknowledges with [playerNumber = 2] and
    [otherPlayerConnected = true]. *)
Theorem joinRoom_outcome
    (playerId : string) (now : Z) (roomId socketId : string)
    (rm : RoomManager) :
  match joinRoom playerId now roomId socketId rm with
  | (JoinError e, rm') =>
      rm' = rm
      ∧ ((getRoom roomId rm = None ∧ e = "Room not found")
         ∨ (∃ room, getRoom roomId rm = Some room
                    ∧ (2 ≤ JsMap.size (Room.players room))%nat
                    ∧ e = "Room is full"))
  | (JoinOk room ack, rm') =>
      ∃ room0,
        getRoom roomId rm = Some room0
        ∧ (JsMap.size (Room.players room0) < 2)%nat
        ∧ getRoom roomId rm' = Some room
        ∧ JsMap.get socketId (Room.players room)
          = Some (Player.mk playerId 2 socketId "lobby")
        ∧ (∀ s, s ≠ socketId →
                JsMap.get s (Room.players room)
                = JsMap.get s (Room.players room0))
        ∧ ack = Ack.mk roomId (Room.name room0) playerId 2 true
        ∧ gameStates rm' = gameStates rm
        ∧ (∀ rid, rid ≠ roomId → getRoom rid rm' = getRoom rid rm)
  end.
Proof.
  unfold joinRoom, getRoom.
  destruct (JsMap.get roomId (rooms rm)) as [room0|] eqn:Hg.
  - case_decide as Hfull.
    + split; [done|]. right. eauto.
    + exists room0. simpl. split; [done|]. split; [lia|].
      split; [apply jsmap_get_set_eq|]. split; [apply jsmap_get_set_eq|].
      split; [intros s Hs; by apply jsmap_get_set_ne|].
      split; [done|]. split; [done|].
      intros rid Hrid. by apply jsmap_get_set_ne.
  - split; [done|]. by left.
Qed.

(** X2. A room just created holds its creator as player 1; a second,
    different connection joins as player 2 and is told the other player is
    connected; from then on every join of that room fails with "Room is
    full" and changes nothing. *)
Theorem create_then_join_fills_the_room
    (roomId p1 roomName : string) (now : Z) (s1 p2 : string) (now2 : Z)
    (s2 : string) (rm : RoomManager) :
  s1 ≠ s2 →
  let rm1 := snd (createRoom roomId p1 roomName now s1 rm) in
  ∃ room ack rm2,
    joinRoom p2 now2 roomId s2 rm1 = (JoinOk room ack, rm2)
    ∧ (λ e, (e.1, Player.playerNumber e.2)) <$> Room.players room
      = [(s1, 1); (s2, 2)]
    ∧ Ack.playerNumber ack = 2
    ∧ Ack.otherPlayerConnected ack = true
    ∧ ∀ p3 now3 s3,
        joinRoom p3 now3 roomId s3 rm2 = (JoinError "Room is full", rm2).
Proof.
  intros Hne rm1. subst rm1. unfold joinRoom at 1. simpl.
  rewrite jsmap_get_set_eq. simpl.
  rewrite (decide_False (P := s2 = s1)) by done.
  eexists _, _, _. split; [reflexivity|]. simpl.
  split; [done|]. split; [done|]. split; [done|].
  intros p3 now3 s3. unfold joinRoom. simpl. by rewrite jsmap_get_set_eq.
Qed.

(** X3. [joinRoom] does not look at who is joining: when the creator's own
    connection joins the room it has just created, its record is replaced;
    the room still has one member, and that member is now player 2. *)
Theorem creator_joining_own_room_becomes_player_two
    (roomId p1 roomName : string) (now : Z) (s p2 : string) (now2 : Z)
    (rm : RoomManager) :
  ∃ room ack rm2,
    joinRoom p2 now2 roomId s
      (snd (createRoom roomId p1 roomName now s rm))
      = (JoinOk room ack, rm2)
    ∧ Room.players room = [(s, Player.mk p2 2 s "lobby")]
    ∧ getRoom roomId rm2 = Some room.
Proof.
  unfold joinRoom, getRoom. simpl. rewrite jsmap_get_set_eq. simpl.
  rewrite decide_True by done.
  eexists _, _, _. split; [reflexivity|]. simpl. split; [done|].
  apply jsmap_get_set_eq.
Qed.

Lemma findRoomBySocket_in_None socketId rs :
  findRoomBySocket_in socketId rs = None →
  ∀ roomId room, (roomId, room) ∈ rs →
                 JsMap.get socketId (Room.players room) = None.
Proof.
  induction rs as [|[rid r] rs IH]; simpl; intros Hf roomId room Hin.
  - by apply elem_of_nil in Hin.
  - destruct (JsMap.has socketId (Room.players r)) eqn:Hhas; [done|].
    apply elem_of_cons in Hin as [[= -> ->]|Hin]; [|by eapply IH].
    destruct (JsMap.get socketId (Room.players r)) eqn:Hg; [|done].
    unfold JsMap.has in Hhas. by rewrite Hg in Hhas.
Qed.

(** X4. [leaveRoomBySocket] returns [null], and changes nothing, exactly
    when no room has the socket.  Otherwise it takes the socket out of one
    room that had it: when members remain the room stays, without that
    socket, and [remaining] is its member count; when none remains the room
    and its game state are gone and [deleted] is set.  No other room and no
    other game state is touched, also when the socket sits in several
    rooms. *)
Theorem leaveRoomBySocket_outcome (socketId : string) (rm : RoomManager) :
  match leaveRoomBySocket socketId rm with
  | (None, rm') =>
      rm' = rm
      ∧ ∀ roomId room, (roomId, room) ∈ rooms rm →
                       JsMap.get socketId (Room.players room) = None
  | (Some res, rm') =>
      (∃ room, (Left.roomId res, room) ∈ rooms rm
               ∧ is_Some (JsMap.get socketId (Room.players room)))
      ∧ (Left.deleted res = true ↔ Left.remaining res = 0%nat)
      ∧ match getRoom (Left.roomId res) rm' with
        | Some room' =>
            Left.deleted res = false
            ∧ JsMap.get socketId (Room.players room') = None
            ∧ JsMap.size (Room.players room') = Left.remaining res
            ∧ gameStates rm' = gameStates rm
        | None =>
            Left.deleted res = true
            ∧ gameStates rm' !! Left.roomId res = None
        end
      ∧ (∀ rid, rid ≠ Left.roomId res →
                getRoom rid rm' = getRoom rid rm
                ∧ gameStates rm' !! rid = gameStates rm !! rid)
  end.
Proof.
  unfold leaveRoomBySocket, findRoomBySocket.
  destruct (findRoomBySocket_in socketId (rooms rm)) as [[roomId room]|] eqn:Hf.
  - apply findRoomBySocket_in_elem in Hf as [Hin Hhas].
    apply jsmap_has_get in Hhas. simpl.
    case_decide as Hrem; simpl.
    + split; [eauto|]. split; [done|]. unfold getRoom. simpl.
      rewrite jsmap_get_del_eq. split; [by rewrite lookup_delete_eq|].
      intros rid Hrid. rewrite jsmap_get_del_ne by done.
      by rewrite lookup_delete_ne.
    + split; [eauto|]. split; [done|]. unfold getRoom. simpl.
      rewrite jsmap_get_set_eq.
      split.
      { destruct (truthy_num (Room.lastEmptyAt room)); simpl;
          (split; [done|]); (split; [apply jsmap_get_del_eq|]); done. }
      intros rid Hrid. by rewrite jsmap_get_set_ne.
  - split; [done|]. by apply findRoomBySocket_in_None.
Qed.

(** X5. [setPlayerStatus] answers [false], and changes nothing, when the
    room is unknown or the socket is not a member of it.  Otherwise it
    answers [true] and the only change is the status of that member: its
    other fields, the other members, the member count, the other rooms and
    the game states are as before. *)
Theorem setPlayerStatus_outcome
    (roomId socketId status : string) (rm : RoomManager) :
  match setPlayerStatus roomId socketId status rm with
  | (false, rm') =>
      rm' = rm
      ∧ (getRoom roomId rm = None
         ∨ ∃ room, getRoom roomId rm = Some room
                   ∧ JsMap.get socketId (Room.players room) = None)
  | (true, rm') =>
      ∃ room p room',
        getRoom roomId rm = Some room
        ∧ JsMap.get socketId (Room.players room) = Some p
        ∧ getRoom roomId rm' = Some room'
        ∧ JsMap.get socketId (Room.players room')
          = Some (Player.mk (Player.playerId p) (Player.playerNumber p)
                    (Player.socketId p) status)
        ∧ (∀ s, s ≠ socketId →
                JsMap.get s (Room.players room')
                = JsMap.get s (Room.players room))
        ∧ JsMap.size (Room.players room') = JsMap.size (Room.players room)
        ∧ gameStates rm' = gameStates rm
        ∧ (∀ rid, rid ≠ roomId → getRoom rid rm' = getRoom rid rm)
  end.
Proof.
  unfold setPlayerStatus, getRoom.
  destruct (JsMap.get roomId (rooms rm)) as [room|] eqn:Hg; [|by split; [|left]].
  destruct (JsMap.get socketId (Room.players room)) as [p|] eqn:Hp.
  - exists room, p. eexists. simpl. split; [done|]. split; [done|].
    split; [apply jsmap_get_set_eq|]. simpl.
    split; [apply jsmap_get_set_eq|].
    split; [intros s Hs; by apply jsmap_get_set_ne|].
    split; [apply jsmap_size_set_has; eauto|]. split; [done|].
    intros rid Hrid. by apply jsmap_get_set_ne.
  - split; [done|]. right. eauto.
Qed.

(** X6. [createRoom] never fails and never checks the generated id: the
    room stored under the id has the caller as its only member, player 1,
    in the lobby, whatever was stored under that id before; the other rooms
    are untouched, and so are all game states, so that after an id collision
    the game state of the replaced room is what [getGameState] returns for
    the new one. *)
Theorem createRoom_outcome
    (roomId playerId roomName : string) (now : Z) (socketId : string)
    (rm : RoomManager) :
  let '((room, ack), rm') :=
    createRoom roomId playerId roomName now socketId rm in
  getRoom roomId rm' = Some room
  ∧ Room.players room = [(socketId, Player.mk playerId 1 socketId "lobby")]
  ∧ Room.transitioning room = false
  ∧ ack = Ack.mk roomId roomName playerId 1 false
  ∧ (∀ rid, rid ≠ roomId → getRoom rid rm' = getRoom rid rm)
  ∧ (∀ rid, getGameState rid rm' = getGameState rid rm)
  ∧ (JsMap.size (rooms rm) ≤ JsMap.size (rooms rm') ≤ S (JsMap.size (rooms rm)))%nat.
Proof.
  unfold getRoom, getGameState. simpl.
  split; [apply jsmap_get_set_eq|]. split; [done|]. split; [done|].
  split; [done|]. split; [intros rid Hrid; by apply jsmap_get_set_ne|].
  split; [done|].
  destruct (JsMap.get roomId (rooms rm)) as [r|] eqn:Hg.
  - rewrite jsmap_size_set_has by eauto. lia.
  - split; [|apply jsmap_size_set].
    clear Hg. unfold JsMap.size. induction (rooms rm) as [|[k v] l IH]; simpl;
      [lia|]. case_decide; simpl; lia.
Qed.

(** ** Dealing and resetting *)

Lemma truthy_num_nonzero (x : option Z) (n : Z) : truthy_num x = Some n → n ≠ 0.
Proof.
  destruct x as [m|]; simpl; [|done]. case_decide; [done|]. by intros [= <-].
Qed.

Lemma difficultyDefaults_nonzero (d : string) (n : Z) :
  difficultyDefaults d = Some n → n ≠ 0.
Proof.
  unfold difficultyDefaults. repeat case_decide; intros [= <-]; done.
Qed.

(** X7. For a room that exists [initGameState] always deals, whatever hand
    size it is given, as long as the difficulty is not the name of a
    property every object inherits (for such a name the lookup in the table
    of defaults finds an inherited function, which is left out here).  The
    difficulty is the option's, else the room's, else easy; the hand size is
    the option's, else the room's, else the default of the difficulty, else
    6, an empty difficulty and a size 0 counting as missing, so the size it
    records is never 0.  The first hand has that many cards, at most 44; the
    second hand has that many of what is left, so it is short once the size
    exceeds 22 and empty from 44 on; a negative size deals nothing.  The two
    hands never share a card id.  The state counts the room's members, every
    member is put in status [in-game], and the room remembers the difficulty
    and the hand size. *)
Theorem initGameState_deals_within_the_deck
    (rand : nat → nat) (roomId : string) (room : Room.t)
    (options : Options.t) (rm : RoomManager) :
  getRoom roomId rm = Some room →
  default "easy"
    (truthy_str (Options.difficulty options)
       ∪ truthy_str (Room.difficulty room)) ∉ Object_prototype_keys →
  ∃ st room',
    fst (initGameState rand roomId options rm) = Some st
    ∧ getGameState roomId (snd (initGameState rand roomId options rm)) = Some st
    ∧ getRoom roomId (snd (initGameState rand roomId options rm)) = Some room'
    ∧ GameState.difficulty st
      = default "easy"
          (truthy_str (Options.difficulty options)
             ∪ truthy_str (Room.difficulty room))
    ∧ GameState.initialCards st
      = default 6
          (truthy_num (Options.initialCards options)
             ∪ truthy_num (Room.initialCards room)
             ∪ truthy_num (difficultyDefaults (GameState.difficulty st)))
    ∧ GameState.initialCards st ≠ 0
    ∧ length (GameState.player1Hand st)
      = (Z.to_nat (GameState.initialCards st) `min` 44)%nat
    ∧ length (GameState.player2Hand st)
      = (Z.to_nat (GameState.initialCards st)
           `min` (44 - length (GameState.player1Hand st)))%nat
    ∧ NoDup (Card.id <$>
               (GameState.player1Hand st ++ GameState.player2Hand st))
    ∧ GameState.playersConnected st = JsMap.size (Room.players room)
    ∧ Room.difficulty room' = Some (GameState.difficulty st)
    ∧ Room.initialCards room' = Some (GameState.initialCards st)
    ∧ Room.players room'
      = (λ e, (e.1, Player.mk (Player.playerId e.2) (Player.playerNumber e.2)
                      (Player.socketId e.2) "in-game"))
          <$> Room.players room.
Proof.
  unfold getRoom, getGameState. intros Hroom _.
  unfold initGameState. rewrite Hroom. simpl.
  eexists _, _. split; [reflexivity|]. split; [apply lookup_insert_eq|].
  split; [apply jsmap_get_set_eq|]. simpl.
  pose proof (shuffle_Permutation rand buildDeck) as Hperm.
  pose proof (Permutation_length Hperm) as Hlen. rewrite buildDeck_length in Hlen.
  set (deck := shuffle rand buildDeck) in *.
  split; [done|]. split; [done|].
  set (n := default 6 _).
  split.
  { subst n.
    destruct (truthy_num (Options.initialCards options)) as [x|] eqn:E1;
      [apply truthy_num_nonzero in E1|];
      (destruct (truthy_num (Room.initialCards room)) as [y|] eqn:E2;
        [apply truthy_num_nonzero in E2|]);
      (destruct (truthy_num (difficultyDefaults _)) as [z|] eqn:E3;
        [apply truthy_num_nonzero in E3|]);
      cbv [union option_union union_with option_union_with default]; done. }
  split; [rewrite length_take; lia|].
  split; [rewrite length_take, length_drop, length_take; lia|].
  split.
  { edestruct (dealt_state_ok n deck) as [Hnd _]; [exact Hperm|done|done|done]. }
  split; [done|]. split; [done|]. split; [done|].
  apply list_fmap_ext. by intros i [k p] _.
Qed.

Lemma truthy_str_Some (s : string) : s ≠ EmptyString → truthy_str (Some s) = Some s.
Proof. intros. simpl. by rewrite decide_False. Qed.

Lemma truthy_num_Some (n : Z) : n ≠ 0 → truthy_num (Some n) = Some n.
Proof. intros. simpl. by rewrite decide_False. Qed.

Lemma option_union_Some_l {A} (x : A) (y : option A) : Some x ∪ y = Some x.
Proof. by destruct y. Qed.

Lemma option_union_None_l {A} (y : option A) : None ∪ y = y.
Proof. by destruct y. Qed.

Lemma initGameState_fresh rand roomId room options rm :
  JsMap.get roomId (rooms rm) = Some room →
  ∃ st room',
    initGameState rand roomId options rm
      = (Some st,
         mkRoomManager (JsMap.set roomId room' (rooms rm))
           (<[roomId := st]> (gameStates rm)) (roomTTLMs rm))
    ∧ GameState.difficulty st
      = default "easy"
          (truthy_str (Options.difficulty options)
             ∪ truthy_str (Room.difficulty room))
    ∧ GameState.initialCards st
      = default 6
          (truthy_num (Options.initialCards options)
             ∪ truthy_num (Room.initialCards room)
             ∪ truthy_num (difficultyDefaults (GameState.difficulty st)))
    ∧ Room.difficulty room' = Some (GameState.difficulty st)
    ∧ Room.initialCards room' = Some (GameState.initialCards st)
    ∧ GameState.player1Score st = 0 ∧ GameState.player2Score st = 0
    ∧ GameState.player1SelectedCard st = None
    ∧ GameState.player2SelectedCard st = None
    ∧ GameState.currentProblem st = None
    ∧ GameState.roundInProgress st = false
    ∧ GameState.gameOver st = false
    ∧ GameState.history st = []
    ∧ length (GameState.player1Hand st)
      = (Z.to_nat (GameState.initialCards st) `min` 44)%nat
    ∧ Room.transitioning room' = Room.transitioning room
    ∧ JsMap.size (Room.players room') = JsMap.size (Room.players room).
Proof.
  intros Hroom. unfold initGameState. rewrite Hroom. simpl.
  eexists _, _. split; [reflexivity|]. simpl.
  do 12 (split; [done|]).
  split; [|split; [done|unfold JsMap.size; by rewrite length_fmap]].
  pose proof (Permutation_length (shuffle_Permutation rand buildDeck)) as Hlen.
  rewrite buildDeck_length in Hlen. rewrite length_take. lia.
Qed.

(** X8. The room remembers its configuration: after a game has been
    initialised with a difficulty and a hand size, [resetGameState], which
    passes no options, deals again with the same difficulty and the same
    hand size, and the state it stores is a fresh one: no score, no
    selection, no problem, no history, and both control flags off. *)
Theorem resetGameState_reuses_the_configuration
    (rand rand' : nat → nat) (roomId : string) (room : Room.t)
    (difficulty : string) (n : Z) (rm : RoomManager) :
  getRoom roomId rm = Some room →
  difficulty ≠ EmptyString →
  n ≠ 0 →
  let rm1 :=
    snd (initGameState rand roomId (Options.mk (Some difficulty) (Some n)) rm) in
  ∃ st,
    fst (resetGameState rand' roomId rm1) = Some st
    ∧ getGameState roomId (snd (resetGameState rand' roomId rm1)) = Some st
    ∧ GameState.difficulty st = difficulty
    ∧ GameState.initialCards st = n
    ∧ GameState.player1Score st = 0 ∧ GameState.player2Score st = 0
    ∧ GameState.player1SelectedCard st = None
    ∧ GameState.player2SelectedCard st = None
    ∧ GameState.currentProblem st = None
    ∧ GameState.roundInProgress st = false
    ∧ GameState.gameOver st = false
    ∧ GameState.history st = []
    ∧ GameState.dealComplete st = false
    ∧ GameState.advanceClients st = false.
Proof.
  intros Hroom Hd Hn rm1. subst rm1. unfold getRoom, getGameState in *.
  destruct (initGameState_fresh rand roomId room
              (Options.mk (Some difficulty) (Some n)) rm Hroom)
    as (st1 & room1 & -> & Hd1 & Hn1 & Hrd & Hrn & _).
  cbn [snd Options.difficulty Options.initialCards] in *.
  rewrite truthy_str_Some in Hd1 by done.
  rewrite truthy_num_Some in Hn1 by done.
  rewrite !option_union_Some_l in Hd1. rewrite !option_union_Some_l in Hn1.
  simpl in Hd1, Hn1.
  rewrite Hd1 in Hrd. rewrite Hn1 in Hrn.
  unfold resetGameState.
  set (rm1 := set_gameStates _ _).
  assert (Hroom1 : JsMap.get roomId (rooms rm1) = Some room1)
    by apply jsmap_get_set_eq.
  destruct (initGameState_fresh rand' roomId room1 Options.empty rm1 Hroom1)
    as (st2 & room2 & -> & Hd2 & Hn2 & _ & _ & Hrest).
  rewrite Hrd, Hrn in *.
  cbn [Options.difficulty Options.initialCards Options.empty] in *.
  rewrite truthy_str_Some in Hd2 by done.
  rewrite truthy_num_Some in Hn2 by done.
  cbn [truthy_str truthy_num] in Hd2, Hn2.
  rewrite !option_union_None_l in Hd2. rewrite !option_union_None_l in Hn2.
  rewrite !option_union_Some_l in Hn2.
  simpl in Hd2, Hn2.
  eexists. split; [reflexivity|]. split; [apply lookup_insert_eq|].
  destruct Hrest as (? & ? & ? & ? & ? & ? & ? & ? & _).
  destruct st2; simpl in *. subst. done.
Qed.

(** ** Selections that start no round *)

(** X9. As long as a selection leaves one of the two players without a
    card, which includes the selection of a card that is not in the caller's
    hand, no problem is generated and no random number is drawn: the caller's
    selection is replaced by the result of the lookup (so an unknown id
    clears it), the equation is masked, and the round fields, the answers
    recorded, the scores, the hands and the history are untouched. *)
Theorem select_without_both_cards_starts_no_round
    (draws : list (nat * bool)) (picks : list nat) (rm : RoomManager)
    (roomId : string) (st : GameState.t) (p : Z) (cardId : string) :
  gameStates rm !! roomId = Some st →
  default false (Room.transitioning <$> JsMap.get roomId (rooms rm)) = false →
  (selectionsAfter p cardId st).1 = None
  ∨ (selectionsAfter p cardId st).2 = None →
  ∃ st',
    playerSelectCard draws picks roomId p cardId rm
      = Some (Some st', store roomId st' rm)
    ∧ (GameState.player1SelectedCard st', GameState.player2SelectedCard st')
      = selectionsAfter p cardId st
    ∧ GameState.revealEquation st' = false
    ∧ GameState.roundInProgress st' = GameState.roundInProgress st
    ∧ GameState.problemSolved st' = GameState.problemSolved st
    ∧ GameState.currentProblem st' = GameState.currentProblem st
    ∧ GameState.answerOptions st' = GameState.answerOptions st
    ∧ GameState.correctAnswer st' = GameState.correctAnswer st
    ∧ GameState.submittedAnswers st' = GameState.submittedAnswers st
    ∧ GameState.player1Score st' = GameState.player1Score st
    ∧ GameState.player2Score st' = GameState.player2Score st
    ∧ GameState.player1Hand st' = GameState.player1Hand st
    ∧ GameState.player2Hand st' = GameState.player2Hand st
    ∧ GameState.history st' = GameState.history st.
Proof.
  intros Hst Htr Hsel. unfold playerSelectCard. rewrite Hst, Htr.
  unfold selectionsAfter in *.
  case_decide; simpl in *.
  - destruct (findCard cardId (GameState.player1Hand st)) as [c1|];
      destruct (GameState.player2SelectedCard st) as [c2|] eqn:E2;
      try (by destruct Hsel);
      eexists; (split; [reflexivity|]); simpl; by rewrite ?E2.
  - destruct (GameState.player1SelectedCard st) as [c1|] eqn:E1;
      destruct (findCard cardId (GameState.player2Hand st)) as [c2|];
      try (by destruct Hsel);
      eexists; (split; [reflexivity|]); simpl; by rewrite ?E1.
Qed.

(** X10. A selection that leaves both players with a card starts a round
    whatever the round state was: as soon as the draws bring three new
    values, which some draws do, the call returns, an open round is
    restarted and a solved one reopened, the answered flags and the recorded
    answers of both players are wiped and the equation is revealed; the
    scores, the hands and the history are not touched. *)
Theorem select_with_both_cards_restarts_the_round
    (rm : RoomManager) (roomId : string) (st : GameState.t) (p : Z)
    (cardId : string) (c1 c2 : Card.t) :
  gameStates rm !! roomId = Some st →
  state_ok st →
  default false (Room.transitioning <$> JsMap.get roomId (rooms rm)) = false →
  selectionsAfter p cardId st = (Some c1, Some c2) →
  (∀ draws picks,
     enoughDraws (Card.value c1 * Card.value c2) draws →
     ∃ st',
       playerSelectCard draws picks roomId p cardId rm
         = Some (Some st', store roomId st' rm)
       ∧ GameState.roundInProgress st' = true
       ∧ GameState.problemSolved st' = false
       ∧ GameState.solvedBy st' = None
       ∧ GameState.player1Answered st' = false
       ∧ GameState.player2Answered st' = false
       ∧ GameState.submittedAnswers st' = noAnswers
       ∧ GameState.revealEquation st' = true
       ∧ GameState.player1Score st' = GameState.player1Score st
       ∧ GameState.player2Score st' = GameState.player2Score st
       ∧ GameState.player1Hand st' = GameState.player1Hand st
       ∧ GameState.player2Hand st' = GameState.player2Hand st
       ∧ GameState.history st' = GameState.history st)
  ∧ enoughDraws (Card.value c1 * Card.value c2)
      [(0, true); (1, true); (2, true)]%nat.
Proof.
  intros Hst (_ & Hv & Hs1 & Hs2) Htr Hsel.
  assert (Hval : 2 ≤ Card.value c1 ≤ 12 ∧ 2 ≤ Card.value c2 ≤ 12).
  { rewrite Forall_app, !Forall_forall in Hv. destruct Hv as [Hv1 Hv2].
    unfold selectionsAfter in Hsel.
    case_decide; injection Hsel as H1 H2.
    - apply findCard_elem in H1 as [H1 _]. split; [apply Hv1|apply Hv2]; auto.
    - apply findCard_elem in H2 as [H2 _]. split; [apply Hv1|apply Hv2]; auto. }
  split.
  - intros draws picks Hen.
    destruct (buildAnswerOptions_total draws picks _ Hen) as [opts Hopts].
    pose proof Hsel as Hsel'. unfold selectionsAfter in Hsel'.
    unfold playerSelectCard. rewrite Hst, Htr.
    case_decide; simpl in *; injection Hsel' as -> ->; simpl;
      rewrite Hopts; simpl; eexists; (split; [reflexivity|]); simpl; done.
  - unfold enoughDraws.
    assert (Hc : 4 ≤ Card.value c1 * Card.value c2) by nia.
    revert Hc. generalize (Card.value c1 * Card.value c2). intros c Hc.
    replace (c :: (wrongAnswer c <$> [(0, true); (1, true); (2, true)]%nat))
      with [c; c + 1; c + 2; c + 3]
      by (unfold wrongAnswer, random_below; simpl; repeat f_equal; lia).
    rewrite size_list_to_set; [simpl; lia|].
    repeat (apply NoDup_cons; split;
            [rewrite ?elem_of_cons, elem_of_nil; lia|]).
    apply NoDup_nil_2.
Qed.

(** ** Numbers *)

(** X11. For a correct answer on which the additions are exact, a wrong
    option is at least 1 and lies within 20 of the correct answer, up to the
    clamp at 1; it differs from the correct answer unless the correct answer
    is 1, the one case where the clamp can bring it back onto the correct
    answer. *)
Theorem wrongAnswer_range (c : Z) (d : nat * bool) :
  exactAnswer c →
  1 ≤ wrongAnswer c d
  ∧ Z.max 1 (c - 20) ≤ wrongAnswer c d ≤ Z.max 1 (c + 20)
  ∧ (wrongAnswer c d = c → c = 1)
  ∧ wrongAnswer 1 (d.1, false) = 1.
Proof.
  intros _. unfold wrongAnswer, random_below. simpl.
  pose proof (Nat.mod_upper_bound d.1 20).
  destruct d.2; repeat split; lia.
Qed.

Lemma of_count_picked (vals : list (option Z)) :
  Js.pickNumber (Js.of_count <$> vals) = Qc_of_Z <$> pickNumber vals.
Proof.
  induction vals as [|[z|] vals IH]; [done| |exact IH]. csimpl.
  destruct (decide (z > 0)) as [Hz|Hz].
  - rewrite decide_True; [done|]. apply (proj1 (Z2Qc_inj_lt 0 z)). lia.
  - rewrite decide_False; [exact IH|].
    intros Hq. apply (proj2 (Z2Qc_inj_lt 0 z)) in Hq. lia.
Qed.

(** X12. [pickNumber] returns the first of its arguments that is a finite
    number greater than zero: what it returns is positive, each argument
    before it is not a number, not finite, or not positive, and it returns
    [null] exactly when no argument is a finite positive number; so an
    infinity is passed over.  On arguments that are missing or integers it
    is the [pickNumber] the handlers above use. *)
Theorem pickNumber_first_positive (vals : list Js.value) :
  match Js.pickNumber vals with
  | Some x =>
      Qcanon.Qclt (Qc_of_Z 0) x
      ∧ ∃ before after,
          vals = before ++ Js.number x :: after
          ∧ Forall (λ v, ∀ y, v = Js.number y → ¬ Qcanon.Qclt (Qc_of_Z 0) y)
              before
  | None =>
      Forall (λ v, ∀ y, v = Js.number y → ¬ Qcanon.Qclt (Qc_of_Z 0) y) vals
  end
  ∧ (∀ sign, Js.pickNumber (Js.infinity sign :: vals) = Js.pickNumber vals)
  ∧ Js.pickNumber (Js.nan :: vals) = Js.pickNumber vals
  ∧ Js.pickNumber (Js.other :: vals) = Js.pickNumber vals
  ∧ ∀ counts : list (option Z),
      Js.pickNumber (Js.of_count <$> counts) = Qc_of_Z <$> pickNumber counts.
Proof.
  split; [|split; [done|split; [done|split; [done|apply of_count_picked]]]].
  induction vals as [|v vals IH]; simpl; [constructor|].
  assert (Hskip : (∀ y, v = Js.number y → ¬ Qcanon.Qclt (Qc_of_Z 0) y) →
    match Js.pickNumber vals with
    | Some x =>
        Qcanon.Qclt (Qc_of_Z 0) x
        ∧ ∃ before after,
            v :: vals = before ++ Js.number x :: after
            ∧ Forall (λ v, ∀ y, v = Js.number y → ¬ Qcanon.Qclt (Qc_of_Z 0) y)
                before
    | None =>
        Forall (λ v, ∀ y, v = Js.number y → ¬ Qcanon.Qclt (Qc_of_Z 0) y)
          (v :: vals)
    end).
  { intros Hv. destruct (Js.pickNumber vals) as [x|].
    - destruct IH as (Hx & before & after & -> & Hb). split; [done|].
      exists (v :: before), after. split; [done|]. by constructor.
    - by constructor. }
  destruct v as [x| | |]; try (apply Hskip; by intros y [=]).
  case_decide as Hx.
  - split; [done|]. exists [], vals. split; [done|]. constructor.
  - apply Hskip. by intros y [= <-].
Qed.

(** ** What every reachable game state satisfies *)

Lemma play_ok_fields st st' :
  playFields st' = playFields st → play_ok st → play_ok st'.
Proof.
  unfold playFields, cardFields, play_ok, state_ok, tally_ok, round_ok,
    history_ok, over_ok, gameEnded, winnerByScore.
  destruct st, st'; simpl. intros ?; simplify_eq. done.
Qed.

Lemma plays_ok_states_ok m : plays_ok m → states_ok m.
Proof. intros H k st Hk. by destruct (H k st Hk). Qed.

Lemma plays_ok_store roomId st rm :
  plays_ok (gameStates rm) → play_ok st →
  plays_ok (gameStates (store roomId st rm)).
Proof. intros. by apply map_Forall_insert_2. Qed.

Lemma plays_ok_delete roomId (m : gmap string GameState.t) :
  plays_ok m → plays_ok (delete roomId m).
Proof. apply map_Forall_delete. Qed.

Lemma onState_plays_ok f roomId rm :
  (∀ st, playFields (f st) = playFields st) →
  plays_ok (gameStates rm) → plays_ok (gameStates (onState f roomId rm)).
Proof.
  intros Hf Hok. unfold onState.
  destruct (gameStates rm !! roomId) as [st|] eqn:Hst; [|done].
  apply plays_ok_store; [done|].
  eapply play_ok_fields; [apply Hf|]. exact (Hok _ _ Hst).
Qed.

Lemma initGameState_plays_ok rand roomId options rm :
  plays_ok (gameStates rm) →
  plays_ok (gameStates (snd (initGameState rand roomId options rm))).
Proof.
  intros Hok.
  pose proof (initGameState_states_ok rand roomId options rm
                (plays_ok_states_ok _ Hok)) as Hs.
  unfold initGameState in *.
  destruct (JsMap.get roomId (rooms rm)) as [room|]; [|done].
  simpl in *. apply map_Forall_insert_2; [|done].
  split; [exact (Hs roomId _ (lookup_insert_eq _ _ _))|].
  split; [done|]. split; [done|]. split; [constructor|]. done.
Qed.

Lemma resetGameState_plays_ok rand roomId rm :
  plays_ok (gameStates rm) →
  plays_ok (gameStates (snd (resetGameState rand roomId rm))).
Proof.
  intros Hok. unfold resetGameState.
  set (rm0 := set_gameStates (delete roomId (gameStates rm)) rm).
  assert (H0 : plays_ok (gameStates rm0)) by by apply plays_ok_delete.
  pose proof (initGameState_plays_ok rand roomId Options.empty rm0 H0) as Hi.
  unfold initGameState in *.
  destruct (JsMap.get roomId (rooms rm0)) as [room|]; [|done].
  simpl in *. apply map_Forall_insert_2; [|done].
  eapply play_ok_fields; [|eapply (Hi roomId), lookup_insert_eq].
  reflexivity.
Qed.

Lemma removeSelected_nil sel : removeSelected sel [] = [].
Proof. by destruct sel. Qed.

Lemma nextRound_plays_ok roomId rm :
  plays_ok (gameStates rm) →
  plays_ok (gameStates (snd (nextRound roomId rm))).
Proof.
  intros Hok.
  pose proof (nextRound_states_ok roomId rm (plays_ok_states_ok _ Hok)) as Hs.
  unfold nextRound in *.
  destruct (gameStates rm !! roomId) as [st|] eqn:Hst; [|done].
  destruct (Hok _ _ Hst) as (_ & Ht & _ & Hh & Ho1 & Ho2).
  simpl in *. apply map_Forall_insert_2; [|done].
  split; [exact (Hs roomId _ (lookup_insert_eq _ _ _))|].
  clear Hs. unfold tally_ok, round_ok, history_ok, over_ok, gameEnded,
    winnerByScore in *.
  destruct (bool_decide _ || bool_decide _) eqn:E.
  - apply orb_true_iff in E.
    assert (He : removeSelected (GameState.player1SelectedCard st)
                   (GameState.player1Hand st) = []
                 ∨ removeSelected (GameState.player2SelectedCard st)
                     (GameState.player2Hand st) = []).
    { destruct E as [E|E]; [left|right]; apply bool_decide_eq_true in E;
        by apply length_zero_iff_nil. }
    repeat case_decide; try lia; gs_norm; done.
  - assert (Hgo : GameState.gameOver st = false).
    { destruct (GameState.gameOver st); [|done]. exfalso.
      destruct (Ho1 eq_refl) as [[Hemp _] _].
      apply orb_false_iff in E as [E1 E2].
      apply bool_decide_eq_false in E1, E2.
      destruct Hemp as [Hemp|Hemp]; rewrite Hemp, removeSelected_nil in *;
        done. }
    specialize (Ho2 Hgo). gs_norm. done.
Qed.

Lemma buildAnswerOptions_positive draws picks c opts :
  1 ≤ c → buildAnswerOptions draws picks c = Some opts →
  Forall (λ w, 1 ≤ w) opts.
Proof.
  intros Hc (_ & _ & _ & Hw)%buildAnswerOptions_spec.
  apply Forall_forall. intros w Hin.
  destruct (Hw w Hin) as [->|(o & _ & [->| ->])]; lia.
Qed.

Lemma playerSelectCard_plays_ok draws picks roomId p cardId rm r :
  plays_ok (gameStates rm) →
  playerSelectCard draws picks roomId p cardId rm = Some r →
  plays_ok (gameStates (snd r)).
Proof.
  intros Hok Hsel.
  pose proof (playerSelectCard_states_ok _ _ _ _ _ _ _
                (plays_ok_states_ok _ Hok) Hsel) as Hs.
  revert Hsel Hs. unfold playerSelectCard.
  destruct (gameStates rm !! roomId) as [st|] eqn:Hst; [|by intros [= <-]].
  destruct (Hok _ _ Hst) as ((_ & Hv & H1 & H2) & Ht & Hr & Hh & Ho1 & Ho2).
  apply Forall_app in Hv as [Hv1 Hv2]. rewrite Forall_forall in Hv1, Hv2.
  destruct (default false _).
  { intros [= <-] _. apply plays_ok_store; [done|].
    eapply play_ok_fields; [|exact (Hok _ _ Hst)]. reflexivity. }
  assert (Hboth : ∀ c1 c2 opts st',
    c1 ∈ GameState.player1Hand st → c2 ∈ GameState.player2Hand st →
    buildAnswerOptions draws picks (Card.value c1 * Card.value c2) = Some opts →
    GameState.player1Score st' = GameState.player1Score st →
    GameState.player2Score st' = GameState.player2Score st →
    GameState.history st' = GameState.history st →
    GameState.roundInProgress st' = true →
    GameState.currentProblem st' = Some (Card.value c1, Card.value c2) →
    GameState.correctAnswer st' = Card.value c1 * Card.value c2 →
    GameState.answerOptions st' = opts →
    GameState.gameOver st' = GameState.gameOver st →
    GameState.winner st' = GameState.winner st →
    state_ok st' → play_ok st').
  { intros c1 c2 opts st' Hc1 Hc2 Hb E1 E2 E3 E4 E5 E6 E7 E8 E9 Hso.
    assert (Hgo : GameState.gameOver st = false).
    { destruct (GameState.gameOver st); [|done]. exfalso.
      destruct (Ho1 eq_refl) as [[[Hemp|Hemp] _] _]; rewrite Hemp in *;
        by eapply elem_of_nil. }
    apply Hv1 in Hc1. apply Hv2 in Hc2.
    split; [done|]. split; [|split; [|split]].
    4: { split; rewrite E8, E9, Hgo; [done|]. intros _. by apply Ho2. }
    - unfold tally_ok. by rewrite E1, E2, E3.
    - split; [by rewrite E4|]. intros _.
      exists (Card.value c1), (Card.value c2). rewrite E6, E7.
      pose proof Hb as (? & ? & ? & _)%buildAnswerOptions_spec.
      apply buildAnswerOptions_positive in Hb; [|nia].
      done.
    - unfold history_ok. by rewrite E3. }
  assert (Hone : ∀ st',
    GameState.player1Score st' = GameState.player1Score st →
    GameState.player2Score st' = GameState.player2Score st →
    GameState.history st' = GameState.history st →
    GameState.roundInProgress st' = GameState.roundInProgress st →
    GameState.problemSolved st' = GameState.problemSolved st →
    GameState.currentProblem st' = GameState.currentProblem st →
    GameState.correctAnswer st' = GameState.correctAnswer st →
    GameState.answerOptions st' = GameState.answerOptions st →
    GameState.gameOver st' = GameState.gameOver st →
    GameState.winner st' = GameState.winner st →
    GameState.player1Hand st' = GameState.player1Hand st →
    GameState.player2Hand st' = GameState.player2Hand st →
    state_ok st' → play_ok st').
  { intros st' E1 E2 E3 E4 E5 E6 E7 E8 E9 E10 E11 E12 Hso. split; [done|].
    unfold tally_ok, round_ok, history_ok, over_ok, gameEnded, winnerByScore.
    rewrite E1, E2, E3, E4, E5, E6, E7, E8, E9, E10, E11, E12. done. }
  case_decide as Hp; simpl.
  - destruct (findCard cardId (GameState.player1Hand st)) as [c1|] eqn:Hf;
      [apply findCard_elem in Hf as [Hin _]|];
      [destruct (GameState.player2SelectedCard st) as [c2|] eqn:Hc2|];
      [destruct (buildAnswerOptions _ _ _) as [opts|] eqn:Hb; simpl| |];
      intros [= <-] Hs; try done;
      pose proof (Hs roomId _ (lookup_insert_eq _ _ _)) as Hso;
      (apply plays_ok_store; [done|]);
      first [by eapply Hboth; eauto | by apply Hone].
  - destruct (findCard cardId (GameState.player2Hand st)) as [c2|] eqn:Hf;
      [apply findCard_elem in Hf as [Hin _]|];
      (destruct (GameState.player1SelectedCard st) as [c1|] eqn:Hc1);
      try (destruct (buildAnswerOptions _ _ _) as [opts|] eqn:Hb; simpl);
      intros [= <-] Hs; try done;
      pose proof (Hs roomId _ (lookup_insert_eq _ _ _)) as Hso;
      (apply plays_ok_store; [done|]);
      first [by eapply Hboth; eauto | by apply Hone].
Qed.

Lemma tally_ok_solved (st st' : GameState.t) (p : Z) (e : HistoryEntry.t) :
  tally_ok st →
  HistoryEntry.solvedBy e = Some p →
  GameState.history st' = GameState.history st ++ [e] →
  (if decide (p = 1)
   then GameState.player1Score st' = GameState.player1Score st + 1
        ∧ GameState.player2Score st' = GameState.player2Score st
   else GameState.player1Score st' = GameState.player1Score st
        ∧ GameState.player2Score st' = GameState.player2Score st + 1) →
  tally_ok st'.
Proof.
  unfold tally_ok. intros [H1 H2] He Hh Hs. rewrite Hh, !filter_app, !length_app.
  rewrite !filter_cons, !filter_nil, He.
  case_decide as Hp.
  - subst p. destruct Hs as [-> ->].
    rewrite decide_True by done.
    rewrite (decide_False (P := is_Some (Some 1) ∧ Some 1 ≠ Some 1))
      by (intros [_ ?]; done).
    simpl. lia.
  - destruct Hs as [-> ->].
    rewrite decide_False by congruence.
    rewrite decide_True by (split; [by eexists | congruence]).
    simpl. lia.
Qed.

Lemma tally_ok_unsolved (st st' : GameState.t) (e : HistoryEntry.t) :
  tally_ok st →
  HistoryEntry.solvedBy e = None →
  GameState.history st' = GameState.history st ++ [e] →
  GameState.player1Score st' = GameState.player1Score st →
  GameState.player2Score st' = GameState.player2Score st →
  tally_ok st'.
Proof.
  unfold tally_ok. intros [H1 H2] He Hh -> ->.
  rewrite Hh, !filter_app, !length_app, !filter_cons, !filter_nil, He.
  rewrite decide_False by done.
  rewrite decide_False by (intros [[? ?] _]; done).
  simpl. lia.
Qed.

Lemma playerSubmitAnswer_plays_ok now roomId p answer rm :
  plays_ok (gameStates rm) →
  plays_ok (gameStates (snd (playerSubmitAnswer now roomId p answer rm))).
Proof.
  intros Hok.
  pose proof (playerSubmitAnswer_states_ok now roomId p answer rm
                (plays_ok_states_ok _ Hok)) as Hs.
  revert Hs. unfold playerSubmitAnswer.
  destruct (gameStates rm !! roomId) as [st|] eqn:Hst; [|done].
  pose proof (Hok _ _ Hst) as (Hso & Ht & [Hr1 Hr2] & Hh & Ho1 & Ho2).
  destruct (negb _ || _) eqn:Hguard.
  { intros _. apply plays_ok_store; [done|].
    eapply play_ok_fields; [|exact (Hok _ _ Hst)]. reflexivity. }
  apply orb_false_iff in Hguard as [Hrip Hsolved]. simpl in Hrip, Hsolved.
  apply negb_false_iff in Hrip.
  destruct (Hr2 Hrip) as (a & b & Hcp & Ha & Hb & Hca & Hlen & Hnd & Hin & Hpos).
  assert (Hround : ∀ st',
    GameState.roundInProgress st' = true →
    GameState.currentProblem st' = GameState.currentProblem st →
    GameState.correctAnswer st' = GameState.correctAnswer st →
    GameState.answerOptions st' = GameState.answerOptions st →
    round_ok st').
  { intros st' E1 E2 E3 E4. split; [done|]. intros _.
    exists a, b. rewrite E2, E3, E4. done. }
  assert (Hhist : ∀ st' s,
    GameState.history st'
      = GameState.history st
          ++ [HistoryEntry.mk (fst <$> GameState.currentProblem st)
                (snd <$> GameState.currentProblem st)
                (GameState.correctAnswer st) s now] →
    history_ok st').
  { intros st' s E. unfold history_ok. rewrite E. apply Forall_app. split; [done|].
    constructor; [|constructor]. exists a, b. rewrite Hcp. simpl. done. }
  assert (Hgo : GameState.gameOver st = false).
  { destruct (GameState.gameOver st); [|done].
    destruct (Ho1 eq_refl) as [[_ Hn] _]. congruence. }
  specialize (Ho2 Hgo).
  destruct (decide (p = 1)) as [Hp|Hp];
    (destruct (bool_decide (answer = _)) eqn:Hcorrect;
     [|match goal with |- context [if ?b then _ else _] =>
         destruct b eqn:Hother end]);
    intros Hs; pose proof (Hs roomId _ (lookup_insert_eq _ _ _)) as Hso';
    (apply plays_ok_store; [done|]); clear Hs;
    (split; [exact Hso'|]); clear Hso'; (split; [|split; [|split]]).
  all: try (split; simpl; rewrite ?Hgo; [done|intros _; exact Ho2]).
  all: try (apply Hround; gs_norm; done).
  all: try (eapply (Hhist _ _); gs_norm; reflexivity).
  all: try (eapply (tally_ok_solved st _ p);
            [exact Ht| |gs_norm; reflexivity|];
            [reflexivity|]; rewrite ?decide_True, ?decide_False by done;
            gs_norm; done).
  all: try (eapply (tally_ok_unsolved st);
            [exact Ht| |gs_norm; reflexivity|idtac..];
            [reflexivity|idtac..]; gs_norm; done).
  all: try (unfold tally_ok, history_ok in *; gs_norm; done).
  all: split; [|intros _; exists a, b]; gs_norm;
    rewrite ?Hsolved; done.
Qed.

Lemma leaveRoomBySocket_plays_ok socketId rm :
  plays_ok (gameStates rm) →
  plays_ok (gameStates (snd (leaveRoomBySocket socketId rm))).
Proof.
  intros Hok. unfold leaveRoomBySocket.
  destruct (findRoomBySocket socketId rm) as [[roomId room]|]; [|done].
  case_decide; simpl; [by apply plays_ok_delete | done].
Qed.

Lemma setPlayerStatus_gameStates roomId socketId status rm :
  gameStates (snd (setPlayerStatus roomId socketId status rm)) = gameStates rm.
Proof.
  unfold setPlayerStatus.
  destruct (JsMap.get roomId (rooms rm)) as [room|]; [|done].
  by destruct (JsMap.get socketId (Room.players room)).
Qed.

Lemma joinRoom_gameStates playerId now roomId socketId rm :
  gameStates (snd (joinRoom playerId now roomId socketId rm)) = gameStates rm.
Proof.
  unfold joinRoom.
  destruct (JsMap.get roomId (rooms rm)) as [room|]; [|done].
  by case_decide.
Qed.

Lemma clearAutoNextRound_gameStates roomId srv :
  gameStates (roomManager (clearAutoNextRound roomId srv))
  = gameStates (roomManager srv).
Proof.
  unfold clearAutoNextRound. case_decide; [|done].
  apply setTransitioning_gameStates.
Qed.

Lemma scheduleAutoNextRound_gameStates roomId srv :
  gameStates (roomManager (scheduleAutoNextRound roomId srv))
  = gameStates (roomManager srv).
Proof.
  unfold scheduleAutoNextRound. case_decide; [done|].
  apply setTransitioning_gameStates.
Qed.

Lemma handle_plays_ok ev srv srv' :
  srv_ok srv →
  plays_ok (gameStates (roomManager srv)) →
  handle ev srv = Some srv' →
  plays_ok (gameStates (roomManager srv')).
Proof.
  intros Hsrv Hok.
  destruct ev; simpl.
  - intros [= <-]. done.
  - intros [= <-]. unfold onJoinRoom. case_decide; [done|].
    pose proof (joinRoom_gameStates playerId now roomId socket
                  (roomManager srv)) as Hj.
    destruct (joinRoom _ _ _ _ _) as [[e|room response] rm]; [done|].
    simpl in *. destruct (truthy_num _); simpl; by rewrite Hj.
  - unfold onCardSelected. case_decide; [by intros [= <-]|].
    destruct (getRoom _ _); [|by intros [= <-]].
    destruct (playerSelectCard _ _ _ _ _ _) as [r|] eqn:Hsel; [|done].
    simpl. intros [= <-]. by eapply playerSelectCard_plays_ok.
  - intros [= <-]. unfold onAnswerSubmitted. case_decide; [done|].
    destruct (getRoom _ _); [|done].
    pose proof (playerSubmitAnswer_plays_ok now roomId playerNumber answer _ Hok)
      as Hs.
    destruct (playerSubmitAnswer _ _ _ _ _) as [[|st|st ic] rm]; simpl in *;
      try done.
    destruct (GameState.problemSolved st); [|done].
    rewrite scheduleAutoNextRound_gameStates. simpl.
    by apply onState_plays_ok.
  - intros [= <-]. unfold onNextRound. case_decide; [done|].
    destruct (getRoom _ _); [|done].
    pose proof (clearAutoNextRound_gameStates roomId srv) as Hc.
    rewrite <- Hc in Hok.
    pose proof (nextRound_plays_ok roomId _ Hok) as Hn.
    destruct (nextRound _ _) as [[st|] rm]; simpl in *; [|done].
    by apply onState_plays_ok.
  - intros [= <-]. unfold onResetGame. case_decide; [done|].
    destruct (getRoom _ _); [|done].
    pose proof (resetGameState_plays_ok rand roomId _ Hok) as Hn.
    destruct (resetGameState _ _ _) as [[st|] rm]; done.
  - intros [= <-]. unfold onRequestRematch. case_decide; [done|].
    destruct (getRoom _ _) as [room|]; [|done].
    case_decide; [|done]. simpl.
    match goal with |- context [initGameState ?r ?i ?o ?m] =>
      pose proof (initGameState_plays_ok r i o m Hok) as Hn;
      destruct (initGameState r i o m) as [[st|] rm] end; simpl in *; [|done].
    by repeat apply onState_plays_ok.
  - intros [= <-]. unfold onSetPresence. case_decide; [done|].
    case_decide; simpl; [by apply leaveRoomBySocket_plays_ok|].
    by rewrite setPlayerStatus_gameStates.
  - intros [= <-]. unfold onSetRoomOptions. case_decide; [done|].
    destruct (getRoom _ _) as [room|] eqn:Hg; [|done].
    destruct (JsMap.get socket _); done.
  - intros [= <-]. unfold onStartGame. case_decide; [done|].
    destruct (getRoom _ _) as [room|]; [|done].
    destruct (JsMap.get socket _); [|done].
    case_decide; [done|]. case_decide; [done|].
    match goal with |- context [initGameState ?r ?i ?o ?m] =>
      pose proof (initGameState_plays_ok r i o m Hok) as Hn;
      destruct (initGameState r i o m) as [[st|] rm] end; simpl in *; [|done].
    by repeat apply onState_plays_ok.
  - intros [= <-]. by apply leaveRoomBySocket_plays_ok.
  - intros [= <-]. unfold onDisconnect.
    pose proof (leaveRoomBySocket_plays_ok socket _ Hok) as Hl.
    destruct (leaveRoomBySocket _ _) as [[res|] rm]; simpl in *; [|done].
    by rewrite clearAutoNextRound_gameStates.
  - case_decide; intros [= <-]; [|done]. unfold autoNextRound. simpl.
    rewrite setTransitioning_gameStates.
    destruct (getRoom _ _); [|done].
    pose proof (nextRound_plays_ok roomId _ Hok) as Hn.
    destruct (nextRound _ _) as [[st|] rm]; simpl in *; [|done].
    by apply onState_plays_ok.
  - intros [= <-]. unfold onGarbageCollect.
    rewrite garbageCollectRooms_noop by apply Hsrv. done.
Qed.

Lemma reachable_plays_ok srv :
  reachable srv → plays_ok (gameStates (roomManager srv)).
Proof.
  induction 1 as [|ev srv srv' Hr IH Hstep].
  - apply map_Forall_empty.
  - eapply handle_plays_ok; [by apply reachable_ok|done|done].
Qed.

Lemma history_tally_bounds (l : list HistoryEntry.t) :
  (length (filter (λ e, is_Some (HistoryEntry.solvedBy e)
                        ∧ HistoryEntry.solvedBy e ≠ Some 1%Z) l)
   ≤ length (filter (λ e, HistoryEntry.solvedBy e ≠ Some 1%Z) l))%nat
  ∧ (length (filter (λ e, HistoryEntry.solvedBy e = Some 1%Z) l)
     + length (filter (λ e, is_Some (HistoryEntry.solvedBy e)
                            ∧ HistoryEntry.solvedBy e ≠ Some 1%Z) l)
     ≤ length l)%nat.
Proof.
  induction l as [|e l [IH1 IH2]]; [done|].
  rewrite !filter_cons.
  repeat case_decide; simpl length; try (split; lia); tauto.
Qed.

(** X13. In every state the server can reach, the scores of a game are
    backed by its history: player 1 has exactly one point for each entry
    solved by 1, player 2 has at most one point for each other entry, so
    neither score is negative and the two add up to at most the number of
    rounds resolved; and every entry of the history records two operands and
    their product. *)
Theorem reachable_scores_tally_the_history
    (srv : Server) (roomId : string) (st : GameState.t) :
  reachable srv →
  getGameState roomId (roomManager srv) = Some st →
  GameState.player1Score st
    = Z.of_nat (length (filter (λ e, HistoryEntry.solvedBy e = Some 1)
                          (GameState.history st)))
  ∧ 0 ≤ GameState.player2Score st
      ≤ Z.of_nat (length (filter (λ e, HistoryEntry.solvedBy e ≠ Some 1)
                            (GameState.history st)))
  ∧ GameState.player1Score st + GameState.player2Score st
    ≤ Z.of_nat (length (GameState.history st))
  ∧ history_ok st.
Proof.
  intros Hr Hst. destruct (reachable_plays_ok srv Hr roomId st Hst)
    as (_ & Ht & _ & Hh & _).
  destruct Ht as [H1 H2].
  destruct (history_tally_bounds (GameState.history st)) as [B1 B2].
  rewrite H1, H2. split; [done|]. split; [lia|]. split; [lia|done].
Qed.

(** X14. In every state the server can reach, a round in progress is well
    formed: the problem has two operands between 2 and 12, the stored answer
    is their product, and the options are four distinct numbers, all at least
    1, with the answer among them; and a round marked solved is a round in
    progress. *)
Theorem reachable_round_is_well_formed
    (srv : Server) (roomId : string) (st : GameState.t) :
  reachable srv →
  getGameState roomId (roomManager srv) = Some st →
  round_ok st.
Proof.
  intros Hr Hst. by destruct (reachable_plays_ok srv Hr roomId st Hst)
    as (_ & _ & ? & _ & _).
Qed.

(** X15. In every state the server can reach, a game marked over has a
    player without cards and no round open, and its winner is the player
    with the strictly higher score, nobody on a tie; a game not marked over
    has no winner. *)
Theorem reachable_game_over_names_the_winner
    (srv : Server) (roomId : string) (st : GameState.t) :
  reachable srv →
  getGameState roomId (roomManager srv) = Some st →
  over_ok st.
Proof.
  intros Hr Hst. by destruct (reachable_plays_ok srv Hr roomId st Hst)
    as (_ & _ & _ & _ & ?).
Qed.

(** X16. In every state the server can reach, the two hands of a game share
    no card id, every card is worth between 2 and 12, and a selected card is
    a card of the hand of the player who selected it. *)
Theorem reachable_hands_are_consistent
    (srv : Server) (roomId : string) (st : GameState.t) :
  reachable srv →
  getGameState roomId (roomManager srv) = Some st →
  state_ok st.
Proof.
  intros Hr Hst. destruct (reachable_ok srv Hr) as [_ Hs].
  exact (Hs roomId st Hst).
Qed.

(** ** The lock of a room and its timer *)

Section jsmap_keys.
Context {K V : Type} `{EqDecision K}.
Implicit Types (m : list (K * V)) (k : K) (v : V).

Lemma jsmap_get_None k m : JsMap.get k m = None ↔ k ∉ m.*1.
Proof.
  induction m as [|[k' v'] m IH]; csimpl.
  - split; [intros _; apply not_elem_of_nil | done].
  - rewrite not_elem_of_cons. case_decide; [|tauto].
    split; [done | intros [? _]; done].
Qed.

Lemma jsmap_set_keys k v m :
  (JsMap.set k v m).*1 = if JsMap.has k m then m.*1 else m.*1 ++ [k].
Proof.
  unfold JsMap.has. induction m as [|[k' v'] m IH]; csimpl; [done|].
  case_decide; csimpl; [by subst|]. rewrite IH.
  by destruct (JsMap.get k m).
Qed.

Lemma jsmap_set_NoDup k v m : NoDup m.*1 → NoDup (JsMap.set k v m).*1.
Proof.
  intros Hnd. rewrite jsmap_set_keys. unfold JsMap.has.
  destruct (JsMap.get k m) eqn:E; [done|].
  apply jsmap_get_None in E.
  apply NoDup_app. split; [done|]. split; [|apply NoDup_singleton].
  intros x Hx ->%list_elem_of_singleton. done.
Qed.

Lemma jsmap_del_keys k m : (JsMap.del k m).*1 `sublist_of` m.*1.
Proof.
  induction m as [|[k' v'] m IH]; csimpl; [done|].
  case_decide; csimpl; [by apply sublist_cons | by apply sublist_skip].
Qed.

Lemma jsmap_del_NoDup k m : NoDup m.*1 → NoDup (JsMap.del k m).*1.
Proof. intros. eapply sublist_NoDup; [done|apply jsmap_del_keys]. Qed.

Lemma jsmap_elem_get k v m : NoDup m.*1 → (k, v) ∈ m → JsMap.get k m = Some v.
Proof.
  induction m as [|[k' v'] m IH]; csimpl.
  - by intros _ ?%elem_of_nil.
  - intros [Hk Hnd]%NoDup_cons [[= -> ->]|Hin]%elem_of_cons.
    + by rewrite decide_True.
    + rewrite decide_False; [by apply IH|].
      intros ->. apply Hk. apply list_elem_of_fmap. by exists (k', v).
Qed.
End jsmap_keys.

Lemma rooms_kept_refl rs : rooms_kept rs rs.
Proof. intros Hnd. split; [done|]. by eauto. Qed.

Lemma rooms_kept_trans rs1 rs2 rs3 :
  rooms_kept rs1 rs2 → rooms_kept rs2 rs3 → rooms_kept rs1 rs3.
Proof.
  intros H12 H23 Hnd. destruct (H12 Hnd) as [Hnd2 H2].
  destruct (H23 Hnd2) as [Hnd3 H3]. split; [done|].
  intros rid room3 Hg Ht. destruct (H3 _ _ Hg Ht) as (room2 & Hg2 & Ht2).
  by eapply H2.
Qed.

Lemma rooms_kept_set rs k room' :
  (NoDup rs.*1 → Room.transitioning room' = true →
   ∃ room, JsMap.get k rs = Some room ∧ Room.transitioning room = true) →
  rooms_kept rs (JsMap.set k room' rs).
Proof.
  intros H Hnd. split; [by apply jsmap_set_NoDup|].
  intros rid r Hg Ht. destruct (decide (k = rid)) as [->|Hne].
  - rewrite jsmap_get_set_eq in Hg. injection Hg as <-. by apply H.
  - rewrite jsmap_get_set_ne in Hg by done. by eauto.
Qed.

Lemma rooms_kept_del rs k : rooms_kept rs (JsMap.del k rs).
Proof.
  intros Hnd. split; [by apply jsmap_del_NoDup|].
  intros rid r Hg Ht. destruct (decide (k = rid)) as [->|Hne].
  - by rewrite jsmap_get_del_eq in Hg.
  - rewrite jsmap_get_del_ne in Hg by done. by eauto.
Qed.

Lemma createRoom_kept roomId playerId roomName now socketId rm :
  rooms_kept (rooms rm)
    (rooms (snd (createRoom roomId playerId roomName now socketId rm))).
Proof. apply rooms_kept_set. done. Qed.

Lemma joinRoom_kept playerId now roomId socketId rm :
  rooms_kept (rooms rm) (rooms (snd (joinRoom playerId now roomId socketId rm))).
Proof.
  unfold joinRoom.
  destruct (JsMap.get roomId (rooms rm)) as [room|] eqn:Hg;
    [|apply rooms_kept_refl].
  case_decide; [apply rooms_kept_refl|].
  apply rooms_kept_set. simpl. by eauto.
Qed.

Lemma leaveRoomBySocket_kept socketId rm :
  rooms_kept (rooms rm) (rooms (snd (leaveRoomBySocket socketId rm))).
Proof.
  unfold leaveRoomBySocket, findRoomBySocket.
  destruct (findRoomBySocket_in socketId (rooms rm)) as [[roomId room]|] eqn:Hf;
    [|apply rooms_kept_refl].
  apply findRoomBySocket_in_elem in Hf as [Hin _].
  case_decide; simpl; [apply rooms_kept_del|].
  apply rooms_kept_set. intros Hnd Ht. exists room.
  split; [by apply jsmap_elem_get|].
  by destruct (truthy_num _).
Qed.

Lemma setPlayerStatus_kept roomId socketId status rm :
  rooms_kept (rooms rm)
    (rooms (snd (setPlayerStatus roomId socketId status rm))).
Proof.
  unfold setPlayerStatus.
  destruct (JsMap.get roomId (rooms rm)) as [room|] eqn:Hg;
    [|apply rooms_kept_refl].
  destruct (JsMap.get socketId (Room.players room));
    [|apply rooms_kept_refl].
  apply rooms_kept_set. simpl. by eauto.
Qed.

Lemma initGameState_kept rand roomId options rm :
  rooms_kept (rooms rm) (rooms (snd (initGameState rand roomId options rm))).
Proof.
  unfold initGameState.
  destruct (JsMap.get roomId (rooms rm)) as [room|] eqn:Hg;
    [|apply rooms_kept_refl].
  apply rooms_kept_set. simpl. by eauto.
Qed.

Lemma resetGameState_kept rand roomId rm :
  rooms_kept (rooms rm) (rooms (snd (resetGameState rand roomId rm))).
Proof.
  unfold resetGameState.
  set (rm0 := set_gameStates (delete roomId (gameStates rm)) rm).
  pose proof (initGameState_kept rand roomId Options.empty rm0) as Hi.
  by destruct (initGameState _ _ _ rm0) as [[s|] rm1].
Qed.

Lemma onState_rooms f roomId rm : rooms (onState f roomId rm) = rooms rm.
Proof. unfold onState. by destruct (gameStates rm !! roomId). Qed.

Lemma playerSelectCard_rooms draws picks roomId p cardId rm r :
  playerSelectCard draws picks roomId p cardId rm = Some r →
  rooms (snd r) = rooms rm.
Proof.
  unfold playerSelectCard.
  destruct (gameStates rm !! roomId) as [st|]; [|by intros [= <-]].
  destruct (default false _); [by intros [= <-]|].
  case_decide; simpl;
    (destruct (findCard cardId _)); simpl;
    try (destruct (GameState.player1SelectedCard st));
    try (destruct (GameState.player2SelectedCard st));
    try (destruct (buildAnswerOptions _ _ _)); simpl;
    try done; by intros [= <-].
Qed.

Lemma playerSubmitAnswer_rooms now roomId p answer rm :
  rooms (snd (playerSubmitAnswer now roomId p answer rm)) = rooms rm.
Proof.
  unfold playerSubmitAnswer.
  destruct (gameStates rm !! roomId) as [st|]; [|done].
  repeat case_match; done.
Qed.

Lemma nextRound_rooms roomId rm : rooms (snd (nextRound roomId rm)) = rooms rm.
Proof.
  unfold nextRound. by destruct (gameStates rm !! roomId).
Qed.

Lemma locks_ok_kept srv srv' :
  rooms_kept (rooms (roomManager srv)) (rooms (roomManager srv')) →
  nextRoundTimers srv ⊆ nextRoundTimers srv' →
  locks_ok srv → locks_ok srv'.
Proof.
  intros Hk Hsub [Hnd Hl]. destruct (Hk Hnd) as [Hnd' Hk'].
  split; [done|]. intros rid room' Hg Ht.
  destruct (Hk' _ _ Hg Ht) as (room & Hg0 & Ht0).
  apply Hsub. by eapply Hl.
Qed.

Lemma setTransitioning_rooms_NoDup v roomId rm :
  NoDup (rooms rm).*1 → NoDup (rooms (setTransitioning v roomId rm)).*1.
Proof.
  unfold setTransitioning. destruct (getRoom roomId rm); [|done].
  apply jsmap_set_NoDup.
Qed.

Lemma setTransitioning_getRoom_ne v roomId rid rm :
  roomId ≠ rid →
  getRoom rid (setTransitioning v roomId rm) = getRoom rid rm.
Proof.
  intros Hne. unfold setTransitioning.
  destruct (getRoom roomId rm); [|done].
  unfold getRoom. simpl. by apply jsmap_get_set_ne.
Qed.

Lemma setTransitioning_false_unlocked roomId rm room :
  getRoom roomId (setTransitioning false roomId rm) = Some room →
  Room.transitioning room = false.
Proof.
  destruct (getRoom roomId rm) as [r|] eqn:Hg.
  - rewrite (setTransitioning_getRoom _ _ _ _ Hg). by intros [= <-].
  - unfold setTransitioning. rewrite Hg. congruence.
Qed.

Lemma scheduleAutoNextRound_locks_ok roomId srv :
  locks_ok srv → locks_ok (scheduleAutoNextRound roomId srv).
Proof.
  intros [Hnd Hl]. unfold scheduleAutoNextRound. case_decide; [done|].
  split; [by apply setTransitioning_rooms_NoDup|].
  intros rid room. simpl. destruct (decide (roomId = rid)) as [->|Hne].
  - intros _ _. apply elem_of_union_l, elem_of_singleton. done.
  - rewrite setTransitioning_getRoom_ne by done. intros Hg Ht.
    apply elem_of_union_r. by eapply Hl.
Qed.

Lemma unlock_locks_ok roomId rm srv :
  NoDup (rooms rm).*1 →
  (∀ rid room, getRoom rid rm = Some room → Room.transitioning room = true →
               rid ∈ nextRoundTimers srv) →
  locks_ok (mkServer (setTransitioning false roomId rm) (rematchRequests srv)
              (nextRoundTimers srv ∖ {[roomId]})).
Proof.
  intros Hnd Hl. split; [by apply setTransitioning_rooms_NoDup|].
  intros rid room. simpl. destruct (decide (roomId = rid)) as [->|Hne].
  - intros Hg%setTransitioning_false_unlocked. congruence.
  - rewrite setTransitioning_getRoom_ne by done. intros Hg Ht.
    apply elem_of_difference. split; [by eapply Hl|].
    by intros ?%elem_of_singleton.
Qed.

Lemma clearAutoNextRound_locks_ok roomId srv :
  locks_ok srv → locks_ok (clearAutoNextRound roomId srv).
Proof.
  intros [Hnd Hl]. unfold clearAutoNextRound. case_decide; [|done].
  by apply unlock_locks_ok.
Qed.

Lemma handle_locks_ok ev srv srv' :
  srv_ok srv → locks_ok srv → handle ev srv = Some srv' → locks_ok srv'.
Proof.
  intros Hsrv Hok.
  destruct ev; simpl.
  - intros [= <-]. eapply (locks_ok_kept srv); [|simpl; reflexivity|done]. apply createRoom_kept.
  - intros [= <-]. unfold onJoinRoom. case_decide; [done|].
    pose proof (joinRoom_kept playerId now roomId socket (roomManager srv))
      as Hj.
    destruct (joinRoom _ _ _ _ _) as [[e|room response] rm] eqn:Hjoin; [done|].
    simpl in *. eapply (locks_ok_kept srv); [|simpl; reflexivity|done]. simpl.
    destruct (truthy_num _); [|done].
    eapply rooms_kept_trans; [exact Hj|]. simpl.
    apply rooms_kept_set. intros Hnd Ht.
    unfold joinRoom in Hjoin.
    destruct (JsMap.get roomId _) as [room0|] eqn:Hg; [|done].
    case_decide; [done|]. injection Hjoin as <- _ <-. simpl in *.
    rewrite jsmap_get_set_eq. by eauto.
  - unfold onCardSelected. case_decide; [by intros [= <-]|].
    destruct (getRoom _ _); [|by intros [= <-]].
    destruct (playerSelectCard _ _ _ _ _ _) as [r|] eqn:Hsel; [|done].
    simpl. intros [= <-]. eapply (locks_ok_kept srv); [|simpl; reflexivity|done]. simpl.
    rewrite (playerSelectCard_rooms _ _ _ _ _ _ _ Hsel).
    apply rooms_kept_refl.
  - intros [= <-]. unfold onAnswerSubmitted. case_decide; [done|].
    destruct (getRoom _ _); [|done].
    pose proof (playerSubmitAnswer_rooms now roomId playerNumber answer
                  (roomManager srv)) as Hs.
    destruct (playerSubmitAnswer _ _ _ _ _) as [[|st|st ic] rm]; simpl in *;
      try (eapply (locks_ok_kept srv); [|simpl; reflexivity|done]; simpl; rewrite Hs;
           apply rooms_kept_refl).
    destruct (GameState.problemSolved st);
      [apply scheduleAutoNextRound_locks_ok|];
      (eapply (locks_ok_kept srv); [|simpl; reflexivity|done]; simpl;
       rewrite ?onState_rooms, Hs; apply rooms_kept_refl).
  - intros [= <-]. unfold onNextRound. case_decide; [done|].
    destruct (getRoom _ _); [|done].
    pose proof (clearAutoNextRound_locks_ok roomId srv Hok) as Hc.
    pose proof (nextRound_rooms roomId
                  (roomManager (clearAutoNextRound roomId srv))) as Hn.
    destruct (nextRound _ _) as [[st|] rm]; simpl in *;
      (eapply (locks_ok_kept (clearAutoNextRound roomId srv));
       [|simpl; reflexivity|exact Hc]; simpl;
       rewrite ?onState_rooms, Hn; apply rooms_kept_refl).
  - intros [= <-]. unfold onResetGame. case_decide; [done|].
    destruct (getRoom _ _); [|done].
    pose proof (resetGameState_kept rand roomId (roomManager srv)) as Hn.
    destruct (resetGameState _ _ _) as [[st|] rm];
      (eapply (locks_ok_kept srv); [|simpl; reflexivity|done]); done.
  - intros [= <-]. unfold onRequestRematch. case_decide; [done|].
    destruct (getRoom _ _) as [room|]; [|done].
    case_decide; [|by eapply (locks_ok_kept srv);
                     [apply rooms_kept_refl|simpl; reflexivity|done]].
    simpl.
    match goal with |- context [initGameState ?r ?i ?o ?m] =>
      pose proof (initGameState_kept r i o m) as Hn;
      destruct (initGameState r i o m) as [[st|] rm] end; simpl in *;
      (eapply (locks_ok_kept srv); [|simpl; reflexivity|done]); simpl;
      rewrite ?onState_rooms; done.
  - intros [= <-]. unfold onSetPresence. case_decide; [done|].
    case_decide; (eapply (locks_ok_kept srv); [|simpl; reflexivity|done]); simpl;
      [apply leaveRoomBySocket_kept | apply setPlayerStatus_kept].
  - intros [= <-]. unfold onSetRoomOptions. case_decide; [done|].
    destruct (getRoom _ _) as [room|] eqn:Hg; [|done].
    destruct (JsMap.get socket _); [|done].
    eapply (locks_ok_kept srv); [|simpl; reflexivity|done]. simpl.
    apply rooms_kept_set. intros _ Ht. exists room. split; [done|].
    revert Ht. repeat case_match; done.
  - intros [= <-]. unfold onStartGame. case_decide; [done|].
    destruct (getRoom _ _) as [room|]; [|done].
    destruct (JsMap.get socket _); [|done].
    case_decide; [done|]. case_decide; [done|].
    match goal with |- context [initGameState ?r ?i ?o ?m] =>
      pose proof (initGameState_kept r i o m) as Hn;
      destruct (initGameState r i o m) as [[st|] rm] end; simpl in *;
      (eapply (locks_ok_kept srv); [|simpl; reflexivity|done]); simpl;
      rewrite ?onState_rooms; done.
  - intros [= <-]. eapply (locks_ok_kept srv); [|simpl; reflexivity|done].
    apply leaveRoomBySocket_kept.
  - intros [= <-]. unfold onDisconnect.
    pose proof (leaveRoomBySocket_kept socket (roomManager srv)) as Hl.
    destruct (leaveRoomBySocket _ _) as [[res|] rm]; simpl in *;
      [apply clearAutoNextRound_locks_ok|];
      (eapply (locks_ok_kept srv); [|simpl; reflexivity|done]); done.
  - case_decide; intros [= <-]; [|done]. unfold autoNextRound.
    destruct Hok as [Hnd Hl].
    apply unlock_locks_ok.
    + destruct (getRoom _ _); [|done].
      pose proof (nextRound_rooms roomId (roomManager srv)) as Hn.
      destruct (nextRound _ _) as [[st|] rm]; simpl in *;
        by rewrite ?onState_rooms, Hn.
    + intros rid room. unfold getRoom.
      replace (rooms _) with (rooms (roomManager srv)); [apply Hl|].
      destruct (JsMap.get roomId _); [|done].
      pose proof (nextRound_rooms roomId (roomManager srv)) as Hn.
      destruct (nextRound _ _) as [[st|] rm]; simpl in *;
        by rewrite ?onState_rooms, Hn.
  - intros [= <-]. unfold onGarbageCollect.
    rewrite garbageCollectRooms_noop by apply Hsrv. by destruct srv.
Qed.

Lemma reachable_locks_ok srv : reachable srv → locks_ok srv.
Proof.
  induction 1 as [|ev srv srv' Hr IH Hstep].
  - split; [constructor|]. by intros rid room.
  - eapply handle_locks_ok; [by apply reachable_ok|done|done].
Qed.

(** X17. In every state the server can reach, a room that is transitioning,
    that is, whose card selections are ignored, has its auto-advance timer
    pending; and when that timer fires the room is no longer transitioning
    and the timer is gone.  So no room stays locked without a timer that
    will unlock it. *)
Theorem locked_room_has_a_pending_timer
    (srv : Server) (roomId : string) (room : Room.t) :
  reachable srv →
  getRoom roomId (roomManager srv) = Some room →
  Room.transitioning room = true →
  roomId ∈ nextRoundTimers srv
  ∧ ∃ srv',
      handle (EvTimer roomId) srv = Some srv'
      ∧ (roomId ∉ nextRoundTimers srv')
      ∧ ∃ room',
          getRoom roomId (roomManager srv') = Some room'
          ∧ Room.transitioning room' = false
          ∧ Room.players room' = Room.players room.
Proof.
  intros Hr Hg Ht. destruct (reachable_locks_ok srv Hr) as [_ Hl].
  pose proof (Hl _ _ Hg Ht) as Hin. split; [done|].
  simpl. rewrite decide_True by done. eexists. split; [reflexivity|].
  unfold autoNextRound. simpl. split.
  { intros [_ Hn]%elem_of_difference. by apply Hn, elem_of_singleton. }
  rewrite Hg.
  assert (Hg' : ∀ rm', rooms rm' = rooms (roomManager srv) →
                       getRoom roomId rm' = Some room)
    by (intros rm' E; unfold getRoom in *; by rewrite E).
  pose proof (nextRound_rooms roomId (roomManager srv)) as Hn.
  destruct (nextRound _ _) as [[st|] rm]; simpl in Hn;
    (erewrite setTransitioning_getRoom;
     [|apply Hg'; by rewrite ?onState_rooms, Hn]);
    by eexists.
Qed.

(** ** The handlers of the server *)

Lemma set_roomManager_same srv : set_roomManager (roomManager srv) srv = srv.
Proof. by destruct srv. Qed.

(** X18. An event that names a room the manager does not have changes
    nothing: joining it, selecting a card, submitting an answer, asking for
    the next round, a reset or a rematch, setting its options, starting its
    game, and setting a presence other than [left] all leave the server as
    it is. *)
Theorem events_on_an_unknown_room_change_nothing
    (srv : Server) (roomId : string) :
  getRoom roomId (roomManager srv) = None →
  (∀ socket playerId now,
     handle (EvJoinRoom socket roomId playerId now) srv = Some srv)
  ∧ (∀ draws picks p cardId,
       handle (EvCardSelected draws picks roomId p cardId) srv = Some srv)
  ∧ (∀ now p answer,
       handle (EvAnswerSubmitted now roomId p answer) srv = Some srv)
  ∧ handle (EvNextRound roomId) srv = Some srv
  ∧ (∀ rand, handle (EvResetGame rand roomId) srv = Some srv)
  ∧ (∀ rand p, handle (EvRequestRematch rand roomId p) srv = Some srv)
  ∧ (∀ socket payload,
       handle (EvSetRoomOptions socket roomId payload) srv = Some srv)
  ∧ (∀ rand socket payload,
       handle (EvStartGame rand socket roomId payload) srv = Some srv)
  ∧ (∀ socket status,
       status ≠ "left" →
       handle (EvSetPresence socket roomId status) srv = Some srv).
Proof.
  intros Hg. pose proof Hg as Hg'. unfold getRoom in Hg'.
  repeat split; intros; simpl; f_equal.
  - unfold onJoinRoom, joinRoom. rewrite Hg'. by case_decide.
  - unfold onCardSelected. rewrite Hg. by case_decide.
  - unfold onAnswerSubmitted. rewrite Hg. by case_decide.
  - unfold onNextRound. rewrite Hg. by case_decide.
  - unfold onResetGame. rewrite Hg. by case_decide.
  - unfold onRequestRematch. rewrite Hg. by case_decide.
  - unfold onSetRoomOptions. rewrite Hg. by case_decide.
  - unfold onStartGame. rewrite Hg. by case_decide.
  - unfold onSetPresence, setPlayerStatus. rewrite Hg'.
    case_decide; [done|]. rewrite decide_False by done.
    apply set_roomManager_same.
Qed.

(** X19. What an accepted answer does to the room: when it resolves the
    round and no timer is pending for the room, the timer is set and the room
    becomes transitioning, with its members unchanged, and the stored state
    is the resolved one with [advanceClients] off; when it does not resolve
    the round, no timer is set and the room is left as it was. *)
Theorem answer_that_resolves_the_round_locks_the_room
    (now : Z) (roomId : string) (p answer : Z) (srv : Server) (room : Room.t)
    (st : GameState.t) (isCorrect : bool) (rm1 : RoomManager) :
  roomId ≠ EmptyString →
  getRoom roomId (roomManager srv) = Some room →
  roomId ∉ nextRoundTimers srv →
  playerSubmitAnswer now roomId p answer (roomManager srv)
    = (SubmitAccepted st isCorrect, rm1) →
  let srv1 := onAnswerSubmitted now roomId p answer srv in
  if GameState.problemSolved st then
    nextRoundTimers srv1 = {[roomId]} ∪ nextRoundTimers srv
    ∧ getRoom roomId (roomManager srv1)
      = Some (Room.set_transitioning true room)
    ∧ getGameState roomId (roomManager srv1)
      = Some (GameState.set_advanceClients false st)
  else
    srv1 = set_roomManager rm1 srv
    ∧ getRoom roomId (roomManager srv1) = Some room
    ∧ getGameState roomId (roomManager srv1) = Some st.
Proof.
  intros Hne Hg Hnt Hsub srv1. subst srv1. unfold onAnswerSubmitted.
  rewrite decide_False by done. rewrite Hg, Hsub.
  pose proof (playerSubmitAnswer_rooms now roomId p answer (roomManager srv))
    as Hrooms. rewrite Hsub in Hrooms. simpl in Hrooms.
  assert (Hst : gameStates rm1 !! roomId = Some st).
  { revert Hsub. unfold playerSubmitAnswer.
    destruct (gameStates (roomManager srv) !! roomId) as [st0|]; [|done].
    destruct (negb _ || _); [done|].
    repeat case_match; intros [= <- _ <-]; apply lookup_insert_eq. }
  destruct (GameState.problemSolved st).
  - unfold scheduleAutoNextRound. simpl. rewrite decide_False by done. simpl.
    split; [done|].
    assert (Hg1 : getRoom roomId
                    (onState (GameState.set_advanceClients false) roomId rm1)
                  = Some room).
    { unfold getRoom in *. by rewrite onState_rooms, Hrooms. }
    split; [by apply setTransitioning_getRoom|].
    unfold getGameState. rewrite setTransitioning_gameStates.
    unfold onState. rewrite Hst. apply lookup_insert_eq.
  - split; [done|]. simpl. split; [|done].
    unfold getRoom in *. by rewrite Hrooms.
Qed.

(** X20. A disconnect that takes a member out of a room cancels the room's
    pending advance: in every reachable state, after it the room has no
    timer, is not transitioning if it still exists, and the game states are
    those the leave itself left, so the round is not advanced; when the room
    survives, its game state is untouched. *)
Theorem disconnect_cancels_the_pending_advance
    (srv : Server) (socket : string) (res : Left.t) (rm' : RoomManager) :
  reachable srv →
  leaveRoomBySocket socket (roomManager srv) = (Some res, rm') →
  let srv' := onDisconnect socket srv in
  (Left.roomId res ∉ nextRoundTimers srv')
  ∧ (∀ room', getRoom (Left.roomId res) (roomManager srv') = Some room' →
              Room.transitioning room' = false)
  ∧ gameStates (roomManager srv') = gameStates rm'
  ∧ (Left.deleted res = false →
     gameStates (roomManager srv') = gameStates (roomManager srv)).
Proof.
  intros Hr Hleave srv'. subst srv'. unfold onDisconnect. rewrite Hleave.
  assert (Hlk : locks_ok (set_roomManager rm' srv)).
  { eapply (locks_ok_kept srv); [|simpl; reflexivity|by apply reachable_locks_ok].
    pose proof (leaveRoomBySocket_kept socket (roomManager srv)) as Hk.
    by rewrite Hleave in Hk. }
  split; [|split; [|split]].
  - unfold clearAutoNextRound. case_decide; simpl; [|done].
    intros [_ Hn]%elem_of_difference. by apply Hn, elem_of_singleton.
  - intros room'. unfold clearAutoNextRound. case_decide as Hin; simpl.
    + apply setTransitioning_false_unlocked.
    + intros Hg. destruct (Room.transitioning room') eqn:Ht; [|done].
      destruct Hlk as [_ Hl]. exfalso. apply Hin. by eapply Hl.
  - by rewrite clearAutoNextRound_gameStates.
  - rewrite clearAutoNextRound_gameStates. simpl.
    revert Hleave. unfold leaveRoomBySocket.
    destruct (findRoomBySocket socket _) as [[rid room]|]; [|done].
    case_decide; intros [= <- <-]; simpl; done.
Qed.

(** X21. One player cannot start a rematch alone: as long as nobody else
    has asked, a request (also a repeated one) only records the player's
    number; the manager, and with it the game, and the timers are left as
    they are, and repeating the request changes nothing more. *)
Theorem rematch_waits_for_a_second_player
    (rand : nat → nat) (roomId : string) (p : Z) (srv : Server)
    (room : Room.t) :
  roomId ≠ EmptyString →
  p ≠ 0 →
  getRoom roomId (roomManager srv) = Some room →
  pendingRematch roomId srv ⊆ {[p]} →
  let srv1 := onRequestRematch rand roomId p srv in
  roomManager srv1 = roomManager srv
  ∧ nextRoundTimers srv1 = nextRoundTimers srv
  ∧ pendingRematch roomId srv1 = {[p]}
  ∧ onRequestRematch rand roomId p srv1 = srv1.
Proof.
  intros Hne Hp Hg Hsub srv1.
  assert (Hreq : ∀ s, pendingRematch roomId s ⊆ {[p]} →
            onRequestRematch rand roomId p s
            = (if decide (getRoom roomId (roomManager s) = None) then s
               else set_rematchRequests
                      (<[roomId := {[p]}]> (rematchRequests s)) s)).
  { intros s Hs. unfold onRequestRematch. rewrite decide_False by tauto.
    destruct (getRoom roomId (roomManager s)) as [r|]; [|done].
    assert (E : {[p]} ∪ pendingRematch roomId s = ({[p]} : gset Z))
      by (rewrite (union_comm_L {[p]}); by apply subseteq_union_1_L).
    rewrite E. rewrite size_singleton.
    rewrite (decide_False (P := (2 ≤ 1)%nat)) by lia.
    by rewrite decide_False. }
  assert (E1 : srv1 = set_rematchRequests
                        (<[roomId := {[p]}]> (rematchRequests srv)) srv).
  { subst srv1. rewrite Hreq by done. rewrite decide_False; [done|].
    by rewrite Hg. }
  assert (Hp1 : pendingRematch roomId srv1 = {[p]}).
  { rewrite E1. unfold pendingRematch. simpl. by rewrite lookup_insert_eq. }
  split; [by rewrite E1|]. split; [by rewrite E1|]. split; [done|].
  rewrite Hreq by (by rewrite Hp1).
  rewrite decide_False by (rewrite E1; simpl; by rewrite Hg).
  rewrite E1. unfold set_rematchRequests. simpl.
  by rewrite insert_insert_eq.
Qed.

(** X22. The request of a second player starts the rematch at once: when
    another number has already asked, the game is dealt again with the
    difficulty and the hand size the room remembers (easy and 6 when it
    remembers none), with no score and no history and both control flags
    off, the room's request set is removed, and the timers are not
    touched. *)
Theorem rematch_of_both_players_deals_again
    (rand : nat → nat) (roomId : string) (p q : Z) (srv : Server)
    (room : Room.t) :
  roomId ≠ EmptyString →
  q ≠ 0 →
  getRoom roomId (roomManager srv) = Some room →
  p ∈ pendingRematch roomId srv →
  p ≠ q →
  let srv1 := onRequestRematch rand roomId q srv in
  pendingRematch roomId srv1 = ∅
  ∧ nextRoundTimers srv1 = nextRoundTimers srv
  ∧ ∃ st,
      getGameState roomId (roomManager srv1) = Some st
      ∧ GameState.difficulty st
        = default "easy" (truthy_str (Room.difficulty room))
      ∧ GameState.initialCards st
        = default 6 (truthy_num (Room.initialCards room))
      ∧ GameState.player1Score st = 0 ∧ GameState.player2Score st = 0
      ∧ GameState.history st = []
      ∧ GameState.roundInProgress st = false
      ∧ GameState.gameOver st = false
      ∧ GameState.dealComplete st = false
      ∧ GameState.advanceClients st = false.
Proof.
  intros Hne Hq Hg Hin Hpq srv1. subst srv1. unfold onRequestRematch.
  rewrite decide_False by tauto. rewrite Hg.
  assert (Hsz : (2 ≤ size ({[q]} ∪ pendingRematch roomId srv))%nat).
  { assert (Hs : ({[q]} ∪ {[p]} : gset Z) ⊆ {[q]} ∪ pendingRematch roomId srv)
      by (apply union_mono_l; by apply singleton_subseteq_l).
    apply subseteq_size in Hs.
    rewrite size_union in Hs
      by (apply disjoint_singleton_l; by intros ?%elem_of_singleton).
    rewrite !size_singleton in Hs. lia. }
  rewrite decide_True by done. cbn [roomManager set_rematchRequests].
  set (d := default "easy" (truthy_str (Room.difficulty room))).
  set (n := default 6 (truthy_num (Room.initialCards room))).
  assert (Hd : d ≠ EmptyString).
  { subst d. destruct (Room.difficulty room) as [s|]; simpl; [|done].
    by case_decide. }
  assert (Hn : n ≠ 0).
  { subst n. destruct (Room.initialCards room) as [s|]; simpl; [|done].
    by case_decide. }
  destruct (initGameState_fresh rand roomId room (Options.mk (Some d) (Some n))
              (roomManager srv) Hg)
    as (st & room' & -> & Hd1 & Hn1 & _ & _ & Hrest).
  cbn [Options.difficulty Options.initialCards] in *.
  rewrite truthy_str_Some in Hd1 by done.
  rewrite truthy_num_Some in Hn1 by done.
  rewrite !option_union_Some_l in Hd1. rewrite !option_union_Some_l in Hn1.
  simpl in Hd1, Hn1.
  split; [unfold pendingRematch; simpl; by rewrite lookup_delete_eq|].
  split; [done|].
  exists (GameState.set_dealComplete false
            (GameState.set_advanceClients false st)).
  split.
  { unfold getGameState, onState. simpl. rewrite lookup_insert_eq. simpl.
    rewrite lookup_insert_eq. simpl. apply lookup_insert_eq. }
  destruct Hrest as (? & ? & ? & ? & ? & ? & ? & ? & _).
  destruct st; simpl in *. subst. done.
Qed.

(** X23. Only the member numbered 1 can start a game, and only in a room of
    two: a ['startGame'] that changes the server comes from a socket that is
    a member of the room with the number 1, and the room has at least two
    members. *)
Theorem startGame_requires_the_host_and_two_members
    (rand : nat → nat) (socket roomId : string) (payload : Payload.t)
    (srv : Server) :
  onStartGame rand socket roomId payload srv ≠ srv →
  roomId ≠ EmptyString
  ∧ ∃ room player,
      getRoom roomId (roomManager srv) = Some room
      ∧ JsMap.get socket (Room.players room) = Some player
      ∧ Player.playerNumber player = 1
      ∧ (2 ≤ JsMap.size (Room.players room))%nat.
Proof.
  unfold onStartGame. case_decide as Hne; [done|].
  destruct (getRoom _ _) as [room|]; [|done].
  destruct (JsMap.get socket _) as [player|] eqn:Hp; [|done].
  case_decide as Hn; [done|]. case_decide as Hsz; [done|].
  intros _. split; [done|]. exists room, player.
  split; [done|]. split; [done|]. split; [|lia].
  by destruct (decide (Player.playerNumber player = 1)).
Qed.

(** X24. Options set beforehand are used by the start: after a member has
    set a difficulty and a hand size with ['setRoomOptions'], a
    ['startGame'] of the host whose payload carries none deals with that
    difficulty and that hand size, and both control flags of the new state
    are off. *)
Theorem setRoomOptions_then_startGame_uses_the_options
    (rand : nat → nat) (member host roomId : string) (d : string) (n : Z)
    (srv : Server) (room : Room.t) (pm ph : Player.t) :
  roomId ≠ EmptyString →
  getRoom roomId (roomManager srv) = Some room →
  JsMap.get member (Room.players room) = Some pm →
  JsMap.get host (Room.players room) = Some ph →
  Player.playerNumber ph = 1 →
  (2 ≤ JsMap.size (Room.players room))%nat →
  d ≠ EmptyString →
  n > 0 →
  let srv1 :=
    onSetRoomOptions member roomId (Payload.mk (Some d) None [Some n]) srv in
  let srv2 := onStartGame rand host roomId (Payload.mk None None []) srv1 in
  ∃ st,
    getGameState roomId (roomManager srv2) = Some st
    ∧ GameState.difficulty st = d
    ∧ GameState.initialCards st = n
    ∧ length (GameState.player1Hand st) = (Z.to_nat n `min` 44)%nat
    ∧ GameState.dealComplete st = false
    ∧ GameState.advanceClients st = false.
Proof.
  intros Hne Hg Hpm Hph Hnum Hsz Hd Hn srv1 srv2.
  assert (E1 : ∃ room1,
    srv1 = set_roomManager
             (set_rooms (JsMap.set roomId room1 (rooms (roomManager srv)))
                (roomManager srv)) srv
    ∧ Room.players room1 = Room.players room
    ∧ Room.difficulty room1 = Some d
    ∧ Room.initialCards room1 = Some n).
  { subst srv1. unfold onSetRoomOptions. rewrite decide_False by done.
    rewrite Hg, Hpm. cbn [Payload.difficulty Payload.optionsDifficulty
                          Payload.counts pickNumber].
    rewrite truthy_str_Some by done. rewrite option_union_Some_l.
    rewrite decide_True by done.
    eexists. split; [reflexivity|]. done. }
  destruct E1 as (room1 & E1 & Hpl & Hrd & Hrn).
  assert (Hg1 : getRoom roomId (roomManager srv1) = Some room1).
  { rewrite E1. unfold getRoom. simpl. apply jsmap_get_set_eq. }
  subst srv2. unfold onStartGame. rewrite decide_False by done.
  rewrite Hg1, Hpl, Hph. rewrite decide_False by (intros ?; done).
  rewrite decide_False by lia.
  cbn [Payload.difficulty Payload.optionsDifficulty Payload.counts pickNumber].
  rewrite Hrd, Hrn. rewrite truthy_str_Some by done.
  rewrite truthy_num_Some by lia.
  cbn [truthy_str]. rewrite !option_union_None_l. cbn [default id].
  destruct (initGameState_fresh rand roomId room1 (Options.mk (Some d) (Some n))
              (roomManager srv1) Hg1)
    as (st & room' & -> & Hd1 & Hn1 & _ & _ & _ & _ & _ & _ & _ & _ & _ & _
        & Hlen & _).
  cbn [Options.difficulty Options.initialCards] in *.
  rewrite truthy_str_Some in Hd1 by done.
  rewrite truthy_num_Some in Hn1 by lia.
  rewrite !option_union_Some_l in Hd1. rewrite !option_union_Some_l in Hn1.
  simpl in Hd1, Hn1.
  exists (GameState.set_dealComplete false
            (GameState.set_advanceClients false st)).
  split.
  { unfold getGameState, onState. simpl. rewrite lookup_insert_eq. simpl.
    rewrite lookup_insert_eq. simpl. apply lookup_insert_eq. }
  rewrite Hn1 in Hlen. destruct st; simpl in *. subst. done.
Qed.

(** X25. An explicit reset deals a fresh game with the configuration the
    room remembers and removes the room's rematch requests, but it does not
    touch the auto-advance timer nor the transitioning flag: a room that was
    locked when the reset came is still locked, and its timer is still
    pending, on the new game. *)
Theorem resetGame_deals_again_and_keeps_the_lock
    (rand : nat → nat) (roomId : string) (srv : Server) (room : Room.t) :
  roomId ≠ EmptyString →
  getRoom roomId (roomManager srv) = Some room →
  let srv1 := onResetGame rand roomId srv in
  pendingRematch roomId srv1 = ∅
  ∧ nextRoundTimers srv1 = nextRoundTimers srv
  ∧ (∃ room1,
       getRoom roomId (roomManager srv1) = Some room1
       ∧ Room.transitioning room1 = Room.transitioning room
       ∧ JsMap.size (Room.players room1) = JsMap.size (Room.players room))
  ∧ ∃ st,
      getGameState roomId (roomManager srv1) = Some st
      ∧ GameState.difficulty st
        = default "easy" (truthy_str (Room.difficulty room))
      ∧ GameState.player1Score st = 0 ∧ GameState.player2Score st = 0
      ∧ GameState.history st = []
      ∧ GameState.roundInProgress st = false
      ∧ GameState.gameOver st = false
      ∧ GameState.dealComplete st = false
      ∧ GameState.advanceClients st = false.
Proof.
  intros Hne Hg srv1. subst srv1. unfold onResetGame.
  rewrite decide_False by done. rewrite Hg. unfold resetGameState.
  set (rm0 := set_gameStates _ _).
  destruct (initGameState_fresh rand roomId room Options.empty rm0 Hg)
    as (st & room' & E & Hd & _ & _ & _ & Hrest).
  rewrite E. cbn [Options.difficulty Options.empty truthy_str] in Hd.
  rewrite option_union_None_l in Hd.
  destruct Hrest as (? & ? & ? & ? & ? & ? & ? & ? & _ & Htr & Hsz).
  split; [unfold pendingRematch; simpl; by rewrite lookup_delete_eq|].
  split; [done|]. split.
  { exists room'. unfold getRoom. simpl. by rewrite jsmap_get_set_eq. }
  eexists. split; [unfold getGameState; simpl; apply lookup_insert_eq|].
  destruct st; simpl in *. subst. done.
Qed.

(** ** Room names *)

Lemma pickFrom_elem {A} (d : A) (r : nat) (arr : list A) :
  arr ≠ [] → pickFrom d r arr ∈ arr.
Proof.
  intros Hne. unfold pickFrom, random_below.
  assert (Hlt : (r mod length arr < length arr)%nat)
    by (apply Nat.mod_upper_bound; by destruct arr).
  destruct (lookup_lt_is_Some_2 arr _ Hlt) as [x Hx]. rewrite Hx. simpl.
  by eapply list_elem_of_lookup_2.
Qed.

Lemma pickFrom_pools (r r' : nat) :
  isNoun (pickFrom EmptyString r' (pickFrom [] r pools)).
Proof.
  assert (Hp : pickFrom [] r pools ∈ pools) by by apply pickFrom_elem.
  exists (pickFrom [] r pools). split; [done|].
  apply pickFrom_elem.
  unfold pools in Hp. set (pool := pickFrom [] r _) in *.
  repeat (apply elem_of_cons in Hp as [->|Hp]; [done|]).
  by apply elem_of_nil in Hp.
Qed.

Lemma candidateName_shape (d : NameDraw.t) :
  ∃ adj n1,
    adj ∈ adjectives ∧ isNoun n1
    ∧ (candidateName d = adj +:+ "-" +:+ n1
       ∨ ∃ n2, isNoun n2
               ∧ candidateName d = adj +:+ " " +:+ n1 +:+ "-" +:+ n2).
Proof.
  unfold candidateName. eexists _, _.
  split; [by apply pickFrom_elem|]. split; [apply pickFrom_pools|].
  destruct (NameDraw.multi d); [right|by left].
  eexists. split; [apply pickFrom_pools|done].
Qed.

Lemma tryNames_spec draws fallback rm n i :
  (∃ k, (i ≤ k < i + n)%nat
        ∧ tryNames draws fallback rm n i = candidateName (draws k)
        ∧ nameCollides (candidateName (draws k)) rm = false
        ∧ ∀ j, (i ≤ j < k)%nat →
               nameCollides (candidateName (draws j)) rm = true)
  ∨ (tryNames draws fallback rm n i = fallback
     ∧ ∀ j, (i ≤ j < i + n)%nat →
            nameCollides (candidateName (draws j)) rm = true).
Proof.
  revert i. induction n as [|n IH]; intros i; simpl.
  - right. split; [done|]. intros j ?. lia.
  - destruct (nameCollides (candidateName (draws i)) rm) eqn:Hc.
    + destruct (IH (S i)) as [(k & Hk & E & Hf & Hb)|[E Hall]].
      * left. exists k. split; [lia|]. split; [done|]. split; [done|].
        intros j Hj. destruct (decide (j = i)) as [->|]; [done|].
        apply Hb. lia.
      * right. split; [done|]. intros j Hj.
        destruct (decide (j = i)) as [->|]; [done|]. apply Hall. lia.
    + left. exists i. split; [lia|]. split; [done|]. split; [done|].
      intros j ?. lia.
Qed.

(** X26. [generateRoomName] returns the name of the first of its twelve
    attempts that no room of the manager bears, and the name [fun-] plus
    suffix only when all twelve attempts collide.  A name that is not the
    fallback is an adjective of the list joined to one noun by a hyphen, or
    to two nouns as [adj n1-n2], every noun taken from one of the four
    pools. *)
Theorem generateRoomName_is_unused_or_the_fallback
    (draws : nat → NameDraw.t) (suffix : string) (rm : RoomManager) :
  (∃ k adj n1,
     (k < 12)%nat
     ∧ generateRoomName draws suffix rm = candidateName (draws k)
     ∧ Forall (λ e, Room.name e.2 ≠ generateRoomName draws suffix rm)
         (rooms rm)
     ∧ (∀ j, (j < k)%nat →
             Exists (λ e, Room.name e.2 = candidateName (draws j)) (rooms rm))
     ∧ adj ∈ adjectives ∧ isNoun n1
     ∧ (generateRoomName draws suffix rm = adj +:+ "-" +:+ n1
        ∨ ∃ n2, isNoun n2
                ∧ generateRoomName draws suffix rm
                  = adj +:+ " " +:+ n1 +:+ "-" +:+ n2))
  ∨ (generateRoomName draws suffix rm = "fun-" +:+ suffix
     ∧ ∀ j, (j < 12)%nat →
            Exists (λ e, Room.name e.2 = candidateName (draws j)) (rooms rm)).
Proof.
  unfold generateRoomName.
  destruct (tryNames_spec draws ("fun-" +:+ suffix) rm 12 0)
    as [(k & Hk & E & Hf & Hb)|[E Hall]].
  - left. destruct (candidateName_shape (draws k)) as (adj & n1 & Ha & Hn & Hs).
    exists k, adj, n1. rewrite E. split; [lia|]. split; [done|].
    split.
    { unfold nameCollides in Hf. apply bool_decide_eq_false in Hf.
      apply not_Exists_Forall in Hf; [|apply _].
      eapply Forall_impl; [exact Hf|]. intros e He. exact He. }
    split; [|done].
    intros j Hj. specialize (Hb j ltac:(lia)).
    by apply bool_decide_eq_true in Hb.
  - right. split; [done|]. intros j Hj. specialize (Hall j ltac:(lia)).
    by apply bool_decide_eq_true in Hall.
Qed.

(** ** The room list *)

Lemma listRooms_ids rm : RoomSummary.roomId <$> listRooms rm = (rooms rm).*1.
Proof.
  unfold listRooms. rewrite <- list_fmap_compose.
  apply list_fmap_ext. by intros i [k r] _.
Qed.

Lemma present_all (ps : list (string * Player.t)) :
  Forall (λ e, Player.playerNumber e.2 = 1 ∨ Player.playerNumber e.2 = 2) ps →
  omap (λ e, if decide (Player.playerNumber e.2 = 0) then None
             else Some (Player.playerNumber e.2)) ps
  = (λ e, Player.playerNumber e.2) <$> ps.
Proof.
  induction 1 as [|e ps He _ IH]; [done|]. csimpl.
  rewrite decide_False by (destruct He as [-> | ->]; done).
  by rewrite IH.
Qed.

(** X27. In every state the server can reach [listRooms] gives one summary
    per room, in the order of the room table and with pairwise distinct room
    ids; every summary counts one or two players, lists exactly the numbers
    of the room's members, each 1 or 2, gives one status per member and no
    [lastEmptyAt]; so the admin endpoint never counts an empty room. *)
Theorem listRooms_in_reachable_states (srv : Server) :
  reachable srv →
  RoomSummary.roomId <$> listRooms (roomManager srv)
    = (rooms (roomManager srv)).*1
  ∧ NoDup (RoomSummary.roomId <$> listRooms (roomManager srv))
  ∧ Forall (λ s,
      (1 ≤ RoomSummary.players s ≤ 2)%nat
      ∧ length (RoomSummary.playersPresent s) = RoomSummary.players s
      ∧ Forall (λ n, n = 1 ∨ n = 2) (RoomSummary.playersPresent s)
      ∧ (RoomSummary.playersStatus s).*1 = RoomSummary.playersPresent s
      ∧ RoomSummary.lastEmptyAt s = None)
      (listRooms (roomManager srv))
  ∧ emptyRooms (roomManager srv) = 0%nat.
Proof.
  intros Hr. destruct (reachable_ok srv Hr) as [Hrooms _].
  destruct (reachable_locks_ok srv Hr) as [Hnd _].
  split; [apply listRooms_ids|]. split; [by rewrite listRooms_ids|].
  assert (Hall : Forall (λ s,
      (1 ≤ RoomSummary.players s ≤ 2)%nat
      ∧ length (RoomSummary.playersPresent s) = RoomSummary.players s
      ∧ Forall (λ n, n = 1 ∨ n = 2) (RoomSummary.playersPresent s)
      ∧ (RoomSummary.playersStatus s).*1 = RoomSummary.playersPresent s
      ∧ RoomSummary.lastEmptyAt s = None)
      (listRooms (roomManager srv))).
  { unfold listRooms. apply Forall_fmap.
    eapply Forall_impl; [exact Hrooms|].
    intros [rid room] (Hsz & Hle & Hpn). simpl in *.
    rewrite (present_all _ Hpn). rewrite Hle.
    split; [done|]. split; [by rewrite length_fmap|].
    split; [by apply Forall_fmap|]. split; [|done].
    rewrite <- list_fmap_compose. apply list_fmap_ext. by intros i e _. }
  split; [done|].
  unfold emptyRooms. apply length_zero_iff_nil.
  induction Hall as [|s l (Hs & Hlen & _) _ IH]; [done|].
  rewrite filter_cons, decide_False; [done|]. lia.
Qed.

(** ** The sweep *)

Lemma gc_fold now ttl (l : list (string * Room.t)) :
  ∀ removed rs gs,
    foldl (gc_entry now) (removed, mkRoomManager rs gs ttl) l
    = (removed ++ (filter (λ e, expired now ttl e.2) l).*1,
       mkRoomManager
         (foldl (λ rs k, JsMap.del k rs) rs
            (filter (λ e, expired now ttl e.2) l).*1)
         (foldl (λ gs k, delete k gs) gs
            (filter (λ e, expired now ttl e.2) l).*1) ttl).
Proof.
  induction l as [|[rid room] l IH]; intros removed rs gs.
  - simpl. by rewrite app_nil_r.
  - rewrite filter_cons. cbn [foldl gc_entry snd roomTTLMs].
    destruct (truthy_num (Room.lastEmptyAt room)) as [t|] eqn:Et;
      [destruct (decide (JsMap.size (Room.players room) = 0%nat)) as [Hz|Hz];
       [destruct (decide (now - t > ttl)) as [Ht|Ht]|]|].
    + assert (He : expired now ttl room = true).
      { unfold expired. rewrite Et.
        by rewrite !bool_decide_eq_true_2 by done. }
      rewrite (decide_True (P := Is_true (expired now ttl room)))
        by (by rewrite He).
      csimpl. rewrite IH. by rewrite <- app_assoc.
    + assert (He : expired now ttl room = false).
      { unfold expired. rewrite Et.
        rewrite (bool_decide_eq_false_2 (now - t > ttl)) by done.
        apply andb_false_r. }
      rewrite (decide_False (P := Is_true (expired now ttl room)))
        by (rewrite He; intros []).
      apply IH.
    + assert (He : expired now ttl room = false).
      { unfold expired.
        by rewrite (bool_decide_eq_false_2 (JsMap.size _ = 0%nat)) by done. }
      rewrite (decide_False (P := Is_true (expired now ttl room)))
        by (rewrite He; intros []).
      apply IH.
    + assert (He : expired now ttl room = false).
      { unfold expired. rewrite Et. apply andb_false_r. }
      rewrite (decide_False (P := Is_true (expired now ttl room)))
        by (rewrite He; intros []).
      apply IH.
Qed.

Lemma jsmap_del_filter {V} (k : string) (m : list (string * V)) :
  JsMap.del k m = filter (λ e, e.1 ≠ k) m.
Proof.
  induction m as [|[k' v] m IH]; [done|]. simpl. rewrite filter_cons. simpl.
  destruct (decide (k = k')) as [->|Hne].
  - by rewrite decide_False by (intros ?; done).
  - rewrite decide_True by done. by rewrite IH.
Qed.

Lemma foldl_del_filter {V} (keys : list string) (m : list (string * V)) :
  foldl (λ rs k, JsMap.del k rs) m keys = filter (λ e, e.1 ∉ keys) m.
Proof.
  revert m. induction keys as [|k keys IH]; intros m; simpl.
  - symmetry. apply filter_all. apply Forall_forall. intros e _.
    apply not_elem_of_nil.
  - rewrite IH, jsmap_del_filter, list_filter_filter.
    apply list_filter_iff. intros e. rewrite not_elem_of_cons. tauto.
Qed.

Lemma foldl_delete_lookup {V} (keys : list string) (m : gmap string V) k :
  foldl (λ gs k, delete k gs) m keys !! k
  = if decide (k ∈ keys) then None else m !! k.
Proof.
  revert m. induction keys as [|k' keys IH]; intros m; cbn [foldl].
  - rewrite decide_False; [done|apply not_elem_of_nil].
  - rewrite IH. destruct (decide (k = k')) as [->|Hne].
    + rewrite lookup_delete_eq. rewrite (decide_True (P := k' ∈ k' :: keys))
        by apply list_elem_of_here. by case_decide.
    + rewrite lookup_delete_ne by done.
      apply decide_ext. rewrite elem_of_cons. tauto.
Qed.

Lemma filter_ext_in {A} (P1 P2 : A → Prop)
    `{!∀ x, Decision (P1 x), !∀ x, Decision (P2 x)} (l : list A) :
  (∀ x, x ∈ l → P1 x ↔ P2 x) → filter P1 l = filter P2 l.
Proof.
  induction l as [|a l IH]; intros Hl; [done|].
  rewrite !filter_cons.
  rewrite IH by (intros x Hx; apply Hl; by apply list_elem_of_further).
  apply decide_ext, Hl, list_elem_of_here.
Qed.

(** X28. What the sweep does to a room table with distinct keys: it returns
    the ids of the rooms that have no member and carry a [lastEmptyAt]
    stamp older than the time to live, in table order; it keeps exactly the
    other rooms, in their order; it deletes the game states of the removed
    ids and keeps all others; the time to live is unchanged.  A room that
    has a member, that has no stamp, or whose stamp is not older than the
    time to live, is never removed. *)
Theorem garbageCollectRooms_removes_the_expired_rooms
    (now : Z) (rm : RoomManager) :
  NoDup (rooms rm).*1 →
  let removed := fst (garbageCollectRooms now rm) in
  let rm' := snd (garbageCollectRooms now rm) in
  removed
    = (filter (λ e, expired now (roomTTLMs rm) e.2) (rooms rm)).*1
  ∧ rooms rm'
    = filter (λ e, ¬ expired now (roomTTLMs rm) e.2) (rooms rm)
  ∧ (∀ k, gameStates rm' !! k
          = if decide (k ∈ removed) then None else gameStates rm !! k)
  ∧ roomTTLMs rm' = roomTTLMs rm.
Proof.
  intros Hnd removed rm'. subst removed rm'.
  unfold garbageCollectRooms. destruct rm as [rs gs ttl]. cbn [rooms roomTTLMs
    gameStates] in *. rewrite gc_fold. cbn [fst snd rooms gameStates roomTTLMs].
  rewrite app_nil_l. split; [done|]. split; [|split; [|done]].
  - rewrite foldl_del_filter. apply filter_ext_in. intros [k r] Hin. cbn [fst snd].
    split.
    + intros Hk He. apply Hk. apply list_elem_of_fmap. exists (k, r).
      split; [done|]. by apply list_elem_of_filter.
    + intros Hne (e & Hk & [He Hine]%list_elem_of_filter)%list_elem_of_fmap.
      destruct e as [k' r']. simpl in *. subst k'.
      pose proof (jsmap_elem_get _ _ _ Hnd Hin) as H1.
      pose proof (jsmap_elem_get _ _ _ Hnd Hine) as H2.
      rewrite H1 in H2. injection H2 as <-. done.
  - intros k. apply foldl_delete_lookup.
Qed.

(** ** When the option loop ends *)

Lemma wrongAnswer_low (c : Z) (d : nat * bool) :
  c ≤ -18 → wrongAnswer c d = 1 ∨ wrongAnswer c d = 2.
Proof.
  intros Hc. unfold wrongAnswer, random_below. simpl.
  pose proof (Nat.mod_upper_bound d.1 20). destruct d.2; lia.
Qed.

Lemma fillOptions_stuck (c : Z) (draws : list (nat * bool)) :
  c ≤ -18 →
  ∀ opts, NoDup opts → (∀ x, x ∈ opts → x ∈ [c; 1; 2]) →
          fillOptions draws c opts = None.
Proof.
  intros Hc. induction draws as [|d draws IH]; intros opts Hnd Hsub;
    assert (Hlen : (length opts ≤ 3)%nat)
      by (apply (submseteq_length opts [c; 1; 2]); by apply NoDup_submseteq);
    simpl; (rewrite decide_True by lia); [done|].
  apply IH; [by apply set_add_NoDup|].
  intros x [->|Hx]%set_add_elem; [|by apply Hsub].
  destruct (wrongAnswer_low c d Hc) as [-> | ->];
    repeat first [apply list_elem_of_here | apply list_elem_of_further].
Qed.

(** X29. On correct answers for which the additions are exact, the option
    loop can end only when at least three wrong answers exist: for a correct
    answer of -18 or less every wrong answer is clamped to 1 or 2, the set
    never reaches four values and [buildAnswerOptions] does not return,
    whatever the random draws; from -17 on some draws make it return. *)
Theorem buildAnswerOptions_returns_iff (c : Z) :
  exactAnswer c →
  (∃ draws picks opts, buildAnswerOptions draws picks c = Some opts)
  ↔ -17 ≤ c.
Proof.
  intros _. split.
  - intros (draws & picks & opts & Hb).
    destruct (decide (-17 ≤ c)) as [|Hc]; [done|]. exfalso.
    unfold buildAnswerOptions in Hb.
    rewrite (fillOptions_stuck c draws) in Hb; [done|lia|..].
    + unfold set_add. rewrite decide_False by apply not_elem_of_nil.
      apply NoDup_singleton.
    + intros x [->|Hx]%set_add_elem; [apply list_elem_of_here|].
      by apply elem_of_nil in Hx.
  - intros Hc.
    destruct (buildAnswerOptions_total
                [(19, true); (18, true); (17, true)]%nat [] c) as [opts Ho].
    + unfold enoughDraws.
      assert (E : wrongAnswer c <$> [(19, true); (18, true); (17, true)]%nat
                  = [c + 20; c + 19; c + 18]).
      { unfold wrongAnswer, random_below. simpl. f_equal; [lia|].
        f_equal; [lia|]. f_equal. lia. }
      rewrite E. rewrite size_list_to_set; [simpl; lia|].
      repeat (apply NoDup_cons; split;
              [rewrite ?elem_of_cons, elem_of_nil; lia|]).
      apply NoDup_nil_2.
    + by exists [(19, true); (18, true); (17, true)]%nat, [], opts.
Qed.

(** ** A game that has ended *)

(** X30. Once a hand is empty and no round is open the game cannot go on:
    no selection opens a round or changes a score, a hand or the history;
    every answer is rejected; and [nextRound] reports the game over, with
    the winner decided by the scores as they are, and leaves it ended.  Only
    a new deal gets the room out of this state. *)
Theorem ended_game_cannot_progress
    (roomId : string) (rm : RoomManager) (st : GameState.t) :
  gameStates rm !! roomId = Some st →
  state_ok st →
  gameEnded st →
  (∀ draws picks p cardId,
     ∃ st',
       playerSelectCard draws picks roomId p cardId rm
         = Some (Some st', store roomId st' rm)
       ∧ gameEnded st'
       ∧ GameState.player1Score st' = GameState.player1Score st
       ∧ GameState.player2Score st' = GameState.player2Score st
       ∧ GameState.player1Hand st' = GameState.player1Hand st
       ∧ GameState.player2Hand st' = GameState.player2Hand st
       ∧ GameState.history st' = GameState.history st)
  ∧ (∀ now p answer,
       playerSubmitAnswer now roomId p answer rm
       = (SubmitRejected
            (GameState.set_playersConnected (connectedCount roomId rm) st),
          store roomId
            (GameState.set_playersConnected (connectedCount roomId rm) st) rm))
  ∧ ∃ st',
      nextRound roomId rm = (Some st', store roomId st' rm)
      ∧ GameState.gameOver st' = true
      ∧ gameEnded st'
      ∧ GameState.player1Score st' = GameState.player1Score st
      ∧ GameState.player2Score st' = GameState.player2Score st
      ∧ GameState.history st' = GameState.history st
      ∧ GameState.winner st' = winnerByScore st.
Proof.
  intros Hst (_ & _ & H1 & H2) [Hempty Hrip].
  assert (Hsel : ∀ p cardId,
            (selectionsAfter p cardId st).1 = None
            ∨ (selectionsAfter p cardId st).2 = None).
  { intros p cardId. unfold selectionsAfter.
    destruct Hempty as [He|He]; case_decide; simpl; rewrite ?He; simpl.
    - by left.
    - left. destruct (GameState.player1SelectedCard st) as [c|]; [|done].
      specialize (H1 c eq_refl). rewrite He in H1. by apply elem_of_nil in H1.
    - right. destruct (GameState.player2SelectedCard st) as [c|]; [|done].
      specialize (H2 c eq_refl). rewrite He in H2. by apply elem_of_nil in H2.
    - by right. }
  split; [|split].
  - intros draws picks p cardId. specialize (Hsel p cardId).
    unfold playerSelectCard. rewrite Hst. unfold selectionsAfter in Hsel.
    destruct (default false _).
    { eexists. split; [reflexivity|]. split; [|done].
      split; [exact Hempty|exact Hrip]. }
    case_decide; simpl in *.
    + destruct (findCard cardId (GameState.player1Hand st)) as [c1|];
        destruct (GameState.player2SelectedCard st) as [c2|] eqn:E2;
        try (by destruct Hsel);
        eexists; (split; [reflexivity|]); simpl;
        (split; [split; [exact Hempty|exact Hrip]|done]).
    + destruct (GameState.player1SelectedCard st) as [c1|] eqn:E1;
        destruct (findCard cardId (GameState.player2Hand st)) as [c2|];
        try (by destruct Hsel);
        eexists; (split; [reflexivity|]); simpl;
        (split; [split; [exact Hempty|exact Hrip]|done]).
  - intros now p answer. unfold playerSubmitAnswer. rewrite Hst. simpl.
    by rewrite Hrip.
  - assert (Hempty' :
      removeSelected (GameState.player1SelectedCard st)
        (GameState.player1Hand st) = []
      ∨ removeSelected (GameState.player2SelectedCard st)
          (GameState.player2Hand st) = []).
    { destruct Hempty as [He|He]; [left|right];
        by rewrite He, removeSelected_nil. }
    unfold nextRound, winnerByScore. rewrite Hst. simpl.
    destruct (bool_decide _ || bool_decide _) eqn:E.
    + repeat case_decide; try lia;
        (eexists; split; [reflexivity|]); gs_norm; done.
    + exfalso. apply orb_false_iff in E as [E1 E2].
      apply bool_decide_eq_false in E1, E2.
      destruct Hempty' as [He|He]; rewrite He in *; done.
Qed.

(** ** The statements above, on the scenarios *)

Lemma lobby_reachable : reachable lobby.
Proof.
  apply (run_reachable (take 2 solvedRoundEvents) newServer);
    [apply reachable_new | vm_compute; reflexivity].
Qed.

Lemma finishedGame_reachable : reachable finishedGame.
Proof.
  apply (run_reachable (solvedRoundEvents ++ [EvNextRound "R"]) newServer);
    [apply reachable_new | vm_compute; reflexivity].
Qed.

Lemma create_then_join_fills_the_room_witness :
  "s1" ≠ "s2"
  ∧ ∃ room ack rm2,
      joinRoom "p2" 1 "R" "s2"
        (snd (createRoom "R" "p1" "happy-fox" 0 "s1" newRoomManager))
        = (JoinOk room ack, rm2)
      ∧ Ack.playerNumber ack = 2.
Proof.
  assert (H : "s1" ≠ "s2") by discriminate.
  destruct (create_then_join_fills_the_room "R" "p1" "happy-fox" 0 "s1" "p2" 1
              "s2" newRoomManager H)
    as (room & ack & rm2 & E & _ & E2 & _).
  exact (conj H (ex_intro _ room (ex_intro _ ack (ex_intro _ rm2 (conj E E2))))).
Defined.

Lemma initGameState_deals_within_the_deck_witness :
  getRoom "R" (roomManager lobby) = Some (roomOf lobby)
  ∧ (default "easy"
       (truthy_str None ∪ truthy_str (Room.difficulty (roomOf lobby)))
     ∉ Object_prototype_keys)
  ∧ ∃ st,
      fst (initGameState (λ i, (7 * i)%nat) "R" (Options.mk None (Some 30))
             (roomManager lobby)) = Some st
      ∧ length (GameState.player1Hand st)
        = (Z.to_nat (GameState.initialCards st) `min` 44)%nat.
Proof.
  assert (H1 : getRoom "R" (roomManager lobby) = Some (roomOf lobby))
    by (vm_compute; reflexivity).
  assert (H2 : default "easy"
                 (truthy_str None ∪ truthy_str (Room.difficulty (roomOf lobby)))
               ∉ Object_prototype_keys).
  { refine (bool_decide_unpack _ _). vm_compute. exact I. }
  destruct (initGameState_deals_within_the_deck (λ i, (7 * i)%nat) "R"
              (roomOf lobby) (Options.mk None (Some 30)) (roomManager lobby)
              H1 H2)
    as (st & room' & E & _ & _ & _ & _ & _ & L & _).
  exact (conj H1 (conj H2 (ex_intro _ st (conj E L)))).
Defined.

Lemma resetGameState_reuses_the_configuration_witness :
  getRoom "R" (roomManager lobby) = Some (roomOf lobby)
  ∧ "hard" ≠ EmptyString
  ∧ 24 ≠ 0
  ∧ ∃ st,
      fst (resetGameState (λ i, (3 * i)%nat) "R"
             (snd (initGameState (λ i, (7 * i)%nat) "R"
                     (Options.mk (Some "hard") (Some 24))
                     (roomManager lobby)))) = Some st
      ∧ GameState.difficulty st = "hard"
      ∧ GameState.initialCards st = 24.
Proof.
  assert (H1 : getRoom "R" (roomManager lobby) = Some (roomOf lobby))
    by (vm_compute; reflexivity).
  assert (H2 : "hard" ≠ EmptyString) by discriminate.
  assert (H3 : 24 ≠ 0) by discriminate.
  destruct (resetGameState_reuses_the_configuration (λ i, (7 * i)%nat)
              (λ i, (3 * i)%nat) "R" (roomOf lobby) "hard" 24
              (roomManager lobby) H1 H2 H3)
    as (st & E & _ & D & N & _).
  exact (conj H1 (conj H2 (conj H3 (ex_intro _ st (conj E (conj D N)))))).
Defined.

Lemma select_without_both_cards_starts_no_round_witness :
  gameStates (roomManager oneSelected) !! "R" = Some (stateOf oneSelected)
  ∧ default false
      (Room.transitioning <$> JsMap.get "R" (rooms (roomManager oneSelected)))
    = false
  ∧ ((selectionsAfter 1 "no-such-card" (stateOf oneSelected)).1 = None
     ∨ (selectionsAfter 1 "no-such-card" (stateOf oneSelected)).2 = None)
  ∧ ∃ st',
      playerSelectCard [] [] "R" 1 "no-such-card" (roomManager oneSelected)
        = Some (Some st', store "R" st' (roomManager oneSelected))
      ∧ GameState.player1SelectedCard st' = None
      ∧ GameState.revealEquation st' = false.
Proof.
  assert (H1 : gameStates (roomManager oneSelected) !! "R"
               = Some (stateOf oneSelected)) by (vm_compute; reflexivity).
  assert (H2 : default false
                 (Room.transitioning
                    <$> JsMap.get "R" (rooms (roomManager oneSelected)))
               = false) by (vm_compute; reflexivity).
  assert (H3 : (selectionsAfter 1 "no-such-card" (stateOf oneSelected)).1 = None
               ∨ (selectionsAfter 1 "no-such-card" (stateOf oneSelected)).2
                 = None)
    by (left; vm_compute; reflexivity).
  assert (H4 : (selectionsAfter 1 "no-such-card" (stateOf oneSelected)).1 = None)
    by (vm_compute; reflexivity).
  destruct (select_without_both_cards_starts_no_round [] [] (roomManager oneSelected)
              "R" (stateOf oneSelected) 1 "no-such-card" H1 H2 H3)
    as (st' & E & S & R & _).
  exact (conj H1 (conj H2 (conj H3
           (ex_intro _ st'
              (conj E (conj (eq_trans (f_equal fst S) H4) R)))))).
Defined.

Lemma select_with_both_cards_restarts_the_round_witness :
  gameStates (roomManager openRound) !! "R" = Some (stateOf openRound)
  ∧ state_ok (stateOf openRound)
  ∧ default false
      (Room.transitioning <$> JsMap.get "R" (rooms (roomManager openRound)))
    = false
  ∧ selectionsAfter 2 "hearts-4-2" (stateOf openRound)
    = (Some (Card.mk "hearts-3-1" 3 "hearts"),
       Some (Card.mk "hearts-4-2" 4 "hearts"))
  ∧ enoughDraws (3 * 4) [(0, true); (1, true); (2, true)]%nat
  ∧ ∃ st',
      playerSelectCard [(0, true); (1, true); (2, true)]%nat [] "R" 2
        "hearts-4-2" (roomManager openRound)
        = Some (Some st', store "R" st' (roomManager openRound))
      ∧ GameState.submittedAnswers st' = noAnswers.
Proof.
  assert (H1 : gameStates (roomManager openRound) !! "R"
               = Some (stateOf openRound)) by (vm_compute; reflexivity).
  assert (H2 : state_ok (stateOf openRound)).
  { destruct (reachable_ok openRound openRound_reachable) as [_ Hs].
    exact (Hs "R" (stateOf openRound) H1). }
  assert (H3 : default false
                 (Room.transitioning
                    <$> JsMap.get "R" (rooms (roomManager openRound)))
               = false) by (vm_compute; reflexivity).
  assert (H4 : selectionsAfter 2 "hearts-4-2" (stateOf openRound)
               = (Some (Card.mk "hearts-3-1" 3 "hearts"),
                  Some (Card.mk "hearts-4-2" 4 "hearts")))
    by (vm_compute; reflexivity).
  destruct (select_with_both_cards_restarts_the_round (roomManager openRound)
              "R" (stateOf openRound) 2 "hearts-4-2"
              (Card.mk "hearts-3-1" 3 "hearts") (Card.mk "hearts-4-2" 4 "hearts")
              H1 H2 H3 H4) as [Hrun Hen].
  destruct (Hrun _ [] Hen) as (st' & E & _ & _ & _ & _ & _ & S & _).
  exact (conj H1 (conj H2 (conj H3 (conj H4 (conj Hen
           (ex_intro _ st' (conj E S))))))).
Defined.

Lemma reachable_scores_tally_the_history_witness :
  reachable solvedRound
  ∧ getGameState "R" (roomManager solvedRound) = Some (stateOf solvedRound)
  ∧ GameState.player1Score (stateOf solvedRound)
    + GameState.player2Score (stateOf solvedRound)
    ≤ Z.of_nat (length (GameState.history (stateOf solvedRound))).
Proof.
  assert (H1 : getGameState "R" (roomManager solvedRound)
               = Some (stateOf solvedRound)) by (vm_compute; reflexivity).
  destruct (reachable_scores_tally_the_history solvedRound "R"
              (stateOf solvedRound) solvedRound_reachable H1)
    as (_ & _ & L & _).
  exact (conj solvedRound_reachable (conj H1 L)).
Defined.

Lemma reachable_round_is_well_formed_witness :
  reachable openRound
  ∧ getGameState "R" (roomManager openRound) = Some (stateOf openRound)
  ∧ round_ok (stateOf openRound).
Proof.
  assert (H1 : getGameState "R" (roomManager openRound)
               = Some (stateOf openRound)) by (vm_compute; reflexivity).
  exact (conj openRound_reachable
           (conj H1 (reachable_round_is_well_formed openRound "R"
                       (stateOf openRound) openRound_reachable H1))).
Defined.

Lemma reachable_game_over_names_the_winner_witness :
  reachable finishedGame
  ∧ getGameState "R" (roomManager finishedGame) = Some (stateOf finishedGame)
  ∧ over_ok (stateOf finishedGame).
Proof.
  assert (H1 : getGameState "R" (roomManager finishedGame)
               = Some (stateOf finishedGame)) by (vm_compute; reflexivity).
  exact (conj finishedGame_reachable
           (conj H1 (reachable_game_over_names_the_winner finishedGame "R"
                       (stateOf finishedGame) finishedGame_reachable H1))).
Defined.

Lemma reachable_hands_are_consistent_witness :
  reachable openRound
  ∧ getGameState "R" (roomManager openRound) = Some (stateOf openRound)
  ∧ state_ok (stateOf openRound).
Proof.
  assert (H1 : getGameState "R" (roomManager openRound)
               = Some (stateOf openRound)) by (vm_compute; reflexivity).
  exact (conj openRound_reachable
           (conj H1 (reachable_hands_are_consistent openRound "R"
                       (stateOf openRound) openRound_reachable H1))).
Defined.

Lemma locked_room_has_a_pending_timer_witness :
  reachable solvedRound
  ∧ getRoom "R" (roomManager solvedRound) = Some (roomOf solvedRound)
  ∧ Room.transitioning (roomOf solvedRound) = true
  ∧ "R" ∈ nextRoundTimers solvedRound.
Proof.
  assert (H1 : getRoom "R" (roomManager solvedRound)
               = Some (roomOf solvedRound)) by (vm_compute; reflexivity).
  assert (H2 : Room.transitioning (roomOf solvedRound) = true)
    by (vm_compute; reflexivity).
  destruct (locked_room_has_a_pending_timer solvedRound "R"
              (roomOf solvedRound) solvedRound_reachable H1 H2) as [T _].
  exact (conj solvedRound_reachable (conj H1 (conj H2 T))).
Defined.

Lemma events_on_an_unknown_room_change_nothing_witness :
  getRoom "NOPE" (roomManager lobby) = None
  ∧ handle (EvNextRound "NOPE") lobby = Some lobby.
Proof.
  assert (H1 : getRoom "NOPE" (roomManager lobby) = None)
    by (vm_compute; reflexivity).
  destruct (events_on_an_unknown_room_change_nothing lobby "NOPE" H1)
    as (_ & _ & _ & N & _).
  exact (conj H1 N).
Defined.

Lemma answer_that_resolves_the_round_locks_the_room_witness :
  "R" ≠ EmptyString
  ∧ getRoom "R" (roomManager openRound) = Some (roomOf openRound)
  ∧ ("R" ∉ nextRoundTimers openRound)
  ∧ ∃ st',
      playerSubmitAnswer 5 "R" 2 (GameState.correctAnswer (stateOf openRound))
        (roomManager openRound)
        = (SubmitAccepted st' true, store "R" st' (roomManager openRound))
      ∧ GameState.problemSolved st' = true
      ∧ nextRoundTimers
          (onAnswerSubmitted 5 "R" 2
             (GameState.correctAnswer (stateOf openRound)) openRound)
        = {[ "R" ]} ∪ nextRoundTimers openRound.
Proof.
  assert (H0 : "R" ≠ EmptyString) by discriminate.
  assert (H1 : getRoom "R" (roomManager openRound) = Some (roomOf openRound))
    by (vm_compute; reflexivity).
  assert (H2 : "R" ∉ nextRoundTimers openRound).
  { refine (bool_decide_unpack _ _). vm_compute. exact I. }
  assert (H3 : gameStates (roomManager openRound) !! "R"
               = Some (stateOf openRound)) by (vm_compute; reflexivity).
  assert (H4 : GameState.roundInProgress (stateOf openRound) = true)
    by (vm_compute; reflexivity).
  assert (H5 : GameState.problemSolved (stateOf openRound) = false)
    by (vm_compute; reflexivity).
  destruct (submit_correct (roomManager openRound) "R" (stateOf openRound) H3
              5 2 H4 H5 (or_intror eq_refl))
    as (st' & E & _ & _ & S & _).
  pose proof (answer_that_resolves_the_round_locks_the_room 5 "R" 2
                (GameState.correctAnswer (stateOf openRound)) openRound
                (roomOf openRound) st' true
                (store "R" st' (roomManager openRound)) H0 H1 H2 E) as L.
  cbv zeta in L. rewrite S in L. destruct L as [T _].
  exact (conj H0 (conj H1 (conj H2 (ex_intro _ st' (conj E (conj S T)))))).
Defined.

Lemma disconnect_cancels_the_pending_advance_witness :
  reachable solvedRound
  ∧ leaveRoomBySocket "s2" (roomManager solvedRound)
    = (Some (Left.mk "R" false 1),
       snd (leaveRoomBySocket "s2" (roomManager solvedRound)))
  ∧ "R" ∈ nextRoundTimers solvedRound
  ∧ ("R" ∉ nextRoundTimers (onDisconnect "s2" solvedRound)).
Proof.
  assert (H1 : leaveRoomBySocket "s2" (roomManager solvedRound)
               = (Some (Left.mk "R" false 1),
                  snd (leaveRoomBySocket "s2" (roomManager solvedRound))))
    by (vm_compute; reflexivity).
  assert (H2 : "R" ∈ nextRoundTimers solvedRound).
  { refine (bool_decide_unpack _ _). vm_compute. exact I. }
  destruct (disconnect_cancels_the_pending_advance solvedRound "s2"
              (Left.mk "R" false 1)
              (snd (leaveRoomBySocket "s2" (roomManager solvedRound)))
              solvedRound_reachable H1) as [T _].
  exact (conj solvedRound_reachable (conj H1 (conj H2 T))).
Defined.

Lemma rematch_waits_for_a_second_player_witness :
  "R" ≠ EmptyString
  ∧ 1 ≠ 0
  ∧ getRoom "R" (roomManager finishedGame) = Some (roomOf finishedGame)
  ∧ pendingRematch "R" finishedGame ⊆ {[1]}
  ∧ roomManager (onRequestRematch (λ _, 0%nat) "R" 1 finishedGame)
    = roomManager finishedGame.
Proof.
  assert (H0 : "R" ≠ EmptyString) by discriminate.
  assert (H1 : 1 ≠ 0) by discriminate.
  assert (H2 : getRoom "R" (roomManager finishedGame)
               = Some (roomOf finishedGame)) by (vm_compute; reflexivity).
  assert (H3 : pendingRematch "R" finishedGame ⊆ {[1]}).
  { refine (bool_decide_unpack _ _). vm_compute. exact I. }
  destruct (rematch_waits_for_a_second_player (λ _, 0%nat) "R" 1 finishedGame
              (roomOf finishedGame) H0 H1 H2 H3) as [T _].
  exact (conj H0 (conj H1 (conj H2 (conj H3 T)))).
Defined.

Lemma rematch_of_both_players_deals_again_witness :
  "R" ≠ EmptyString
  ∧ 2 ≠ 0
  ∧ getRoom "R" (roomManager (onRequestRematch (λ _, 0%nat) "R" 1 finishedGame))
    = Some (roomOf finishedGame)
  ∧ 1 ∈ pendingRematch "R" (onRequestRematch (λ _, 0%nat) "R" 1 finishedGame)
  ∧ 1 ≠ 2
  ∧ pendingRematch "R"
      (onRequestRematch (λ _, 0%nat) "R" 2
         (onRequestRematch (λ _, 0%nat) "R" 1 finishedGame)) = ∅.
Proof.
  assert (H0 : "R" ≠ EmptyString) by discriminate.
  assert (H1 : 2 ≠ 0) by discriminate.
  assert (H2 : getRoom "R"
                 (roomManager (onRequestRematch (λ _, 0%nat) "R" 1 finishedGame))
               = Some (roomOf finishedGame)) by (vm_compute; reflexivity).
  assert (H3 : 1 ∈ pendingRematch "R"
                     (onRequestRematch (λ _, 0%nat) "R" 1 finishedGame)).
  { refine (bool_decide_unpack _ _). vm_compute. exact I. }
  assert (H4 : 1 ≠ 2) by discriminate.
  destruct (rematch_of_both_players_deals_again (λ _, 0%nat) "R" 1 2
              (onRequestRematch (λ _, 0%nat) "R" 1 finishedGame)
              (roomOf finishedGame) H0 H1 H2 H3 H4) as [T _].
  exact (conj H0 (conj H1 (conj H2 (conj H3 (conj H4 T))))).
Defined.

Lemma startGame_requires_the_host_and_two_members_witness :
  onStartGame (λ _, 0%nat) "s1" "R" (Payload.mk (Some "test") None []) lobby
    ≠ lobby
  ∧ ∃ room player,
      getRoom "R" (roomManager lobby) = Some room
      ∧ JsMap.get "s1" (Room.players room) = Some player
      ∧ Player.playerNumber player = 1.
Proof.
  assert (H : onStartGame (λ _, 0%nat) "s1" "R"
                (Payload.mk (Some "test") None []) lobby ≠ lobby).
  { intros E.
    apply (f_equal (λ s, bool_decide
                           (is_Some (gameStates (roomManager s) !! "R")))) in E.
    vm_compute in E. discriminate E. }
  destruct (startGame_requires_the_host_and_two_members (λ _, 0%nat) "s1" "R"
              (Payload.mk (Some "test") None []) lobby H)
    as (_ & room & player & G & P & N & _).
  exact (conj H (ex_intro _ room (ex_intro _ player (conj G (conj P N))))).
Defined.

Lemma setRoomOptions_then_startGame_uses_the_options_witness :
  "R" ≠ EmptyString
  ∧ getRoom "R" (roomManager lobby) = Some (roomOf lobby)
  ∧ JsMap.get "s2" (Room.players (roomOf lobby))
    = Some (Player.mk "p2" 2 "s2" "lobby")
  ∧ JsMap.get "s1" (Room.players (roomOf lobby))
    = Some (Player.mk "p1" 1 "s1" "lobby")
  ∧ (2 ≤ JsMap.size (Room.players (roomOf lobby)))%nat
  ∧ "hard" ≠ EmptyString
  ∧ 10 > 0
  ∧ ∃ st,
      getGameState "R"
        (roomManager
           (onStartGame (λ i, (5 * i)%nat) "s1" "R" (Payload.mk None None [])
              (onSetRoomOptions "s2" "R"
                 (Payload.mk (Some "hard") None [Some 10]) lobby)))
        = Some st
      ∧ GameState.difficulty st = "hard"
      ∧ GameState.initialCards st = 10.
Proof.
  assert (H0 : "R" ≠ EmptyString) by discriminate.
  assert (H1 : getRoom "R" (roomManager lobby) = Some (roomOf lobby))
    by (vm_compute; reflexivity).
  assert (H2 : JsMap.get "s2" (Room.players (roomOf lobby))
               = Some (Player.mk "p2" 2 "s2" "lobby"))
    by (vm_compute; reflexivity).
  assert (H3 : JsMap.get "s1" (Room.players (roomOf lobby))
               = Some (Player.mk "p1" 1 "s1" "lobby"))
    by (vm_compute; reflexivity).
  assert (H4 : (2 ≤ JsMap.size (Room.players (roomOf lobby)))%nat)
    by (vm_compute; lia).
  assert (H5 : "hard" ≠ EmptyString) by discriminate.
  assert (H6 : 10 > 0) by lia.
  destruct (setRoomOptions_then_startGame_uses_the_options (λ i, (5 * i)%nat)
              "s2" "s1" "R" "hard" 10 lobby (roomOf lobby)
              (Player.mk "p2" 2 "s2" "lobby") (Player.mk "p1" 1 "s1" "lobby")
              H0 H1 H2 H3 eq_refl H4 H5 H6)
    as (st & G & D & N & _).
  exact (conj H0 (conj H1 (conj H2 (conj H3 (conj H4 (conj H5 (conj H6
           (ex_intro _ st (conj G (conj D N)))))))))).
Defined.

Lemma listRooms_in_reachable_states_witness :
  reachable solvedRound ∧ emptyRooms (roomManager solvedRound) = 0%nat.
Proof.
  destruct (listRooms_in_reachable_states solvedRound solvedRound_reachable)
    as (_ & _ & _ & Z0).
  exact (conj solvedRound_reachable Z0).
Defined.

Lemma garbageCollectRooms_removes_the_expired_rooms_witness :
  NoDup (rooms staleRegistry).*1
  ∧ fst (garbageCollectRooms 700000 staleRegistry)
    = (filter (λ e, expired 700000 (roomTTLMs staleRegistry) e.2)
         (rooms staleRegistry)).*1
  ∧ fst (garbageCollectRooms 700000 staleRegistry) = ["OLD"].
Proof.
  assert (H : NoDup (rooms staleRegistry).*1).
  { refine (bool_decide_unpack _ _). vm_compute. exact I. }
  assert (H2 : fst (garbageCollectRooms 700000 staleRegistry) = ["OLD"])
    by (vm_compute; reflexivity).
  destruct (garbageCollectRooms_removes_the_expired_rooms 700000 staleRegistry H)
    as [R _].
  exact (conj H (conj R H2)).
Defined.

Lemma ended_game_cannot_progress_witness :
  gameStates (roomManager finishedGame) !! "R" = Some (stateOf finishedGame)
  ∧ state_ok (stateOf finishedGame)
  ∧ gameEnded (stateOf finishedGame)
  ∧ ∃ st',
      nextRound "R" (roomManager finishedGame)
        = (Some st', store "R" st' (roomManager finishedGame))
      ∧ GameState.gameOver st' = true.
Proof.
  assert (H1 : gameStates (roomManager finishedGame) !! "R"
               = Some (stateOf finishedGame)) by (vm_compute; reflexivity).
  assert (H2 : state_ok (stateOf finishedGame)).
  { destruct (reachable_ok finishedGame finishedGame_reachable) as [_ Hs].
    exact (Hs "R" (stateOf finishedGame) H1). }
  assert (H3a : GameState.player1Hand (stateOf finishedGame) = [])
    by (vm_compute; reflexivity).
  assert (H3b : GameState.roundInProgress (stateOf finishedGame) = false)
    by (vm_compute; reflexivity).
  assert (H3 : gameEnded (stateOf finishedGame))
    by exact (conj (or_introl H3a) H3b).
  destruct (ended_game_cannot_progress "R" (roomManager finishedGame)
              (stateOf finishedGame) H1 H2 H3)
    as (_ & _ & st' & E & G & _).
  exact (conj H1 (conj H2 (conj H3 (ex_intro _ st' (conj E G))))).
Defined.

Lemma resetGame_deals_again_and_keeps_the_lock_witness :
  "R" ≠ EmptyString
  ∧ getRoom "R" (roomManager solvedRound) = Some (roomOf solvedRound)
  ∧ Room.transitioning (roomOf solvedRound) = true
  ∧ nextRoundTimers (onResetGame (λ _, 0%nat) "R" solvedRound)
    = nextRoundTimers solvedRound
  ∧ ∃ room1,
      getRoom "R" (roomManager (onResetGame (λ _, 0%nat) "R" solvedRound))
        = Some room1
      ∧ Room.transitioning room1 = true.
Proof.
  assert (H0 : "R" ≠ EmptyString) by discriminate.
  assert (H1 : getRoom "R" (roomManager solvedRound) = Some (roomOf solvedRound))
    by (vm_compute; reflexivity).
  assert (H2 : Room.transitioning (roomOf solvedRound) = true)
    by (vm_compute; reflexivity).
  destruct (resetGame_deals_again_and_keeps_the_lock (λ _, 0%nat) "R"
              solvedRound (roomOf solvedRound) H0 H1)
    as (_ & T & (room1 & G & L & _) & _).
  exact (conj H0 (conj H1 (conj H2 (conj T
           (ex_intro _ room1 (conj G (eq_trans L H2))))))).
Defined.

Lemma wrongAnswer_range_witness :
  exactAnswer 12
  ∧ Z.max 1 (12 - 20) ≤ wrongAnswer 12 (7%nat, false) ≤ Z.max 1 (12 + 20).
Proof.
  assert (H : exactAnswer 12) by (unfold exactAnswer; lia).
  destruct (wrongAnswer_range 12 (7%nat, false) H) as (_ & R & _).
  exact (conj H R).
Defined.

Lemma buildAnswerOptions_returns_iff_witness :
  exactAnswer 12
  ∧ ∃ draws picks opts, buildAnswerOptions draws picks 12 = Some opts.
Proof.
  assert (H : exactAnswer 12) by (unfold exactAnswer; lia).
  assert (H2 : -17 ≤ 12) by lia.
  exact (conj H (proj2 (buildAnswerOptions_returns_iff 12 H) H2)).
Defined.

(** * The two triggers of a round advance, with other events between *)

(** ** What happens between the two triggers *)

Lemma calm_insert (r r' : string) (x : GameState.t)
    (m : gmap string GameState.t) :
  (∀ st, m !! r = Some st → calm st) →
  (r' = r → calm x) →
  ∀ st, <[r' := x]> m !! r = Some st → calm st.
Proof.
  intros Hm Hx st. destruct (decide (r' = r)) as [->|Hne].
  - rewrite lookup_insert_eq. intros [= <-]. by apply Hx.
  - rewrite lookup_insert_ne by done. apply Hm.
Qed.

Lemma calm_delete (r r' : string) (m : gmap string GameState.t) :
  (∀ st, m !! r = Some st → calm st) →
  ∀ st, delete r' m !! r = Some st → calm st.
Proof.
  intros Hm st. destruct (decide (r' = r)) as [->|Hne].
  - by rewrite lookup_delete_eq.
  - rewrite lookup_delete_ne by done. apply Hm.
Qed.

Lemma initGameState_calm rand r r' options rm :
  (∀ st, gameStates rm !! r = Some st → calm st) →
  ∀ st, gameStates (snd (initGameState rand r' options rm)) !! r = Some st →
        calm st.
Proof.
  intros Hm. unfold initGameState.
  destruct (JsMap.get r' (rooms rm)) as [room|]; [|done].
  simpl. apply calm_insert; [done|]. intros _. done.
Qed.

Lemma resetGameState_calm rand r r' rm :
  (∀ st, gameStates rm !! r = Some st → calm st) →
  ∀ st, gameStates (snd (resetGameState rand r' rm)) !! r = Some st → calm st.
Proof.
  intros Hm. unfold resetGameState.
  set (rm0 := set_gameStates (delete r' (gameStates rm)) rm).
  assert (H0 : ∀ st, gameStates rm0 !! r = Some st → calm st)
    by by apply calm_delete.
  unfold initGameState.
  destruct (JsMap.get r' (rooms rm0)) as [room|]; [|done].
  simpl. apply calm_insert; [|done].
  by apply calm_insert.
Qed.

Lemma onState_calm f r r' rm :
  (∀ st, calm st → calm (f st)) →
  (∀ st, gameStates rm !! r = Some st → calm st) →
  ∀ st, gameStates (onState f r' rm) !! r = Some st → calm st.
Proof.
  intros Hf Hm. unfold onState.
  destruct (gameStates rm !! r') as [x|] eqn:Hx; [|done].
  simpl. apply calm_insert; [done|]. intros ->. apply Hf. by apply Hm.
Qed.

Lemma nextRound_calm r r' rm :
  (∀ st, gameStates rm !! r = Some st → calm st) →
  ∀ st, gameStates (snd (nextRound r' rm)) !! r = Some st → calm st.
Proof.
  intros Hm. unfold nextRound.
  destruct (gameStates rm !! r') as [x|]; [|done].
  simpl. apply calm_insert; [done|]. intros _.
  destruct (bool_decide _ || bool_decide _); repeat case_decide; done.
Qed.

Lemma playerSelectCard_elsewhere draws picks r r' p cardId rm res :
  r' ≠ r →
  playerSelectCard draws picks r' p cardId rm = Some res →
  gameStates (snd res) !! r = gameStates rm !! r.
Proof.
  intros Hne. unfold playerSelectCard.
  destruct (gameStates rm !! r') as [st|]; [|by intros [= <-]].
  destruct (default false _);
    [intros [= <-]; simpl; by rewrite lookup_insert_ne|].
  case_decide; simpl;
    (destruct (findCard cardId _)); simpl;
    try (destruct (GameState.player1SelectedCard st));
    try (destruct (GameState.player2SelectedCard st));
    try (destruct (buildAnswerOptions _ _ _)); simpl;
    try done; intros [= <-]; simpl; by rewrite lookup_insert_ne.
Qed.

(** On a calm game every answer is turned away. *)
Lemma playerSubmitAnswer_calm now r r' p answer rm :
  (∀ st, gameStates rm !! r = Some st → calm st) →
  (∀ st, gameStates (snd (playerSubmitAnswer now r' p answer rm)) !! r
         = Some st → calm st)
  ∧ (r' = r →
     ∀ st ic, fst (playerSubmitAnswer now r' p answer rm)
              ≠ SubmitAccepted st ic).
Proof.
  intros Hm. unfold playerSubmitAnswer.
  destruct (gameStates rm !! r') as [x|] eqn:Hx; [|by split].
  destruct (decide (r' = r)) as [->|Hne].
  - destruct (Hm x Hx) as (H1 & H2 & H3). simpl. rewrite H3. simpl.
    split; [|done]. apply calm_insert; [done|]. done.
  - split; [|done]. intros st.
    repeat first [case_match | case_decide]; simpl;
      rewrite lookup_insert_ne by done; apply Hm.
Qed.

Lemma settled_step (r : string) (ev : Event) (srv srv' : Server) :
  srv_ok srv →
  settled r srv →
  ¬ selectsIn r ev →
  handle ev srv = Some srv' →
  settled r srv'.
Proof.
  intros Hok [Ht Hc] Hev.
  destruct ev; simpl in *.
  - intros [= <-]. done.
  - intros [= <-]. unfold onJoinRoom. case_decide; [done|].
    pose proof (joinRoom_gameStates playerId now roomId socket
                  (roomManager srv)) as Hj.
    destruct (joinRoom _ _ _ _ _) as [[e|room response] rm]; [done|].
    simpl in *. split; [done|]. destruct (truthy_num _); simpl; by rewrite Hj.
  - unfold onCardSelected. case_decide; [by intros [= <-]|].
    destruct (getRoom _ _); [|by intros [= <-]].
    destruct (playerSelectCard _ _ _ _ _ _) as [res|] eqn:Hsel; [|done].
    simpl. intros [= <-]. split; [done|]. simpl.
    by rewrite (playerSelectCard_elsewhere _ _ _ _ _ _ _ _ Hev Hsel).
  - intros [= <-]. unfold onAnswerSubmitted. case_decide; [done|].
    destruct (getRoom _ _); [|done].
    destruct (playerSubmitAnswer_calm now r roomId playerNumber answer
                (roomManager srv) Hc) as [Hc' Hrej].
    destruct (playerSubmitAnswer _ _ _ _ _) as [[|st|st ic] rm]; simpl in *;
      try done.
    destruct (GameState.problemSolved st); [|done].
    assert (Hne : roomId ≠ r) by (intros ->; by eapply Hrej).
    unfold scheduleAutoNextRound. simpl. case_decide.
    + split; [done|]. simpl. by apply onState_calm.
    + split; simpl.
      * intros [->%elem_of_singleton|?]%elem_of_union; done.
      * rewrite setTransitioning_gameStates. by apply onState_calm.
  - intros [= <-]. unfold onNextRound. case_decide; [done|].
    destruct (getRoom _ _); [|done].
    assert (Hc1 : settled r (clearAutoNextRound roomId srv)).
    { unfold clearAutoNextRound. case_decide; [|done]. split; simpl.
      - intros [? _]%elem_of_difference. done.
      - by rewrite setTransitioning_gameStates. }
    destruct Hc1 as [Ht1 Hc1].
    pose proof (nextRound_calm r roomId _ Hc1) as Hn.
    destruct (nextRound _ _) as [[st|] rm]; simpl in *; [|done].
    split; [done|]. simpl. by apply onState_calm.
  - intros [= <-]. unfold onResetGame. case_decide; [done|].
    destruct (getRoom _ _); [|done].
    pose proof (resetGameState_calm rand r roomId _ Hc) as Hn.
    destruct (resetGameState _ _ _) as [[st|] rm]; done.
  - intros [= <-]. unfold onRequestRematch. case_decide; [done|].
    destruct (getRoom _ _) as [room|]; [|done].
    case_decide; [|done]. simpl.
    match goal with |- context [initGameState ?ra ?i ?o ?m] =>
      pose proof (initGameState_calm ra r i o m Hc) as Hn;
      destruct (initGameState ra i o m) as [[st|] rm] end; simpl in *; [|done].
    split; [done|]. simpl. by repeat apply onState_calm.
  - intros [= <-]. unfold onSetPresence. case_decide; [done|].
    case_decide; (split; [done|]); simpl.
    + unfold leaveRoomBySocket.
      destruct (findRoomBySocket socket _) as [[rid room]|]; [|done].
      case_decide; simpl; [by apply calm_delete|done].
    + by rewrite setPlayerStatus_gameStates.
  - intros [= <-]. unfold onSetRoomOptions. case_decide; [done|].
    destruct (getRoom _ _) as [room|] eqn:Hg; [|done].
    destruct (JsMap.get socket _); done.
  - intros [= <-]. unfold onStartGame. case_decide; [done|].
    destruct (getRoom _ _) as [room|]; [|done].
    destruct (JsMap.get socket _); [|done].
    case_decide; [done|]. case_decide; [done|].
    match goal with |- context [initGameState ?ra ?i ?o ?m] =>
      pose proof (initGameState_calm ra r i o m Hc) as Hn;
      destruct (initGameState ra i o m) as [[st|] rm] end; simpl in *; [|done].
    split; [done|]. simpl. by repeat apply onState_calm.
  - intros [= <-]. split; [done|]. simpl. unfold leaveRoomBySocket.
    destruct (findRoomBySocket socket _) as [[rid room]|]; [|done].
    case_decide; simpl; [by apply calm_delete|done].
  - intros [= <-]. unfold onDisconnect.
    assert (Hl : ∀ st, gameStates (snd (leaveRoomBySocket socket
                                          (roomManager srv))) !! r = Some st →
                       calm st).
    { unfold leaveRoomBySocket.
      destruct (findRoomBySocket socket _) as [[rid room]|]; [|done].
      case_decide; simpl; [by apply calm_delete|done]. }
    destruct (leaveRoomBySocket _ _) as [[res|] rm]; simpl in *; [|done].
    unfold clearAutoNextRound. simpl. case_decide; [|done]. split; simpl.
    + intros [? _]%elem_of_difference. done.
    + by rewrite setTransitioning_gameStates.
  - case_decide; intros [= <-]; [|done]. unfold autoNextRound. split; simpl.
    + intros [? _]%elem_of_difference. done.
    + rewrite setTransitioning_gameStates.
      destruct (getRoom _ _); [|done].
      pose proof (nextRound_calm r roomId _ Hc) as Hn.
      destruct (nextRound _ _) as [[st|] rm]; simpl in *; [|done].
      by apply onState_calm.
  - intros [= <-]. unfold onGarbageCollect.
    rewrite garbageCollectRooms_noop by apply Hok. by destruct srv.
Qed.

Lemma settled_run (r : string) (evs : list Event) (srv srv' : Server) :
  srv_ok srv →
  settled r srv →
  Forall (λ ev, ¬ selectsIn r ev) evs →
  run evs srv = Some srv' →
  srv_ok srv' ∧ settled r srv'.
Proof.
  revert srv. induction evs as [|ev evs IH]; intros srv Hok Hs Hevs; simpl.
  - by intros [= <-].
  - apply Forall_cons in Hevs as [Hev Hevs].
    destruct (handle ev srv) as [srv1|] eqn:Hh; [|done]. simpl.
    apply IH; [by eapply handle_ok|by eapply settled_step|done].
Qed.

(** A request that finds the room settled removes no card. *)
Lemma onNextRound_settled (r : string) (srv : Server) :
  settled r srv →
  handsOf r (onNextRound r srv) = handsOf r srv.
Proof.
  intros [Ht Hc]. unfold onNextRound. case_decide; [done|].
  destruct (getRoom _ _); [|done].
  unfold clearAutoNextRound. rewrite decide_False by done.
  unfold nextRound, handsOf.
  destruct (gameStates (roomManager srv) !! r) as [st|] eqn:Hst.
  - destruct (Hc st eq_refl) as (H1 & H2 & _).
    simpl. unfold onState. simpl. rewrite lookup_insert_eq. simpl.
    rewrite lookup_insert_eq. simpl. rewrite H1, H2. simpl.
    destruct (bool_decide _ || bool_decide _); repeat case_decide; done.
  - simpl. by rewrite Hst.
Qed.

Lemma nextRound_leaves_calm roomId rm st1 rm1 :
  nextRound roomId rm = (Some st1, rm1) → calm st1.
Proof.
  unfold nextRound.
  destruct (gameStates rm !! roomId) as [st|]; [|done]. simpl.
  destruct (bool_decide _ || bool_decide _); repeat case_decide;
    intros [= <- _]; done.
Qed.

(** C6, amended. In a state the server can reach, a room with a game state
    and a pending auto-advance timer receives both the ['nextRound'] request
    and the firing of the timer, with no card selection for the room handled
    between the two.  The advance takes effect once.  One right after the
    other, in either order, the two end in the same state, in which each
    hand has lost exactly the card its player had selected (the hand before
    is [l1 ++ c :: l2], the hand after is [l1 ++ l2], with no card of that id
    left) and a hand without a selection is as it was; both selections are
    cleared, the timer is gone and the room is no longer transitioning.  When
    the request comes first it cancels the timer, and the timer event does
    nothing, also after other events; when the timer fires first the request
    removes no card, also after other events. *)
Theorem next_round_request_and_timer_advance_once
    (srv : Server) (roomId : string) (room : Room.t) (st : GameState.t) :
  reachable srv →
  roomId ≠ EmptyString →
  getRoom roomId (roomManager srv) = Some room →
  gameStates (roomManager srv) !! roomId = Some st →
  roomId ∈ nextRoundTimers srv →
  ∃ st1 final,
    fst (nextRound roomId (roomManager srv)) = Some st1
    ∧ run [EvNextRound roomId; EvTimer roomId] srv = Some final
    ∧ run [EvTimer roomId; EvNextRound roomId] srv = Some final
    ∧ gameStates (roomManager final) !! roomId = Some st1
    ∧ match GameState.player1SelectedCard st with
      | Some c => ∃ l1 l2, GameState.player1Hand st = l1 ++ c :: l2
                           ∧ GameState.player1Hand st1 = l1 ++ l2
                           ∧ Card.id c ∉ Card.id <$> GameState.player1Hand st1
      | None => GameState.player1Hand st1 = GameState.player1Hand st
      end
    ∧ match GameState.player2SelectedCard st with
      | Some c => ∃ l1 l2, GameState.player2Hand st = l1 ++ c :: l2
                           ∧ GameState.player2Hand st1 = l1 ++ l2
                           ∧ Card.id c ∉ Card.id <$> GameState.player2Hand st1
      | None => GameState.player2Hand st1 = GameState.player2Hand st
      end
    ∧ GameState.player1SelectedCard st1 = None
    ∧ GameState.player2SelectedCard st1 = None
    ∧ (∀ evs mid,
         Forall (λ ev, ¬ selectsIn roomId ev) evs →
         run (EvTimer roomId :: evs) srv = Some mid →
         run [EvNextRound roomId] mid = Some (onNextRound roomId mid)
         ∧ handsOf roomId (onNextRound roomId mid) = handsOf roomId mid)
    ∧ (∀ evs mid,
         Forall (λ ev, ¬ selectsIn roomId ev) evs →
         run (EvNextRound roomId :: evs) srv = Some mid →
         run [EvTimer roomId] mid = Some mid)
    ∧ (roomId ∉ nextRoundTimers (onNextRound roomId srv))
    ∧ handle (EvTimer roomId) (onNextRound roomId srv)
        = Some (onNextRound roomId srv)
    ∧ onNextRound roomId (autoNextRound roomId srv) = autoNextRound roomId srv
    ∧ (roomId ∉ nextRoundTimers final)
    ∧ Room.transitioning <$> getRoom roomId (roomManager final) = Some false.
Proof.
  intros Hreach Hne Hroom Hst Htimer.
  destruct (request_and_timer_commute srv roomId room st Hne Hroom Hst Htimer)
    as (st1 & final & E1 & E2 & E3 & E4 & Hh1 & Hh2 & Hgone1 & Hidle & Hagain
        & Hgone & Hunlocked).
  destruct (reachable_ok _ Hreach) as [_ Hs].
  destruct (Hs _ _ Hst) as (Hnd & _ & Hsel1 & Hsel2).
  rewrite fmap_app in Hnd. apply NoDup_app in Hnd as (Hnd1 & _ & Hnd2).
  destruct (nextRound roomId (roomManager srv)) as [o rm1] eqn:Hnext.
  simpl in E1. subst o.
  destruct (nextRound_leaves_calm _ _ _ _ Hnext) as (Hc1 & Hc2 & Hc3).
  assert (HA : onNextRound roomId srv = final).
  { change (run [EvNextRound roomId; EvTimer roomId] srv)
      with (handle (EvTimer roomId) (onNextRound roomId srv)
              ≫= λ s, Some s) in E2.
    rewrite Hidle in E2. by injection E2. }
  assert (HB : autoNextRound roomId srv = final).
  { revert E3. simpl. rewrite decide_True by done. simpl. rewrite Hagain.
    by intros [= <-]. }
  assert (Hfinal : srv_ok final ∧ settled roomId final).
  { split.
    - apply reachable_ok. eapply (run_reachable _ srv); [done|exact E2].
    - split; [done|]. intros x Hx. rewrite E4 in Hx. by injection Hx as <-. }
  destruct Hfinal as [Hokf Hsetf].
  exists st1, final.
  split; [done|]. split; [done|]. split; [done|]. split; [done|].
  split.
  { rewrite Hh1. destruct (GameState.player1SelectedCard st) as [c|]; [|done].
    destruct (removeSelected_unique c _ Hnd1 (Hsel1 c eq_refl))
      as (l1 & l2 & F1 & F2 & F3).
    exists l1, l2. by rewrite F2. }
  split.
  { rewrite Hh2. destruct (GameState.player2SelectedCard st) as [c|]; [|done].
    destruct (removeSelected_unique c _ Hnd2 (Hsel2 c eq_refl))
      as (l1 & l2 & F1 & F2 & F3).
    exists l1, l2. by rewrite F2. }
  split; [done|]. split; [done|].
  split.
  { intros evs mid Hevs. simpl. rewrite decide_True by done. simpl.
    rewrite HB. intros Hrun.
    destruct (settled_run roomId evs final mid Hokf Hsetf Hevs Hrun)
      as [_ Hmid].
    split; [done|]. by apply onNextRound_settled. }
  split.
  { intros evs mid Hevs.
    change (run (EvNextRound roomId :: evs) srv)
      with (run evs (onNextRound roomId srv)).
    rewrite HA. intros Hrun.
    destruct (settled_run roomId evs final mid Hokf Hsetf Hevs Hrun)
      as [_ [Hmid _]].
    simpl. by rewrite decide_False. }
  done.
Qed.

Lemma next_round_request_and_timer_witness :
  reachable solvedRound
  ∧ "R" ≠ EmptyString
  ∧ getRoom "R" (roomManager solvedRound) = Some (roomOf solvedRound)
  ∧ gameStates (roomManager solvedRound) !! "R" = Some (stateOf solvedRound)
  ∧ "R" ∈ nextRoundTimers solvedRound
  ∧ ∃ st1 final,
      fst (nextRound "R" (roomManager solvedRound)) = Some st1
      ∧ run [EvNextRound "R"; EvTimer "R"] solvedRound = Some final
      ∧ run [EvTimer "R"; EvNextRound "R"] solvedRound = Some final
      ∧ gameStates (roomManager final) !! "R" = Some st1.
Proof.
  assert (H0 : "R" ≠ EmptyString) by discriminate.
  assert (H1 : getRoom "R" (roomManager solvedRound) = Some (roomOf solvedRound))
    by (vm_compute; reflexivity).
  assert (H2 : gameStates (roomManager solvedRound) !! "R"
               = Some (stateOf solvedRound)) by (vm_compute; reflexivity).
  assert (H3 : "R" ∈ nextRoundTimers solvedRound).
  { refine (bool_decide_unpack _ _). vm_compute. exact I. }
  destruct (next_round_request_and_timer_advance_once solvedRound "R"
              (roomOf solvedRound) (stateOf solvedRound)
              solvedRound_reachable H0 H1 H2 H3)
    as (st1 & final & E1 & E2 & E3 & E4 & _).
  exact (conj solvedRound_reachable (conj H0 (conj H1 (conj H2 (conj H3
           (ex_intro _ st1 (ex_intro _ final
              (conj E1 (conj E2 (conj E3 E4)))))))))).
Defined.
